(** * gudgeon: a shallow embedding of the resolution engine

    The Go sources of the filtering DNS proxy are embedded package by
    package (one Rocq module per Go package) and the properties of the
    specification are stated and settled on those definitions.

    Conventions of the embedding
    - a Go [uint32], [uint16] or [int] is a [Z]; conversions that can wrap
      have the wrap-around written out;
    - a [time.Time] is a [Z] counting nanoseconds (as [UnixNano]) and a
      [time.Duration] is a [Z] of nanoseconds;
    - a Go pointer or interface value that the code tests against [nil]
      is an [option];
    - a Go function that can panic returns an [Outcome];
    - Go maps are stdpp [gmap]s. *)

From Stdlib Require Import ZArith String Ascii List Lia Bool.
From stdpp Require Import base option list gmap strings sorting.

Open Scope string_scope.
Open Scope list_scope.
Open Scope Z_scope.

(** ** Panics *)

(** The result of running Go code that may panic: a value, or the panic
    with the value that was passed to [panic] (printed as a string). *)
Inductive Outcome (A : Type) : Type :=
| Ret (a : A)
| Panic (v : string).
Arguments Ret {A} a.
Arguments Panic {A} v.

#[global] Instance Outcome_ret : MRet Outcome := fun A a => Ret a.
#[global] Instance Outcome_bind : MBind Outcome := fun A B f m =>
  match m with
  | Ret a => f a
  | Panic v => Panic v
  end.

(** The runtime error of a nil pointer or nil interface dereference. *)
Definition nilDereference : string :=
  "runtime error: invalid memory address or nil pointer dereference".

(** ** Machine integers *)

Definition uint32 (z : Z) : Z := z mod 2 ^ 32.

(** A Go [int] (64 bits) or [int64]: two's complement wrap-around. *)
Definition int64 (z : Z) : Z := (z + 2 ^ 63) mod 2 ^ 64 - 2 ^ 63.

(** ** Package strings and strconv (Go standard library) *)

Module Strings.

Definition isSpace (c : ascii) : bool :=
  let n := nat_of_ascii c in
  ((n =? 32) || (n =? 9) || (n =? 10) || (n =? 11) || (n =? 12) || (n =? 13))%nat.

Fixpoint trimLeft (s : string) : string :=
  match s with
  | String c s' => if isSpace c then trimLeft s' else s
  | EmptyString => EmptyString
  end.

Fixpoint rev (acc s : string) : string :=
  match s with
  | String c s' => rev (String c acc) s'
  | EmptyString => acc
  end.

(** [strings.TrimSpace] (ASCII white space). *)
Definition TrimSpace (s : string) : string :=
  rev "" (trimLeft (rev "" (trimLeft s))).

Definition lower (c : ascii) : ascii :=
  let n := nat_of_ascii c in
  if ((65 <=? n) && (n <=? 90))%nat then ascii_of_nat (n + 32) else c.

(** [strings.ToLower] (ASCII letters). *)
Fixpoint ToLower (s : string) : string :=
  match s with
  | String c s' => String (lower c) (ToLower s')
  | EmptyString => EmptyString
  end.

(** [strings.Contains s sep] for a one-character separator. *)
Fixpoint Contains (s : string) (sep : ascii) : bool :=
  match s with
  | String c s' => if Ascii.eqb c sep then true else Contains s' sep
  | EmptyString => false
  end.

(** [strings.Split s sep] for a one-character separator: the fields
    between the separators, so one more field than separators. *)
Fixpoint Split (s : string) (sep : ascii) : list string :=
  match s with
  | EmptyString => [EmptyString]
  | String c s' =>
      if Ascii.eqb c sep then EmptyString :: Split s' sep
      else match Split s' sep with
           | f :: fs => String c f :: fs
           | [] => [String c EmptyString]
           end
  end.

Fixpoint Join (l : list string) (sep : string) : string :=
  match l with
  | [] => ""
  | [s] => s
  | s :: l' => s +:+ sep +:+ Join l' sep
  end.

Definition HasSuffix (s suffix : string) : bool :=
  String.prefix (rev "" suffix) (rev "" s).

Definition upper (c : ascii) : ascii :=
  let n := nat_of_ascii c in
  if ((97 <=? n) && (n <=? 122))%nat then ascii_of_nat (n - 32) else c.

(** [strings.ToUpper] (ASCII letters). *)
Fixpoint ToUpper (s : string) : string :=
  match s with
  | String c s' => String (upper c) (ToUpper s')
  | EmptyString => EmptyString
  end.

End Strings.

Module strconv.

Definition digit (n : Z) : ascii := ascii_of_nat (48 + Z.to_nat n).

Fixpoint digits (fuel : nat) (n : Z) (acc : string) : string :=
  match fuel with
  | O => acc
  | S fuel' =>
      let acc' := String (digit (n mod 10)) acc in
      if n / 10 =? 0 then acc' else digits fuel' (n / 10) acc'
  end.

(** [strconv.Itoa]. *)
Definition Itoa (n : Z) : string :=
  if n <? 0 then "-" +:+ digits (S (Z.to_nat (Z.log2 (- n)))) (- n) ""
  else digits (S (Z.to_nat (Z.log2 n))) n "".

Definition digitValue (c : ascii) : option Z :=
  let n := nat_of_ascii c in
  if ((48 <=? n) && (n <=? 57))%nat then Some (Z.of_nat n - 48) else None.

Fixpoint parseDigits (s : string) (acc : Z) : option Z :=
  match s with
  | EmptyString => Some acc
  | String c s' =>
      match digitValue c with
      | Some d => parseDigits s' (acc * 10 + d)
      | None => None
      end
  end.

(** [strconv.ParseUint s 10 bitSize]: [None] stands for a returned
    error (empty text, a character that is no digit, or a value out
    of range). *)
Definition ParseUint (s : string) (bitSize : Z) : option Z :=
  match s with
  | EmptyString => None
  | _ => match parseDigits s 0 with
         | Some n => if n <? 2 ^ bitSize then Some n else None
         | None => None
         end
  end.

End strconv.

(** ** Package dns (github.com/miekg/dns): the message model *)

Module dns.

Definition TypeNone : Z := 0.
Definition TypeA : Z := 1.
Definition TypeNS : Z := 2.
Definition TypeCNAME : Z := 5.
Definition TypeSOA : Z := 6.
Definition TypeNULL : Z := 10.
Definition TypePTR : Z := 12.
Definition TypeMX : Z := 15.
Definition TypeTXT : Z := 16.
Definition TypeAAAA : Z := 28.
Definition TypeSRV : Z := 33.
Definition TypeIXFR : Z := 251.
Definition TypeAXFR : Z := 252.
Definition TypeANY : Z := 255.

Definition ClassINET : Z := 1.

Definition OpcodeQuery : Z := 0.

Definition RcodeSuccess : Z := 0.
Definition RcodeServerFailure : Z := 2.
Definition RcodeNameError : Z := 3.
Definition RcodeNotImplemented : Z := 4.
Definition RcodeRefused : Z := 5.
Definition RcodeBadName : Z := 20.

Record RR_Header : Type := {
  Name : string;
  Rrtype : Z;
  Class : Z;
  Ttl : Z
}.

(** The type-specific fields of a resource record.  An address is a
    byte slice that may be [nil]. *)
Inductive RData : Type :=
| A (a : option (list Z))
| AAAA (aaaa : option (list Z))
| CNAME (Target : string)
| PTR (Ptr : string)
| TXT (Txt : list string)
| Other.

Record RR : Type := {
  Hdr : RR_Header;
  Data : RData
}.

Record Question : Type := {
  QName : string;
  Qtype : Z;
  Qclass : Z
}.

Record MsgHdr : Type := {
  Id : Z;
  Response : bool;
  Opcode : Z;
  Authoritative : bool;
  Truncated : bool;
  RecursionDesired : bool;
  RecursionAvailable : bool;
  Zero : bool;
  AuthenticatedData : bool;
  CheckingDisabled : bool;
  Rcode : Z
}.

(** A message.  The record sections are slices of the interface type
    [dns.RR]: an entry may be the nil interface ([None]). *)
Record Msg : Type := {
  Hdr_ : MsgHdr;
  Questions : list Question;
  Answer : list (option RR);
  Ns : list (option RR);
  Extra : list (option RR)
}.

Definition zeroHdr : MsgHdr :=
  {| Id := 0; Response := false; Opcode := 0; Authoritative := false;
     Truncated := false; RecursionDesired := false;
     RecursionAvailable := false; Zero := false;
     AuthenticatedData := false; CheckingDisabled := false; Rcode := 0 |}.

(** [new(dns.Msg)]. *)
Definition newMsg : Msg :=
  {| Hdr_ := zeroHdr; Questions := []; Answer := []; Ns := []; Extra := [] |}.

Definition withHdr (m : Msg) (h : MsgHdr) : Msg :=
  {| Hdr_ := h; Questions := Questions m; Answer := Answer m;
     Ns := Ns m; Extra := Extra m |}.

Definition withId (m : Msg) (id : Z) : Msg :=
  let h := Hdr_ m in
  withHdr m
    {| Id := id; Response := Response h; Opcode := Opcode h;
       Authoritative := Authoritative h; Truncated := Truncated h;
       RecursionDesired := RecursionDesired h;
       RecursionAvailable := RecursionAvailable h; Zero := Zero h;
       AuthenticatedData := AuthenticatedData h;
       CheckingDisabled := CheckingDisabled h; Rcode := Rcode h |}.

Definition withRcode (m : Msg) (rcode : Z) : Msg :=
  let h := Hdr_ m in
  withHdr m
    {| Id := Id h; Response := Response h; Opcode := Opcode h;
       Authoritative := Authoritative h; Truncated := Truncated h;
       RecursionDesired := RecursionDesired h;
       RecursionAvailable := RecursionAvailable h; Zero := Zero h;
       AuthenticatedData := AuthenticatedData h;
       CheckingDisabled := CheckingDisabled h; Rcode := rcode |}.

Definition withAnswer (m : Msg) (answer : list (option RR)) : Msg :=
  {| Hdr_ := Hdr_ m; Questions := Questions m; Answer := answer;
     Ns := Ns m; Extra := Extra m |}.

Definition withSections (m : Msg) (answer ns extra : list (option RR)) : Msg :=
  {| Hdr_ := Hdr_ m; Questions := Questions m; Answer := answer;
     Ns := ns; Extra := extra |}.

Definition withQuestions (m : Msg) (qs : list Question) : Msg :=
  {| Hdr_ := Hdr_ m; Questions := qs; Answer := Answer m;
     Ns := Ns m; Extra := Extra m |}.

Definition withTtl (rr : RR) (ttl : Z) : RR :=
  {| Hdr := {| Name := Name (Hdr rr); Rrtype := Rrtype (Hdr rr);
               Class := Class (Hdr rr); Ttl := ttl |};
     Data := Data rr |}.

Definition withName (rr : RR) (name : string) : RR :=
  {| Hdr := {| Name := name; Rrtype := Rrtype (Hdr rr);
               Class := Class (Hdr rr); Ttl := Ttl (Hdr rr) |};
     Data := Data rr |}.

(** [Msg.SetReply]: the library copies the id, the opcode and (for
    a query) the rd and cd bits from the request, marks the message
    as a successful response and copies the first question.  Its first
    statement reads [request.Id], so a nil request panics. *)
Definition SetReply (m : Msg) (request : option Msg) : Outcome Msg :=
  match request with
  | None => Panic nilDereference
  | Some r =>
      let h := Hdr_ m in
      let rh := Hdr_ r in
      let isQuery := Opcode rh =? OpcodeQuery in
      Ret {| Hdr_ :=
               {| Id := Id rh; Response := true; Opcode := Opcode rh;
                  Authoritative := Authoritative h; Truncated := Truncated h;
                  RecursionDesired :=
                    if isQuery then RecursionDesired rh else RecursionDesired h;
                  RecursionAvailable := RecursionAvailable h; Zero := Zero h;
                  AuthenticatedData := AuthenticatedData h;
                  CheckingDisabled :=
                    if isQuery then CheckingDisabled rh else CheckingDisabled h;
                  Rcode := RcodeSuccess |};
             Questions :=
               match Questions r with
               | q :: _ => [q]
               | [] => Questions m
               end;
             Answer := Answer m; Ns := Ns m; Extra := Extra m |}
  end.

(** Copying one section: the library calls [copy()] on every entry,
    which panics on a nil interface. *)
Fixpoint copyRRs (rrs : list (option RR)) : Outcome (list (option RR)) :=
  match rrs with
  | [] => Ret []
  | None :: _ => Panic nilDereference
  | Some rr :: rest => rest' ← copyRRs rest; Ret (Some rr :: rest')
  end.

(** [Msg.Copy]: a deep copy.  Values are immutable here, so the
    copy is the message itself; what remains is the panic. *)
Definition Copy (m : Msg) : Outcome Msg :=
  answer ← copyRRs (Answer m);
  ns ← copyRRs (Ns m);
  extra ← copyRRs (Extra m);
  Ret (withSections m answer ns extra).

(** [Class.String] and [Type.String]: the mnemonic when the library's
    table has one, else [CLASSn] / [TYPEn].  The tables are the
    library's; the common entries are listed. *)
Definition ClassString (c : Z) : string :=
  if c =? 1 then "IN" else if c =? 2 then "CS" else if c =? 3 then "CH"
  else if c =? 4 then "HS" else if c =? 254 then "NONE"
  else "CLASS" +:+ strconv.Itoa c.

Definition TypeString (t : Z) : string :=
  if t =? 0 then "None" else if t =? 1 then "A" else if t =? 2 then "NS"
  else if t =? 5 then "CNAME" else if t =? 6 then "SOA"
  else if t =? 10 then "NULL" else if t =? 12 then "PTR"
  else if t =? 15 then "MX" else if t =? 16 then "TXT"
  else if t =? 28 then "AAAA" else if t =? 33 then "SRV"
  else if t =? 251 then "IXFR" else if t =? 252 then "AXFR"
  else if t =? 255 then "ANY"
  else "TYPE" +:+ strconv.Itoa t.

End dns.

(** ** Package util *)

Module util.

(** Modelled from the spec: [util.IsEmptyResponse] is not among the
    sources (only its test is).  The spec: true unless at least one
    answer record carries a non-nil payload field (for example an A
    record with a non-nil address).  The test adds that a nil message
    section entry and a filled authority section do not count. *)
Definition hasPayload (rr : option dns.RR) : bool :=
  match rr with
  | None => false
  | Some r =>
      match dns.Data r with
      | dns.A a => bool_decide (a <> None)
      | dns.AAAA a => bool_decide (a <> None)
      | dns.CNAME target => negb (String.eqb target "")
      | dns.PTR ptr => negb (String.eqb ptr "")
      | dns.TXT txt => negb (Nat.eqb (length txt) 0)
      | dns.Other => true
      end
  end.

Definition IsEmptyResponse (response : option dns.Msg) : bool :=
  match response with
  | None => true
  | Some m => negb (existsb hasPayload (dns.Answer m))
  end.

(** Modelled from the spec: [util.StringIn value list] is not among
    the sources; it is used as the membership test of a string in a
    list of strings. *)
Definition StringIn (value : string) (l : list string) : bool :=
  existsb (String.eqb value) l.

(** Modelled from the spec: [util.DomainList] is not among the
    sources.  The spec: the suffix set of a domain; for
    a.b.c.example.com it is a.b.c.example.com, b.c.example.com,
    c.example.com, example.com, com. *)
Fixpoint labelSuffixes (labels : list string) : list string :=
  match labels with
  | [] => []
  | _ :: rest => Strings.Join labels "." :: labelSuffixes rest
  end.

Definition DomainList (domain : string) : list string :=
  if String.eqb domain "" then [] else labelSuffixes (Strings.Split domain ".").

End util.

(** ** Package cache *)

Module cache.

Definition delimeter : string := "|".
Definition dnsMaxTtl : Z := 604800.
Definition Second : Z := 1000000000.

Record envelope : Type := {
  message : option dns.Msg;
  time : Z
}.

(** The backing store (github.com/patrickmn/go-cache): a map from key
    to item, an item being the stored object (here a pointer to an
    envelope, possibly nil) and the instant, in nanoseconds, at which
    it expires. *)
Record Item : Type := {
  Object : option envelope;
  Expiration : Z
}.

(** [backer.Set k x d] at instant [now], for a positive duration. *)
Definition Set_ (items : gmap string Item) (now : Z) (k : string)
    (x : option envelope) (d : Z) : gmap string Item :=
  <[k := {| Object := x; Expiration := now + d |}]> items.

(** [backer.Get k] at instant [now]: an expired item is not found. *)
Definition Get (items : gmap string Item) (now : Z) (k : string)
    : option (option envelope) :=
  match items !! k with
  | None => None
  | Some item =>
      if (0 <? Expiration item) && (Expiration item <? now) then None
      else Some (Object item)
  end.

Record gocache : Type := {
  backer : gmap string Item;
  partitionIdx : Z;
  partitionIdxMap : gmap string Z
}.

Definition min (a b : Z) : Z := if a <=? b then a else b.

Definition max (a b : Z) : Z := if a <=? b then b else a.

Definition New : gocache :=
  {| backer := ∅; partitionIdx := 0; partitionIdxMap := ∅ |}.

(** [value.Header()] on a nil interface entry panics. *)
Fixpoint minTtl (currentMin : Z) (records : list (option dns.RR)) : Outcome Z :=
  match records with
  | [] => Ret currentMin
  | None :: _ => Panic nilDereference
  | Some value :: rest => minTtl (min currentMin (dns.Ttl (dns.Hdr value))) rest
  end.

Definition questionKey (key : string) (question : dns.Question) : string :=
  (if (0 <? String.length key)%nat then key +:+ delimeter else key)
    +:+ dns.QName question +:+ delimeter
    +:+ dns.ClassString (dns.Qclass question) +:+ delimeter
    +:+ dns.TypeString (dns.Qtype question).

(** A partition seen for the first time is given the next index. *)
Definition assignPartition (c : gocache) (partition : string) : gocache :=
  match partitionIdxMap c !! partition with
  | Some _ => c
  | None =>
      {| backer := backer c;
         partitionIdx := int64 (partitionIdx c + 1);
         partitionIdxMap :=
           <[partition := int64 (partitionIdx c + 1)]> (partitionIdxMap c) |}
  end.

(** make string key from partition + message *)
Definition key (c : gocache) (partition : string) (questions : list dns.Question)
    : gocache * string :=
  let c1 := assignPartition c partition in
  let k :=
    if (0 <? length questions)%nat then
      fold_left questionKey questions
        (strconv.Itoa (default 0 (partitionIdxMap c1 !! partition)))
    else "" in
  (c1, Strings.TrimSpace k).

(** The ttl of the envelope: the lowest ttl of the answer section,
    else of the ns section, else of the extra section, starting from
    the cap [dnsMaxTtl]. *)
Definition envelopeTtl (response : dns.Msg) : Outcome Z :=
  ttl ← minTtl dnsMaxTtl (dns.Answer response);
  if (length (dns.Answer response) <? 1)%nat then
    ttl ← minTtl dnsMaxTtl (dns.Ns response);
    if (length (dns.Ns response) <? 1)%nat then
      minTtl dnsMaxTtl (dns.Extra response)
    else Ret ttl
  else Ret ttl.

(** [Store] at instant [now].  The request is dereferenced without a
    test, so it is a message; the response may be nil. *)
Definition Store (c : gocache) (now : Z) (partition : string)
    (request : dns.Msg) (response : option dns.Msg) : Outcome (gocache * bool) :=
  if util.IsEmptyResponse response then Ret (c, false)
  else
    match response with
    | None => Panic nilDereference
    | Some resp =>
        if dns.Truncated (dns.Hdr_ resp) then Ret (c, false)
        else
          let '(c1, k) := key c partition (dns.Questions request) in
          if String.eqb "" k then Ret (c1, false)
          else
            ttl ← envelopeTtl resp;
            if 0 <? ttl then
              copy ← dns.Copy resp;
              let env := {| message := Some copy; time := now |} in
              Ret ({| backer := Set_ (backer c1) now k (Some env) (ttl * Second);
                      partitionIdx := partitionIdx c1;
                      partitionIdxMap := partitionIdxMap c1 |}, true)
            else Ret (c1, false)
    end.

(** The loop writes the header of each record in place; the new
    section is returned. *)
Fixpoint adjustTtls (timeDelta : Z) (records : list (option dns.RR))
    : Outcome (list (option dns.RR)) :=
  match records with
  | [] => Ret []
  | None :: _ => Panic nilDereference
  | Some value :: rest =>
      let value' :=
        if timeDelta <? dns.Ttl (dns.Hdr value)
        then dns.withTtl value (dns.Ttl (dns.Hdr value) - timeDelta)
        else dns.withTtl value 0 in
      rest' ← adjustTtls timeDelta rest;
      Ret (Some value' :: rest')
  end.

(** [Query] at instant [now].  The returned message is the copy made
    before the ttl loop runs; the loop runs on the records of the
    envelope, which the backing store keeps by pointer, so the stored
    envelope is what changes. *)
Definition Query (c : gocache) (now : Z) (partition : string)
    (request : dns.Msg) : Outcome (gocache * option dns.Msg) :=
  let '(c1, k) := key c partition (dns.Questions request) in
  if String.eqb "" k then Ret (c1, None)
  else
    match Get (backer c1) now k with
    | None => Ret (c1, None)
    | Some None => Ret (c1, None)
    | Some (Some env) =>
        match message env with
        | None => Ret (c1, None)
        | Some stored =>
            let delta := now - time env in
            copy ← dns.Copy stored;
            let message := dns.withId copy (dns.Id (dns.Hdr_ request)) in
            let secondDelta := uint32 (Z.quot delta Second) in
            answer ← adjustTtls secondDelta (dns.Answer stored);
            ns ← adjustTtls secondDelta (dns.Ns stored);
            extra ← adjustTtls secondDelta (dns.Extra stored);
            let env' :=
              {| message := Some (dns.withSections stored answer ns extra);
                 time := time env |} in
            Ret ({| backer :=
                      alter (fun item => {| Object := Some env';
                                            Expiration := Expiration item |})
                            k (backer c1);
                    partitionIdx := partitionIdx c1;
                    partitionIdxMap := partitionIdxMap c1 |}, Some message)
        end
    end.

Definition Size (c : gocache) : Z := uint32 (Z.of_nat (size (backer c))).

End cache.

(** ** Package config *)

Module config.

Record GudgeonList : Type := {
  Name : string;
  Type_ : string;
  Tags : list string;
  Source : string
}.

Definition CanonicalName (list : GudgeonList) : string :=
  if String.eqb "" (Name list) then Source list else Name list.

#[global] Instance GudgeonList_eq_dec : EqDecision GudgeonList.
Proof. solve_decision. Defined.

End config.

(** ** Package rule: the persistent indexed store *)

Module rule.

Inductive Match : Type := MatchNone | MatchAllow | MatchBlock.

Inductive ListType : Type := ALLOW | BLOCK.

#[global] Instance ListType_eq_dec : EqDecision ListType.
Proof. solve_decision. Defined.

#[global] Instance Match_eq_dec : EqDecision Match.
Proof. solve_decision. Defined.

(** Modelled from the spec: [rule.ParseType] is not among the sources.
    The configuration documents the type of a list as allow or block,
    block being the default. *)
Definition ParseType (listType : string) : ListType :=
  if String.eqb (Strings.ToLower listType) "allow" then ALLOW else BLOCK.

(** The rows of the session database that lookups read: table [lists]
    (Id, ShortName) and table [rules] (ListRowId, Rule); a ListRowId
    may be NULL. *)
Record DB : Type := {
  lists : list (Z * string);
  rules : list (option Z * string)
}.

Record sqlStore : Type := {
  db : option DB
}.

Section Store.

(** [GudgeonList.ShortName] is not among the sources and the spec
    only says that it is derivable from the name: it is a
    parameter. *)
Variable ShortName : config.GudgeonList -> string.

(** SELECT l.ShortName, r.Rule FROM rules R LEFT JOIN lists L
    ON R.ListRowId = L.rowid
    WHERE l.ShortName in (shortNames) AND r.Rule in (domains) *)
Definition selectRules (d : DB) (shortNames domains : list string)
    : list (string * string) :=
  flat_map (fun r : option Z * string =>
    flat_map (fun l : Z * string =>
      if bool_decide (r.1 = Some l.1)
         && util.StringIn l.2 shortNames
         && util.StringIn r.2 domains
      then [(l.2, r.2)] else [])
      (lists d))
    (rules d).

(** scan rows for rules: the first row whose rule is not empty *)
Fixpoint scanRows (rows : list (string * string)) : bool * string * string :=
  match rows with
  | [] => (false, "", "")
  | (list, rule) :: rest =>
      if negb (String.eqb "" rule) then (true, list, rule) else scanRows rest
  end.

(** Statement preparation and execution are taken to succeed. *)
Definition foundInLists (d : DB) (lists : list config.GudgeonList)
    (domains : list string) : bool * string * string :=
  if (length lists <? 1)%nat || (length domains <? 1)%nat then (false, "", "")
  else
    let shortNames := map ShortName lists in
    scanRows (selectRules d shortNames domains).

(** allow and block split: nil entries are skipped, the others go to
    one of the two lists and into the map from short name to list *)
Fixpoint split (lists : list (option config.GudgeonList))
    (listmap : gmap string config.GudgeonList)
    (allowLists blockLists : list config.GudgeonList)
    : gmap string config.GudgeonList
      * list config.GudgeonList * list config.GudgeonList :=
  match lists with
  | [] => (listmap, allowLists, blockLists)
  | None :: rest => split rest listmap allowLists blockLists
  | Some l :: rest =>
      if bool_decide (ParseType (config.Type_ l) = ALLOW)
      then split rest (<[ShortName l := l]> listmap) (allowLists ++ [l]) blockLists
      else split rest (<[ShortName l := l]> listmap) allowLists (blockLists ++ [l])
  end.

Definition FindMatch (store : sqlStore) (lists : list (option config.GudgeonList))
    (domain : string) : Match * option config.GudgeonList * string :=
  match db store with
  | None => (MatchNone, None, "")
  | Some d =>
      let '(listmap, allowLists, blockLists) := split lists ∅ [] [] in
      let domains := util.DomainList domain in
      let '(found, listName, rule) := foundInLists d allowLists domains in
      if found then (MatchAllow, listmap !! listName, rule)
      else
        let '(found, listName, rule) := foundInLists d blockLists domains in
        if found then (MatchBlock, listmap !! listName, rule)
        else (MatchNone, None, "")
  end.

End Store.

(** The interface [RuleStore], as far as the engine uses it.  An
    implementation may panic. *)
Record RuleStore : Type := {
  FindMatch_ : list (option config.GudgeonList) -> string ->
               Outcome (Match * option config.GudgeonList * string)
}.

Definition sqlRuleStore (ShortName : config.GudgeonList -> string)
    (store : sqlStore) : RuleStore :=
  {| FindMatch_ := fun lists domain => Ret (FindMatch ShortName store lists domain) |}.

End rule.

(** ** Package net (Go standard library) *)

Module net.

(** An IP address: its bytes (4 or 16 of them). *)
Definition IP : Type := list Z.

Definition v4InV6Prefix : list Z := [0; 0; 0; 0; 0; 0; 0; 0; 0; 0; 255; 255].

Definition big : Z := 16777215.

(** [dtoi]: the decimal number at the head of the text, with the
    number of characters read; it fails on no digit and on a value
    that reaches [big]. *)
Fixpoint dtoiLoop (s : string) (n : Z) (i : nat) : Z * nat * bool * string :=
  match s with
  | String c s' =>
      match strconv.digitValue c with
      | Some d =>
          let n' := n * 10 + d in
          if big <=? n' then (big, i, false, s) else dtoiLoop s' n' (S i)
      | None => (n, i, true, s)
      end
  | EmptyString => (n, i, true, s)
  end.

Definition dtoi (s : string) : Z * nat * bool * string :=
  let '(n, i, ok, rest) := dtoiLoop s 0 0%nat in
  if ok && Nat.eqb i 0 then (0, 0%nat, false, s) else (n, i, ok, rest).

(** [parseIPv4]: four decimal octets separated by dots, returned in
    the 16-byte form.  On a text without a colon, [net.ParseIP] is this
    function. *)
Fixpoint parseOctets (count : nat) (first : bool) (s : string) (acc : list Z)
    : option IP :=
  match count with
  | O => if String.eqb s "" then Some acc else None
  | S count' =>
      match s with
      | EmptyString => None
      | String c s' =>
          let afterDot :=
            if first then Some s
            else if Ascii.eqb c "."%char then Some s' else None in
          match afterDot with
          | None => None
          | Some t =>
              let '(n, _, ok, rest) := dtoi t in
              if negb ok || (255 <? n) then None
              else parseOctets count' false rest (acc ++ [n])
          end
      end
  end.

Definition parseIPv4 (s : string) : option IP :=
  match parseOctets 4 true s [] with
  | Some octets => Some (v4InV6Prefix ++ octets)
  | None => None
  end.

(** [bytes.Compare] on two addresses. *)
Fixpoint Compare (a b : list Z) : Z :=
  match a, b with
  | [], [] => 0
  | [], _ :: _ => -1
  | _ :: _, [] => 1
  | x :: a', y :: b' =>
      if x <? y then -1 else if y <? x then 1 else Compare a' b'
  end.

(** [IP.To16]: the 16-byte form; nil when the length is neither 4
    nor 16. *)
Definition To16 (ip : IP) : option (list Z) :=
  if Nat.eqb (length ip) 4 then Some (v4InV6Prefix ++ ip)
  else if Nat.eqb (length ip) 16 then Some ip
  else None.

(** [IP.To4]: the 4-byte form of an IPv4 address; nil otherwise. *)
Definition To4 (ip : IP) : option (list Z) :=
  if Nat.eqb (length ip) 4 then Some ip
  else if Nat.eqb (length ip) 16 && bool_decide (take 12 ip = v4InV6Prefix)
  then Some (drop 12 ip)
  else None.

End net.

(** ** Package resolver: contexts and the remote source *)

Module resolver.

(** The contexts and the result record are declared in files that are
    not among the sources; the fields are those the sources use. *)
Record RequestContext : Type := {
  Protocol : string
}.

Record ResolutionContext : Type := {
  Visited : list string;
  SourceUsed : string
}.

Record ResolutionResult : Type := {
  Consumer : string;
  Blocked : bool;
  Match : rule.Match;
  MatchList : option config.GudgeonList;
  MatchRule : string;
  Cached : bool;
  Resolver : string;
  Source : string;
  Message : string
}.

(** Modelled from the spec: [DefaultRequestContext] is not among the
    sources; the protocol falls back to udp. *)
Definition DefaultRequestContext : RequestContext := {| Protocol := "udp" |}.

Definition withProtocol (rCon : RequestContext) (protocol : string)
    : RequestContext :=
  {| Protocol := protocol |}.

Definition withSourceUsed (context : ResolutionContext) (source : string)
    : ResolutionContext :=
  {| Visited := Visited context; SourceUsed := source |}.

Definition defaultPort : Z := 53.
Definition defaultTLSPort : Z := 853.
Definition portDelimeter : ascii := ":"%char.
Definition protoDelimeter : ascii := "/"%char.

(** how long to wait before source is active again *)
Definition backoffInterval : Z := 15 * 1000000000.
Definition defaultTimeout : Z := 1 * 1000000000.

Definition validProtocols : list string := ["udp"; "tcp"; "tcp-tls"].

(** The tls configuration (certificate verification off) plays no
    part here and is left out. *)
Record dnsSource : Type := {
  dnsServer : string;
  port : Z;
  remoteAddress : string;
  protocol : string;
  backoffTime : option Z
}.

(** determine first if there is an attached protocol: the address
    that remains and the protocol *)
Definition splitProtocol (sourceAddress : string) : string * string :=
  if Strings.Contains sourceAddress protoDelimeter then
    match Strings.Split sourceAddress protoDelimeter with
    | first :: second :: _ =>
        if util.StringIn (Strings.ToLower second) validProtocols
        then (first, Strings.ToLower second)
        else (sourceAddress, "")
    | _ => (sourceAddress, "")
    end
  else (sourceAddress, "").

(** determine if a port comes along with the address: the server and
    the port (0 when there is none or it does not parse) *)
Definition splitPort (sourceAddress : string) : string * Z :=
  if Strings.Contains sourceAddress portDelimeter then
    match Strings.Split sourceAddress portDelimeter with
    | first :: second :: _ =>
        match strconv.ParseUint second 32 with
        | None => (first, 0)
        | Some parsePort => (first, parsePort)
        end
    | _ => ("", 0)
    end
  else (sourceAddress, 0).

Section DNSSource.

(** [net.ParseIP], of the Go standard library. *)
Variable ParseIP : string -> option net.IP.

Definition newDNSSource (sourceAddress : string) : option dnsSource :=
  let '(sourceAddress, protocol) := splitProtocol sourceAddress in
  let '(dnsServer, port) := splitPort sourceAddress in
  let port :=
    if port =? 0 then
      if String.eqb "tcp-tls" protocol then defaultTLSPort else defaultPort
    else port in
  match ParseIP dnsServer with
  | None => None
  | Some _ =>
      Some {| dnsServer := dnsServer;
              port := port;
              remoteAddress :=
                dnsServer +:+ String portDelimeter "" +:+ strconv.Itoa port;
              protocol := protocol;
              backoffTime := None |}
  end.

End DNSSource.

Definition Name (source : dnsSource) : string := remoteAddress source.

(** *** The network

    One attempt to exchange a message with a peer either fails (while
    dialling, writing or reading) or yields the peer's reply, and
    takes some time.  Every attempt is written to a trace, so that
    contacting the peer is observable. *)
Inductive Exchange : Type :=
| DialError (err : string)
| WriteError (err : string)
| ReadError (err : string)
| Reply (response : dns.Msg).

Record Attempt : Type := {
  exchange : Exchange;
  elapsed : Z
}.

Record Contact : Type := {
  at_ : Z;
  coType_ : string;
  peer_ : string
}.

Definition Network : Type := Z -> string -> string -> dns.Msg -> Attempt.

Section Answer.

Variable network : Network.

(** [query] at instant [now]: the reply or the error, the instant at
    which it returns, and the trace with the attempt added. *)
Definition query (trace : list Contact) (now : Z) (coType : string)
    (request : dns.Msg) (remoteAddress : string)
    : list Contact * Z * (option dns.Msg * option string) :=
  let attempt := network now coType remoteAddress request in
  let trace' := trace ++ [{| at_ := now; coType_ := coType; peer_ := remoteAddress |}] in
  let done := now + elapsed attempt in
  match exchange attempt with
  | DialError err => (trace', done, (None, Some err))
  | WriteError err => (trace', done, (None, Some err))
  | ReadError err => (trace', done, (None, Some err))
  | Reply response => (trace', done, (Some response, None))
  end.

Definition withBackoff (source : dnsSource) (backoff : option Z) : dnsSource :=
  {| dnsServer := dnsServer source; port := port source;
     remoteAddress := remoteAddress source; protocol := protocol source;
     backoffTime := backoff |}.

Definition asleep (source : dnsSource) (now : Z) : bool :=
  match backoffTime source with
  | Some backoff => now <? backoff
  | None => false
  end.

(** [Answer] at instant [now] (the first reading of the clock); the
    clock is read again when [query] has failed. *)
Definition Answer (source : dnsSource) (trace : list Contact) (now : Z)
    (rCon : option RequestContext) (context : option ResolutionContext)
    (request : option dns.Msg)
    : dnsSource * list Contact * option ResolutionContext
      * (option dns.Msg * option string) :=
  if asleep source now then
    (* "asleep" during backoff interval *)
    (source, trace, context, (None, None))
  else
    (* the backoff time is irrelevant now *)
    let source := withBackoff source None in
    match request with
    | None => (source, trace, context, (None, None))
    | Some req =>
        if negb (dns.RecursionDesired (dns.Hdr_ req)) then
          (source, trace, context, (None, None))
        else
          let protocol :=
            if String.eqb (protocol source) "" then
              match rCon with
              | Some rc => Protocol rc
              | None => "udp"
              end
            else protocol source in
          let '(trace', later, (response, err)) :=
            query trace now protocol req (remoteAddress source) in
          match err with
          | Some e =>
              (withBackoff source (Some (later + backoffInterval)),
               trace', context, (None, Some e))
          | None =>
              let context' :=
                match context with
                | Some ctx =>
                    if negb (util.IsEmptyResponse response)
                       && String.eqb (SourceUsed ctx) ""
                    then Some (withSourceUsed ctx (Name source +:+ "/" +:+ protocol))
                    else context
                | None => None
                end in
              (source, trace', context', (response, None))
          end
    end.

End Answer.

(** *** The hostfile source *)

(** default to never cache since this is basically a free action *)
Definition ttl : Z := 0.

(** The maps that parsing the file fills. *)
Record hostFileSource : Type := {
  filePath : string;
  hostEntries : gmap string (list (option net.IP));
  cnameEntries : gmap string string;
  reverseLookup : gmap string (list string)
}.

Definition fqdn (name : string) : string :=
  if Strings.HasSuffix name "." then name else name +:+ ".".

Definition respondToA (source : hostFileSource) (name : string)
    (response : dns.Msg) : dns.Msg :=
  match hostEntries source !! name with
  | Some val =>
      let record (address : option net.IP) : option dns.RR :=
        match address with
        | None => None
        | Some ip =>
            match net.To4 ip, net.To16 ip with
            | Some ipV4, _ =>
                Some {| dns.Hdr := {| dns.Name := name; dns.Rrtype := dns.TypeA;
                                      dns.Class := dns.ClassINET; dns.Ttl := ttl |};
                        dns.Data := dns.A (Some ipV4) |}
            | None, Some ipV6 =>
                Some {| dns.Hdr := {| dns.Name := name; dns.Rrtype := dns.TypeAAAA;
                                      dns.Class := dns.ClassINET; dns.Ttl := ttl |};
                        dns.Data := dns.AAAA (Some ipV6) |}
            | None, None => None
            end
        end in
      dns.withAnswer response (dns.Answer response ++ map record val)
  | None => response
  end.

Definition respondToPTR (source : hostFileSource) (name : string)
    (response : dns.Msg) : dns.Msg :=
  match reverseLookup source !! name with
  | Some val =>
      let record (ptr : string) : option dns.RR :=
        if String.eqb "" ptr then None
        else
          Some {| dns.Hdr := {| dns.Name := name; dns.Rrtype := dns.TypePTR;
                                dns.Class := dns.ClassINET; dns.Ttl := ttl |};
                  dns.Data := dns.PTR (fqdn ptr) |} in
      dns.withAnswer response (dns.Answer response ++ map record val)
  | None => response
  end.

Definition respondToCNAME (source : hostFileSource) (name : string)
    (response : dns.Msg) : dns.Msg :=
  match cnameEntries source !! name with
  | Some cname =>
      if String.eqb "" cname then dns.withAnswer response [None]
      else
        dns.withAnswer response
          [Some {| dns.Hdr := {| dns.Name := name; dns.Rrtype := dns.TypeCNAME;
                                 dns.Class := dns.ClassINET; dns.Ttl := ttl |};
                   dns.Data := dns.CNAME (fqdn cname) |}]
  | None => response
  end.

Definition hostFileName (source : hostFileSource) : string :=
  "hostfile:" +:+ filePath source.

(** [hostFileSource.Answer]; the request is dereferenced without a
    test, so it is a message. *)
Definition hostFileAnswer (source : hostFileSource)
    (context : option ResolutionContext) (request : dns.Msg)
    : Outcome (option ResolutionContext * (option dns.Msg * option string)) :=
  match dns.Questions request with
  | [] => Ret (context, (None, None))
  | question :: _ =>
      let name := dns.QName question in
      let qType := dns.Qtype question in
      let qIs t := qType =? t in
      if negb (qIs dns.TypeANY) && negb (qIs dns.TypeA) && negb (qIs dns.TypeAAAA)
         && negb (qIs dns.TypePTR) && negb (qIs dns.TypeCNAME)
      then Ret (context, (None, None))
      else
        let rh := dns.Hdr_ request in
        let fresh :=
          dns.withHdr dns.newMsg
            {| dns.Id := 0; dns.Response := false; dns.Opcode := dns.OpcodeQuery;
               dns.Authoritative := dns.Authoritative rh;
               dns.Truncated := false;
               dns.RecursionDesired := dns.RecursionDesired rh;
               dns.RecursionAvailable := false; dns.Zero := false;
               dns.AuthenticatedData := dns.AuthenticatedData rh;
               dns.CheckingDisabled := dns.CheckingDisabled rh;
               dns.Rcode := 0 |} in
        response ← dns.SetReply fresh (Some request);
        let response :=
          if qIs dns.TypeANY || qIs dns.TypeCNAME
          then respondToCNAME source name response else response in
        let response :=
          if qIs dns.TypeANY || qIs dns.TypeA || qIs dns.TypeAAAA then
            let response :=
              if negb (qIs dns.TypeANY)
              then respondToCNAME source name response else response in
            if qIs dns.TypeANY || (length (dns.Answer response) <? 1)%nat
            then respondToA source name response else response
          else response in
        let response :=
          if qIs dns.TypeANY || qIs dns.TypePTR
          then respondToPTR source name response else response in
        let context' :=
          match context with
          | Some ctx => Some (withSourceUsed ctx (hostFileName source))
          | None => None
          end in
        Ret (context', (Some response, None))
  end.

End resolver.

(** ** Package engine: the request pipeline *)

Module engine.

(** The configuration of a consumer, with the fields the engine
    reads. *)
Record GudgeonMatchRange : Type := {
  Start : string;
  End_ : string
}.

Record GudgeonMatch : Type := {
  IP : string;
  Range : option GudgeonMatchRange;
  Net : string
}.

Record GudgeonConsumer : Type := {
  Name : string;
  Groups : list string;
  Matches : list GudgeonMatch;
  Block : bool
}.

(** represents a parsed "consumer" type that links it to active
    parsed groups *)
Record consumer : Type := {
  configConsumer : option GudgeonConsumer;
  groupNames : list string;
  resolverNames : list string;
  lists : list (option config.GudgeonList)
}.

(** incomplete list of not-implemented queries *)
Definition notImplemented (qType : Z) : bool :=
  (qType =? dns.TypeNone) || (qType =? dns.TypeNULL)
  || (qType =? dns.TypeIXFR) || (qType =? dns.TypeAXFR).

(** [recover()] as [performRequest] calls it: directly in the body of
    the function, not in a deferred one.  The language defines the
    value of such a call as nil; a panic raised by an earlier
    statement has already left the function when control would reach
    the call. *)
Definition recover : option string := None.

(** A run that may panic and that may need more steps than it was
    given: [None] is the run out of fuel. *)
Definition Run (A : Type) : Type := option (Outcome A).

Definition run {A B : Type} (m : Run A) (k : A -> Run B) : Run B :=
  match m with
  | None => None
  | Some (Panic v) => Some (Panic v)
  | Some (Ret a) => k a
  end.

Definition zeroResult : resolver.ResolutionResult :=
  {| resolver.Consumer := ""; resolver.Blocked := false;
     resolver.Match := rule.MatchNone; resolver.MatchList := None;
     resolver.MatchRule := ""; resolver.Cached := false;
     resolver.Resolver := ""; resolver.Source := ""; resolver.Message := "" |}.

Definition withConsumer (r : resolver.ResolutionResult) (name : string)
    : resolver.ResolutionResult :=
  {| resolver.Consumer := name; resolver.Blocked := resolver.Blocked r;
     resolver.Match := resolver.Match r; resolver.MatchList := resolver.MatchList r;
     resolver.MatchRule := resolver.MatchRule r; resolver.Cached := resolver.Cached r;
     resolver.Resolver := resolver.Resolver r; resolver.Source := resolver.Source r;
     resolver.Message := resolver.Message r |}.

Definition withBlocked (r : resolver.ResolutionResult) (blocked : bool)
    : resolver.ResolutionResult :=
  {| resolver.Consumer := resolver.Consumer r; resolver.Blocked := blocked;
     resolver.Match := resolver.Match r; resolver.MatchList := resolver.MatchList r;
     resolver.MatchRule := resolver.MatchRule r; resolver.Cached := resolver.Cached r;
     resolver.Resolver := resolver.Resolver r; resolver.Source := resolver.Source r;
     resolver.Message := resolver.Message r |}.

Definition withMatch (r : resolver.ResolutionResult) (m : rule.Match)
    (list : option config.GudgeonList) (ruleText : string)
    : resolver.ResolutionResult :=
  {| resolver.Consumer := resolver.Consumer r; resolver.Blocked := resolver.Blocked r;
     resolver.Match := m; resolver.MatchList := list;
     resolver.MatchRule := ruleText; resolver.Cached := resolver.Cached r;
     resolver.Resolver := resolver.Resolver r; resolver.Source := resolver.Source r;
     resolver.Message := resolver.Message r |}.

Definition withMessage (r : resolver.ResolutionResult) (message : string)
    : resolver.ResolutionResult :=
  {| resolver.Consumer := resolver.Consumer r; resolver.Blocked := resolver.Blocked r;
     resolver.Match := resolver.Match r; resolver.MatchList := resolver.MatchList r;
     resolver.MatchRule := resolver.MatchRule r; resolver.Cached := resolver.Cached r;
     resolver.Resolver := resolver.Resolver r; resolver.Source := resolver.Source r;
     resolver.Message := message |}.

Section Engine.

(** The state behind the resolver map (its cache, the back-off of
    its sources). *)
Context {RS : Type}.

(** [net.ParseIP], and [net.ParseCIDR] followed by [Contains]: the
    text is a network and the address is in it. *)
Variable ParseIP : string -> option net.IP.
Variable cidrContains : string -> net.IP -> bool.

(** The interface [resolver.ResolverMap], as far as the engine uses
    it: the response, the result and the error of
    [AnswerMultiResolvers].  An implementation may panic. *)
Record ResolverMap : Type := {
  AnswerMultiResolvers :
    RS -> resolver.RequestContext -> list string -> dns.Msg ->
    Outcome (RS * (option dns.Msg * option resolver.ResolutionResult * option string))
}.

(** stores the internals of the engine abstraction *)
Record engine : Type := {
  consumers : list consumer;
  defaultConsumer : option consumer;
  store : option rule.RuleStore;
  resolvers : ResolverMap
}.

Definition to16 (ip : net.IP) : list Z := default [] (net.To16 ip).

(** One pass of the inner loop of [getConsumerForIp]: does this
    match select the consumer? *)
Definition matches (m : GudgeonMatch) (consumerIp : net.IP) : bool :=
  (* test ip match *)
  (negb (String.eqb "" (IP m))
   && match ParseIP (IP m) with
      | Some matchIp => net.Compare (to16 matchIp) (to16 consumerIp) =? 0
      | None => false
      end)
  (* test range match *)
  || match Range m with
     | Some range =>
         negb (String.eqb "" (Start range)) && negb (String.eqb "" (End_ range))
         && match ParseIP (Start range), ParseIP (End_ range) with
            | Some startIp, Some endIp =>
                (0 <=? net.Compare (to16 consumerIp) (to16 startIp))
                && (net.Compare (to16 consumerIp) (to16 endIp) <=? 0)
            | _, _ => false
            end
     | None => false
     end
  (* test net (subnet) match *)
  || (negb (String.eqb "" (Net m)) && cidrContains (Net m) consumerIp).

Fixpoint findConsumer (active : list consumer) (consumerIp : net.IP)
    : Outcome (option consumer) :=
  match active with
  | [] => Ret None
  | activeConsumer :: rest =>
      match configConsumer activeConsumer with
      | None => Panic nilDereference
      | Some cc =>
          if existsb (fun m => matches m consumerIp) (Matches cc)
          then Ret (Some activeConsumer)
          else findConsumer rest consumerIp
      end
  end.

Definition getConsumerForIp (e : engine) (consumerIp : net.IP)
    : Outcome (option consumer) :=
  foundConsumer ← findConsumer (consumers e) consumerIp;
  match foundConsumer with
  | Some c => Ret (Some c)
  | None => Ret (defaultConsumer e)   (* return default consumer *)
  end.

Definition getResolvers (c : consumer) : list string :=
  if (0 <? length (resolverNames c))%nat then resolverNames c else ["default"].

Definition domainRuleMatchedForConsumer (e : engine) (c : consumer)
    (domain : string) : Outcome (rule.Match * option config.GudgeonList * string) :=
  (* drop ending . if present from domain *)
  let domain :=
    if Strings.HasSuffix domain "."
    then String.substring 0 (String.length domain - 1) domain
    else domain in
  match store e with
  | None => Ret (rule.MatchNone, None, "")
  | Some s => rule.FindMatch_ s (lists c) domain
  end.

Definition setName (name : string) (rr : option dns.RR)
    : Outcome (option dns.RR) :=
  match rr with
  | None => Panic nilDereference
  | Some r => Ret (Some (dns.withName r name))
  end.

Fixpoint setNames (name : string) (rrs : list (option dns.RR))
    : Outcome (list (option dns.RR)) :=
  match rrs with
  | [] => Ret []
  | rr :: rest =>
      rr' ← setName name rr;
      rest' ← setNames name rest;
      Ret (rr' :: rest')
  end.

Definition Response : Type :=
  dns.Msg * resolver.RequestContext * resolver.ResolutionResult.

(** handles recursive resolution of cnames; [performRequest] is the
    function of that name, called on the request for the target *)
Definition handleCnameResolution
    (performRequest : RS -> net.IP -> string -> option dns.Msg -> Run (RS * Response))
    (s : RS) (address : net.IP) (protocol : string)
    (originalRequest : option dns.Msg) (originalResponse : option dns.Msg)
    : Run (RS * option dns.Msg) :=
  match originalResponse, originalRequest with
  | Some oResponse, Some oRequest =>
      match dns.Answer oResponse, dns.Questions oRequest with
      | first :: _, question :: _ =>
          match first with
          | Some answer =>
              if (dns.Rrtype (dns.Hdr answer) =? dns.TypeCNAME)
                 && negb (dns.Qtype question =? dns.TypeCNAME)
              then
                run (Some (dns.Copy oRequest)) (fun cnameRequest =>
                match dns.Data answer with
                | dns.CNAME newName =>
                    let cnameRequest :=
                      dns.withQuestions cnameRequest
                        match dns.Questions cnameRequest with
                        | q :: qs =>
                            {| dns.QName := newName; dns.Qtype := dns.Qtype q;
                               dns.Qclass := dns.Qclass q |} :: qs
                        | [] => []
                        end in
                    run (performRequest s address protocol (Some cnameRequest))
                      (fun '(s', (cnameResponse, _, _)) =>
                      if negb (util.IsEmptyResponse (Some cnameResponse)) then
                        (* use response, update answer name, but set
                           reply as original request *)
                        Some (answers ← setNames (dns.QName question)
                                          (dns.Answer cnameResponse);
                              response ← dns.SetReply
                                           (dns.withAnswer cnameResponse answers)
                                           originalRequest;
                              Ret (s', Some response))
                      else Some (Ret (s', None)))
                | _ => Some (Panic "interface conversion: dns.RR is not *dns.CNAME")
                end)
              else Some (Ret (s, None))
          | None => Some (Ret (s, None))
          end
      | _, _ => Some (Ret (s, None))
      end
  | _, _ => Some (Ret (s, None))
  end.

Definition reply (request : option dns.Msg) (rcode : Z) : Outcome dns.Msg :=
  response ← dns.SetReply dns.newMsg request;
  Ret (dns.withRcode response rcode).

(** [performRequest]; [fuel] bounds the depth of the calls that
    [handleCnameResolution] makes back into it. *)
Fixpoint performRequest (fuel : nat) (e : engine) (s : RS) (address : net.IP)
    (protocol : string) (request : option dns.Msg) : Run (RS * Response) :=
  match fuel with
  | O => None
  | S fuel' =>
      (* create context *)
      let rCon := {| resolver.Protocol := protocol |} in
      (* get consumer and use it to set initial/noreply result *)
      run (Some (getConsumerForIp e address)) (fun found =>
      match found with
      | None => Some (Panic nilDereference)
      | Some c =>
      match configConsumer c with
      | None => Some (Panic nilDereference)
      | Some cc =>
      let result := withConsumer zeroResult (Name cc) in
      let refuse (rcode : Z) : Run (RS * Response) :=
        Some (response ← reply request rcode; Ret (s, (response, rCon, result))) in
      (* drop questions that don't meet minimum requirements *)
      match request with
      | None => refuse dns.RcodeRefused
      | Some req =>
      match dns.Questions req with
      | [] => refuse dns.RcodeRefused
      | question :: _ =>
      (* drop questions for domain names that could be malicious *)
      if (String.length (dns.QName question) <? 1)%nat
         || (255 <? String.length (dns.QName question))%nat
      then refuse dns.RcodeBadName
      (* drop questions that aren't implemented *)
      else if notImplemented (dns.Qtype question)
      then refuse dns.RcodeNotImplemented
      else
        let domain := dns.QName question in
        let finish (s : RS) (response : option dns.Msg)
            (result : option resolver.ResolutionResult) : Run (RS * Response) :=
          (* if no response is found at this point ensure it is created *)
          let response := default dns.newMsg response in
          (* set codes for response/reply *)
          run (if util.IsEmptyResponse (Some response)
               then Some (reply' ← dns.SetReply response request;
                          Ret (dns.withRcode reply' dns.RcodeNameError))
               else Some (Ret response)) (fun response =>
          match recover with
          | Some recovery =>
              Some (response ← reply request dns.RcodeServerFailure;
                    match result with
                    | None => Panic nilDereference
                    | Some r =>
                        Ret (s, (response, rCon,
                                 withConsumer (withMessage r recovery) (Name cc)))
                    end)
          | None =>
              let result := default zeroResult result in
              Some (Ret (s, (response, rCon, withConsumer result (Name cc))))
          end) in
        (* get block status and refuse the request *)
        if Block cc then
          let result := withBlocked result true in
          run (Some (dns.SetReply (dns.withRcode dns.newMsg dns.RcodeRefused) request))
            (fun response => finish s (Some response) (Some result))
        else
          run (Some (domainRuleMatchedForConsumer e c domain))
            (fun '(m, list, ruleText) =>
          let result :=
            if bool_decide (m <> rule.MatchNone)
            then withMatch result m list ruleText else result in
          if bool_decide (m <> rule.MatchBlock) then
            (* if not blocked then actually try resolution *)
            let resolverNames := getResolvers c in
            run (Some (AnswerMultiResolvers (resolvers e) s rCon resolverNames req))
              (fun '(s1, (response, result, err)) =>
            match err with
            | Some _ => finish s1 response result
            | None =>
                run (handleCnameResolution (performRequest fuel' e)
                       s1 address protocol request response)
                  (fun '(s2, cnameResponse) =>
                if negb (util.IsEmptyResponse cnameResponse)
                then finish s2 cnameResponse result
                else finish s2 response result)
            end)
          else finish s None (Some result))
      end end end end)
  end.

(** entry point for external handler.  The recorder is not among
    the sources; queueing the outcome for it is left out. *)
Definition Handle (fuel : nat) (e : engine) (s : RS) (address : net.IP)
    (protocol : string) (request : option dns.Msg) : Run (RS * Response) :=
  performRequest fuel e s address protocol request.

End Engine.

Arguments ResolverMap : clear implicits.
Arguments engine : clear implicits.

End engine.

(** ** Go channels *)

Module channel.

(** A buffered channel: the buffered elements, oldest first, the
    elements of the senders that are blocked in a send, in the order
    in which they arrived, and the capacity. *)
Record chan (A : Type) : Type := {
  buf : list A;
  sendq : list A;
  cap : Z
}.
Arguments buf {A} c.
Arguments sendq {A} c.
Arguments cap {A} c.

(** [make(chan A, n)] *)
Definition make {A : Type} (n : Z) : chan A :=
  {| buf := []; sendq := []; cap := n |}.

(** How a send statement [c <- x] goes on: the element is buffered and
    the sender proceeds, or the buffer is full and the sender is
    suspended with its element until a receive makes room. *)
Inductive SendStatus : Type := Proceeds | Blocks.

Definition send {A : Type} (c : chan A) (x : A) : chan A * SendStatus :=
  if Z.of_nat (length (buf c)) <? cap c
  then ({| buf := buf c ++ [x]; sendq := sendq c; cap := cap c |}, Proceeds)
  else ({| buf := buf c; sendq := sendq c ++ [x]; cap := cap c |}, Blocks).

(** A receive [<-c] takes the oldest buffered element; the room it
    makes goes to the longest-waiting blocked sender, whose element
    is buffered and who proceeds.  On an empty buffer the receiver
    waits ([None]). *)
Definition recv {A : Type} (c : chan A) : option (A * chan A) :=
  match buf c with
  | [] => None
  | x :: rest =>
      match sendq c with
      | [] => Some (x, {| buf := rest; sendq := []; cap := cap c |})
      | y :: waiting => Some (x, {| buf := rest ++ [y]; sendq := waiting; cap := cap c |})
      end
  end.

End channel.

(** ** Package metrics *)

Module metrics.

(** metrics prefix *)
Definition MetricsPrefix : string := "gudgeon-".
Definition TotalQueries : string := "total-session-queries".
Definition TotalLifetimeQueries : string := "total-lifetime-queries".
Definition TotalIntervalQueries : string := "total-interval-queries".
Definition CachedQueries : string := "cached-queries".
Definition BlockedQueries : string := "blocked-session-queries".
Definition BlockedLifetimeQueries : string := "blocked-lifetime-queries".
Definition BlockedIntervalQueries : string := "blocked-interval-queries".

Record metricsInfo : Type := {
  address : string;
  request : option dns.Msg;
  response : option dns.Msg;
  result : option resolver.ResolutionResult;
  rCon : option resolver.RequestContext
}.

(** A metric is its count. *)
Record MetricsEntry : Type := {
  FromTime : Z;
  AtTime : Z;
  Values : gmap string Z;
  IntervalSeconds : Z
}.

(** A row of table [metrics], with its columns in the order of the
    schema: FromTime, AtTime, MetricsJson, IntervalSeconds.  The json
    text of the counters is represented by the map it encodes. *)
Record Row : Type := {
  colFromTime : Z;
  colAtTime : Z;
  colMetricsJson : gmap string Z;
  colIntervalSeconds : Z
}.

Definition queueSize : Z := 100000.

Record metrics : Type := {
  metricsMap : gmap string Z;
  metricsInfoChan : channel.chan metricsInfo;
  db : option (list Row);
  (* time management for interval insert *)
  lastInsert : Z
}.

Definition withMap (m : metrics) (map : gmap string Z) : metrics :=
  {| metricsMap := map; metricsInfoChan := metricsInfoChan m;
     db := db m; lastInsert := lastInsert m |}.

Definition withChan (m : metrics) (c : channel.chan metricsInfo) : metrics :=
  {| metricsMap := metricsMap m; metricsInfoChan := c;
     db := db m; lastInsert := lastInsert m |}.

(** [New]: the counters start empty and the channel for incoming
    metrics is created.  Opening the database, loading the lifetime
    counters and the first update of the process gauges are left
    out: [persisted] is the table as it was found. *)
Definition New (persisted : option (list Row)) (now : Z) : metrics :=
  {| metricsMap := ∅;
     metricsInfoChan := channel.make queueSize;
     db := persisted;
     lastInsert := now |}.

Definition GetAll (m : metrics) : gmap string Z := metricsMap m.

(** [Get name] creates the metric, at 0, when it is not there. *)
Definition Get (m : metrics) (name : string) : metrics * Z :=
  match metricsMap m !! (MetricsPrefix +:+ name) with
  | Some count => (m, count)
  | None => (withMap m (<[MetricsPrefix +:+ name := 0]> (metricsMap m)), 0)
  end.

(** [Get(name).Set(newValue)] *)
Definition Set_ (m : metrics) (name : string) (newValue : Z) : metrics :=
  withMap m (<[MetricsPrefix +:+ name := newValue]> (metricsMap m)).

(** [Get(name).Inc(byValue)] *)
Definition Inc (m : metrics) (name : string) (byValue : Z) : metrics :=
  let '(m, count) := Get m name in
  Set_ m name (int64 (count + byValue)).

(** [Get(name).Clear()] *)
Definition Clear (m : metrics) (name : string) : metrics := Set_ m name 0.

(** [record]; the detailed metrics, which are not among the sources,
    and the per-list counters, which need [ShortName], are left
    out. *)
Definition record (m : metrics) (info : metricsInfo) : metrics :=
  (* first add count to total queries *)
  let m := Inc m TotalQueries 1 in
  let m := Inc m TotalLifetimeQueries 1 in
  let m := Inc m TotalIntervalQueries 1 in
  (* add cache hits *)
  let m :=
    match result info with
    | Some r => if resolver.Cached r then Inc m CachedQueries 1 else m
    | None => m
    end in
  (* add blocked queries *)
  match result info with
  | Some r =>
      if resolver.Blocked r || bool_decide (resolver.Match r = rule.MatchBlock) then
        let m := Inc m BlockedQueries 1 in
        let m := Inc m BlockedLifetimeQueries 1 in
        Inc m BlockedIntervalQueries 1
      else m
  | None => m
  end.

(** [int(math.Round(d.Seconds()))]: the duration in seconds, rounded
    half away from zero. *)
Definition roundSeconds (d : Z) : Z :=
  if 0 <=? d then (d + 500000000) / 1000000000
  else - ((- d + 500000000) / 1000000000).

(** [insert]: without a database the worker does not call it; the
    statement is taken to succeed. *)
Definition insert (m : metrics) (currentTime : Z) : metrics :=
  match db m with
  | None => m
  | Some table =>
      (* get all metrics *)
      let all := GetAll m in
      let row :=
        {| colFromTime := lastInsert m;
           colAtTime := currentTime;
           colMetricsJson := all;
           colIntervalSeconds := roundSeconds (currentTime - lastInsert m) |} in
      (* clear and restart interval *)
      let m := Clear m TotalIntervalQueries in
      let m := Clear m BlockedIntervalQueries in
      {| metricsMap := metricsMap m; metricsInfoChan := metricsInfoChan m;
         db := Some (table ++ [row]); lastInsert := currentTime |}
  end.

(** ORDER BY AtTime ASC *)
Fixpoint insertByAtTime (r : Row) (sorted : list Row) : list Row :=
  match sorted with
  | [] => [r]
  | r' :: rest =>
      if colAtTime r <? colAtTime r' then r :: sorted
      else r' :: insertByAtTime r rest
  end.

Definition orderByAtTime (rows : list Row) : list Row :=
  fold_left (fun sorted r => insertByAtTime r sorted) rows [].

(** SELECT FromTime, AtTime, MetricsJson, IntervalSeconds FROM metrics
    WHERE FromTime >= start AND AtTime <= end ORDER BY AtTime ASC *)
Definition selectRows (table : list Row) (start end_ : Z) : list Row :=
  orderByAtTime
    (filter (fun r => (start <= colFromTime r) /\ (colAtTime r <= end_)) table).

(** [rows.Scan(&me.AtTime, &me.FromTime, &metricsJsonString,
    &me.IntervalSeconds)]: the columns of the row go, in their order,
    to the destinations in the order in which they are passed. *)
Definition scan (r : Row) : MetricsEntry :=
  let first := colFromTime r in
  let second := colAtTime r in
  {| AtTime := first;
     FromTime := second;
     Values := colMetricsJson r;
     IntervalSeconds := colIntervalSeconds r |}.

(** [query] with the accumulator of [Query], which appends. *)
Definition query (m : metrics) (start end_ : Z) : list MetricsEntry :=
  match db m with
  | None => []
  | Some table => map scan (selectRows table start end_)
  end.

(** traditional query that returns an array of metrics entries *)
Definition Query (m : metrics) (start end_ : Z) : list MetricsEntry :=
  query m start end_.

Definition ipString (ip : option string) : string := default "" ip.

(** [RecordQueryMetrics]: the message is built and sent on the
    channel; the status says whether the caller proceeds. *)
Definition RecordQueryMetrics (m : metrics) (ip : option string)
    (request response : option dns.Msg)
    (rCon : option resolver.RequestContext)
    (result : option resolver.ResolutionResult)
    : metrics * channel.SendStatus :=
  let msg :=
    {| address := ipString ip; request := request; response := response;
       result := result; rCon := rCon |} in
  let '(c, status) := channel.send (metricsInfoChan m) msg in
  (withChan m c, status).

(** One turn of the worker on the case
    [info := <-metrics.metricsInfoChan]. *)
Definition workerReceive (m : metrics) : option metrics :=
  match channel.recv (metricsInfoChan m) with
  | None => None
  | Some (info, c) => Some (record (withChan m c) info)
  end.

(** cache entries, runtime metrics, cpu metrics *)
Definition CurrentCacheEntries : string := "cache-entries".
Definition GoRoutines : string := "goroutines".
Definition Threads : string := "process-threads".
Definition CurrentlyAllocated : string := "allocated-bytes".
Definition UsedMemory : string := "process-used-bytes".
Definition FreeMemory : string := "free-memory-bytes".
Definition SystemMemory : string := "system-memory-bytes".
Definition CPUHundredsPercent : string := "cpu-hundreds-percent".

(** What [update] reads from the operating system and the runtime,
    as the 64-bit integers it stores: of the process (when it is
    found) the cpu percentage times 100, the resident memory and the
    number of threads, each when its call succeeds, and the free and
    total memory of the system; the number of goroutines; the bytes
    allocated; the size of the cache when a function for it is
    set. *)
Record ProcessReadings : Type := {
  cpuPercent : option Z;
  memoryRSS : option Z;
  numThreads : option Z;
  virtualMemory : option (Z * Z)
}.

Record Readings : Type := {
  process : option ProcessReadings;
  numGoroutine : Z;
  memAlloc : Z;
  cacheSize : option Z
}.

Definition setWhen (m : metrics) (name : string) (value : option Z) : metrics :=
  match value with
  | Some v => Set_ m name v
  | None => m
  end.

Definition update (m : metrics) (r : Readings) : metrics :=
  let m :=
    match process r with
    | Some p =>
        let m := setWhen m CPUHundredsPercent (cpuPercent p) in
        let m := setWhen m UsedMemory (memoryRSS p) in
        let m := setWhen m Threads (numThreads p) in
        match virtualMemory p with
        | Some (free, total) => Set_ (Set_ m FreeMemory free) SystemMemory total
        | None => m
        end
    | None => m
    end in
  (* capture goroutines *)
  let m := Set_ m GoRoutines (numGoroutine r) in
  (* capture memory metrics *)
  let m := Set_ m CurrentlyAllocated (memAlloc r) in
  (* capture cache size *)
  setWhen m CurrentCacheEntries (cacheSize r).

(** One turn of the worker on the case [<-metrics.ticker.C]. *)
Definition workerTick (m : metrics) (r : Readings) (now : Z) : metrics :=
  (* update periodic metrics *)
  let m := update m r in
  (* only insert/prune if a db exists *)
  match db m with
  | Some _ => insert m now
  | None => m
  end.


End metrics.

(** ** Package engine: the query log *)

Module qlog.

(** list of valid sort names (lower case for ease of use with
    util.StringIn) *)
Definition validSorts : list string :=
  ["address"; "connectiontype"; "requestdomain"; "requesttype"; "blocked";
   "blockedlist"; "blockedrule"; "created"].

(** the type that is used to make queries against the query log *)
Record QueryLogQuery : Type := {
  (* query on fields *)
  Address : string;
  ClientName : string;
  ConnectionType : string;
  RequestDomain : string;
  RequestType : string;
  ResponseText : string;
  Blocked : option bool;
  Cached : option bool;
  Match : option rule.Match;
  (* query on created time *)
  After : option Z;
  Before : option Z;
  (* query limits for paging *)
  Skip : Z;
  Limit : Z;
  (* query sort *)
  SortBy : string;
  Direction : string
}.

(** A value bound to a placeholder of a statement. *)
Inductive Value : Type :=
| Text (s : string)
| Flag (b : bool)
| Verdict (m : rule.Match)
| Instant (t : Z).

(** The clauses and the values gathered so far. *)
Definition Clauses : Type := list string * list Value.

(** [if cond { clauses = append(clauses, clause); values =
    append(values, value) }] *)
Definition addWhen (cond : bool) (clause : string) (value : Value) (acc : Clauses)
    : Clauses :=
  if cond then (acc.1 ++ [clause], acc.2 ++ [value]) else acc.

Definition like (text : string) : Value := Text ("%" +:+ text +:+ "%").

Definition isSet {A : Type} (field : option A) : bool :=
  match field with
  | Some _ => true
  | None => false
  end.

Definition selectFrom : string :=
  "SELECT Address, ClientName, Consumer, RequestDomain, RequestType, ResponseText, Rcode, Blocked, Match, MatchList, MatchRule, Cached, Created FROM qlog".

Definition countFrom : string := "SELECT COUNT(*) FROM qlog".

(** The statements that [query] builds and the values it binds to
    both: the statement that selects the entries, the statement that
    counts them, and the values. *)
Definition statements (query : QueryLogQuery) : string * string * list Value :=
  (* select entries from qlog *)
  let selectStmt := selectFrom in
  let countStmt := countFrom in
  (* so we can dynamically build the where clause *)
  let ors : Clauses := (["1 = 1"], []) in
  let wheres : Clauses := (["1 = 1"], []) in
  (* or clause *)
  let ors := addWhen (negb (String.eqb "" (Address query)))
               "Address like ?" (like (Address query)) ors in
  let ors := addWhen (negb (String.eqb "" (ClientName query)))
               "ClientName like ?" (like (ClientName query)) ors in
  let ors := addWhen (negb (String.eqb "" (RequestDomain query)))
               "RequestDomain like ?" (like (RequestDomain query)) ors in
  let ors := addWhen (negb (String.eqb "" (ResponseText query)))
               "ResponseText like ?" (like (ResponseText query)) ors in
  let wheres := addWhen (isSet (Blocked query))
                  "Blocked = ?" (Flag (default false (Blocked query))) wheres in
  let wheres := addWhen (isSet (Match query))
                  "Match = ?" (Verdict (default rule.MatchNone (Match query))) wheres in
  let wheres := addWhen (isSet (Cached query))
                  "Cached = ?" (Flag (default false (Cached query))) wheres in
  let wheres := addWhen (isSet (After query))
                  "Created > ?" (Instant (default 0 (After query))) wheres in
  let wheres := addWhen (isSet (Before query))
                  "Created < ?" (Instant (default 0 (Before query))) wheres in
  let orClauses := ors.1 in
  let whereClauses := wheres.1 in
  (* finalize query part *)
  let '(selectStmt, countStmt) :=
    if (0 <? length whereClauses)%nat || (0 <? length orClauses)%nat then
      let orClauses :=
        if (1 <? length orClauses)%nat then tail orClauses else orClauses in
      let whereClauses :=
        if (1 <? length whereClauses)%nat then tail whereClauses else whereClauses in
      let clauses :=
        Strings.Join ["(" +:+ Strings.Join orClauses " OR " +:+ ")";
                      Strings.Join whereClauses " AND "] " AND " in
      (selectStmt +:+ " WHERE " +:+ clauses, countStmt +:+ " WHERE " +:+ clauses)
    else (selectStmt, countStmt) in
  (* add or/and values together *)
  let whereValues := ors.2 ++ wheres.2 in
  (* sort and sort direction *)
  let sortBy := "created" in
  let direction := Strings.ToUpper (Direction query) in
  let direction :=
    if negb (util.StringIn direction ["DESC"; "ASC"]) then "" else direction in
  let sortBy :=
    if negb (String.eqb "" (SortBy query))
       && util.StringIn (Strings.ToLower (SortBy query)) validSorts
    then SortBy query else sortBy in
  let direction :=
    if String.eqb "created" (Strings.ToLower sortBy) && String.eqb "" direction
    then "DESC"
    else if String.eqb "" direction then "ASC" else direction in
  (* add sort *)
  let selectStmt := selectStmt +:+ " ORDER BY " +:+ sortBy +:+ " " +:+ direction in
  (* set limits *)
  let selectStmt :=
    if 0 <? Limit query
    then selectStmt +:+ " LIMIT " +:+ strconv.Itoa (Limit query) else selectStmt in
  let selectStmt :=
    if 0 <? Skip query
    then selectStmt +:+ " OFFSET " +:+ strconv.Itoa (Skip query) else selectStmt in
  (selectStmt, countStmt, whereValues).

End qlog.

(** * Inputs used in the examples *)

Module fixtures.

Definition question (name : string) (qtype : Z) : dns.Question :=
  {| dns.QName := name; dns.Qtype := qtype; dns.Qclass := dns.ClassINET |}.

(** A query for [name] with recursion desired. *)
Definition ask (id : Z) (name : string) (qtype : Z) : dns.Msg :=
  {| dns.Hdr_ :=
       {| dns.Id := id; dns.Response := false; dns.Opcode := dns.OpcodeQuery;
          dns.Authoritative := false; dns.Truncated := false;
          dns.RecursionDesired := true; dns.RecursionAvailable := false;
          dns.Zero := false; dns.AuthenticatedData := false;
          dns.CheckingDisabled := false; dns.Rcode := 0 |};
     dns.Questions := [question name qtype];
     dns.Answer := []; dns.Ns := []; dns.Extra := [] |}.

Definition recordA (name : string) (ttl : Z) (ip : list Z) : option dns.RR :=
  Some {| dns.Hdr := {| dns.Name := name; dns.Rrtype := dns.TypeA;
                        dns.Class := dns.ClassINET; dns.Ttl := ttl |};
          dns.Data := dns.A (Some ip) |}.

(** The answer [test. A 127.0.0.1] with the given ttl. *)
Definition answerA (id : Z) (ttl : Z) : dns.Msg :=
  dns.withAnswer (ask id "test." dns.TypeA) [recordA "test." ttl [127; 0; 0; 1]].

Definition seconds (n : Z) : Z := n * cache.Second.

(** The cache after [answerA 7 60] was stored at instant 0 for the
    resolver named default, the cache after a query 30 seconds later,
    and the message that query returned. *)
Definition stored : cache.gocache :=
  match cache.Store cache.New 0 "default" (ask 7 "test." dns.TypeA)
          (Some (answerA 7 60)) with
  | Ret (c, _) => c
  | Panic _ => cache.New
  end.

Definition queried : cache.gocache * option dns.Msg :=
  match cache.Query stored (seconds 30) "default" (ask 9 "test." dns.TypeA) with
  | Ret r => r
  | Panic _ => (stored, None)
  end.

Definition ttls (m : option dns.Msg) : list (option Z) :=
  match m with
  | Some msg => map (fun rr => dns.Ttl ∘ dns.Hdr <$> rr) (dns.Answer msg)
  | None => []
  end.


(** Lists and rule rows for the scenario in which an allow list holds
    good.example.com and a block list holds example.com. *)
Definition allowList : config.GudgeonList :=
  {| config.Name := "allowed"; config.Type_ := "allow";
     config.Tags := []; config.Source := "allowed.list" |}.

Definition blockList : config.GudgeonList :=
  {| config.Name := "ads"; config.Type_ := "block";
     config.Tags := []; config.Source := "ads.list" |}.

Definition rulesStore : rule.sqlStore :=
  {| rule.db :=
       Some {| rule.lists := [(1, "allowed"); (2, "ads")];
               rule.rules := [(Some 2, "example.com"); (Some 1, "good.example.com")] |} |}.


(** A peer that cannot be reached: dialling it fails after one
    second. *)
Definition unreachable : resolver.Network :=
  fun _ _ _ _ =>
    {| resolver.exchange := resolver.DialError "dial: i/o timeout";
       resolver.elapsed := seconds 1 |}.

Definition upstream : resolver.dnsSource :=
  {| resolver.dnsServer := "192.0.2.1"; resolver.port := 53;
     resolver.remoteAddress := "192.0.2.1:53"; resolver.protocol := "";
     resolver.backoffTime := None |}.

(** [ask] without the recursion-desired flag. *)
Definition askNoRecursion (id : Z) (name : string) (qtype : Z) : dns.Msg :=
  dns.withId (dns.withQuestions dns.newMsg [question name qtype]) id.


(** An engine with no configured consumer, no rule store, and the
    default consumer, which is not blocked. *)
Definition defaultConsumer : engine.consumer :=
  {| engine.configConsumer :=
       Some {| engine.Name := "default"; engine.Groups := ["default"];
               engine.Matches := []; engine.Block := false |};
     engine.groupNames := ["default"];
     engine.resolverNames := ["default"];
     engine.lists := [] |}.

Definition noNetwork (text : string) (ip : net.IP) : bool := false.

Definition localhost : net.IP := [127; 0; 0; 1].

(** Modelled from the spec: the resolver map is not among the sources.
    With one resolver that has one hostfile source, the first response
    that is not empty wins and, failing that, the last empty response
    is returned: either way, the response of the source. *)
Definition hostfileResolvers (source : resolver.hostFileSource)
    : engine.ResolverMap unit :=
  {| engine.AnswerMultiResolvers := fun s rCon resolverNames request =>
       '(_, (response, err)) ← resolver.hostFileAnswer source None request;
       Ret (s, (response, None, err)) |}.

(** The maps of a hostfile with the two lines
    [b.example a.example] and [a.example b.example]: each name is an
    alias of the other. *)
Definition loopHosts : resolver.hostFileSource :=
  {| resolver.filePath := "/etc/gudgeon/hosts";
     resolver.hostEntries := ∅;
     resolver.cnameEntries :=
       <["a.example." := "b.example."]> (<["b.example." := "a.example."]> ∅);
     resolver.reverseLookup := ∅ |}.

Definition loopEngine : engine.engine unit :=
  {| engine.consumers := [];
     engine.defaultConsumer := Some defaultConsumer;
     engine.store := None;
     engine.resolvers := hostfileResolvers loopHosts |}.

(** A resolver map with a bug: resolution panics. *)
Definition brokenResolvers : engine.ResolverMap unit :=
  {| engine.AnswerMultiResolvers := fun s rCon resolverNames request =>
       Panic "index out of range" |}.

Definition brokenEngine : engine.engine unit :=
  {| engine.consumers := [];
     engine.defaultConsumer := Some defaultConsumer;
     engine.store := None;
     engine.resolvers := brokenResolvers |}.


(** The two names of [loopHosts]. *)
Definition loopNames (name : string) : Prop :=
  name = "a.example." \/ name = "b.example.".


(** An entry of the metrics queue, and the metrics with a full queue:
    [queueSize] entries are buffered and no worker has taken one. *)
Definition info : metrics.metricsInfo :=
  {| metrics.address := "192.0.2.7";
     metrics.request := Some (ask 1 "example.com." dns.TypeA);
     metrics.response := None; metrics.result := None; metrics.rCon := None |}.

Definition fullMetrics : metrics.metrics :=
  metrics.withChan (metrics.New None 0)
    {| channel.buf := replicate (Z.to_nat metrics.queueSize) info;
       channel.sendq := [];
       channel.cap := metrics.queueSize |}.

(** Metrics with an empty table, whose interval began at 10 s. *)
Definition emptyTable : metrics.metrics := metrics.New (Some []) (seconds 10).


(** A peer that answers every request at once with the record
    [test. A 127.0.0.1], ttl 60. *)
Definition reachable : resolver.Network :=
  fun _ _ _ request =>
    {| resolver.exchange :=
         resolver.Reply (dns.withAnswer request [recordA "test." 60 [127; 0; 0; 1]]);
       resolver.elapsed := 0 |}.

(** The maps of a hostfile with the lines [192.0.2.10 nas.lan] and
    [nas.lan files.lan]: an address for nas.lan. and the alias
    files.lan. of it; files.lan. is given an address of its own as
    well. *)
Definition lanHosts : resolver.hostFileSource :=
  {| resolver.filePath := "/etc/gudgeon/lan";
     resolver.hostEntries :=
       <["nas.lan." := [Some (net.v4InV6Prefix ++ [192; 0; 2; 10])]]>
         (<["files.lan." := [Some (net.v4InV6Prefix ++ [192; 0; 2; 11])]]> ∅);
     resolver.cnameEntries := <["files.lan." := "nas.lan."]> ∅;
     resolver.reverseLookup := <["10.2.0.192.in-addr.arpa." := ["nas.lan"]]> ∅ |}.




(** An engine over the hostfile [lanHosts] with the default consumer
    alone and no rule store. *)
Definition lanEngine : engine.engine unit :=
  {| engine.consumers := [];
     engine.defaultConsumer := Some defaultConsumer;
     engine.store := None;
     engine.resolvers := hostfileResolvers lanHosts |}.

(** Two configured consumers: the address 192.0.2.7 is blocked, and
    the addresses from 192.0.2.100 to 192.0.2.200 are filtered by the
    block list and the allow list of [rulesStore]. *)
Definition kids : engine.consumer :=
  {| engine.configConsumer :=
       Some {| engine.Name := "kids"; engine.Groups := ["default"];
               engine.Matches :=
                 [{| engine.IP := "192.0.2.7"; engine.Range := None;
                     engine.Net := "" |}];
               engine.Block := true |};
     engine.groupNames := ["default"];
     engine.resolverNames := [];
     engine.lists := [] |}.

Definition filtered : engine.consumer :=
  {| engine.configConsumer :=
       Some {| engine.Name := "filtered"; engine.Groups := ["ads"];
               engine.Matches :=
                 [{| engine.IP := "";
                     engine.Range := Some {| engine.Start := "192.0.2.100";
                                             engine.End_ := "192.0.2.200" |};
                     engine.Net := "" |}];
               engine.Block := false |};
     engine.groupNames := ["ads"];
     engine.resolverNames := ["default"];
     engine.lists := [Some blockList; Some allowList] |}.

Definition guardedEngine : engine.engine unit :=
  {| engine.consumers := [kids; filtered];
     engine.defaultConsumer := Some defaultConsumer;
     engine.store := Some (rule.sqlRuleStore config.Name rulesStore);
     engine.resolvers := hostfileResolvers lanHosts |}.


(** The reply of a hostfile to a request with the given records. *)
Definition replyTo (request : dns.Msg) (answers : list (option dns.RR)) : dns.Msg :=
  let h := dns.Hdr_ request in
  dns.withAnswer
    (dns.withHdr request
       {| dns.Id := dns.Id h; dns.Response := true; dns.Opcode := dns.Opcode h;
          dns.Authoritative := dns.Authoritative h; dns.Truncated := false;
          dns.RecursionDesired := dns.RecursionDesired h;
          dns.RecursionAvailable := false; dns.Zero := false;
          dns.AuthenticatedData := dns.AuthenticatedData h;
          dns.CheckingDisabled := dns.CheckingDisabled h;
          dns.Rcode := dns.RcodeSuccess |})
    answers.


(** An entry of a query that a rule blocked, and readings of an
    update. *)
Definition blockedInfo : metrics.metricsInfo :=
  {| metrics.address := "192.0.2.150";
     metrics.request := Some (ask 2 "ads.example.com." dns.TypeA);
     metrics.response := None;
     metrics.result :=
       Some (engine.withMatch (engine.withConsumer engine.zeroResult "filtered")
               rule.MatchBlock (Some blockList) "example.com");
     metrics.rCon := None |}.

Definition readings : metrics.Readings :=
  {| metrics.process :=
       Some {| metrics.cpuPercent := Some 17; metrics.memoryRSS := Some 20971520;
               metrics.numThreads := None; metrics.virtualMemory := None |};
     metrics.numGoroutine := 12;
     metrics.memAlloc := 4194304;
     metrics.cacheSize := Some 3 |}.

End fixtures.

(** * Vocabulary of the statements *)

Module spec.

Section Rules.

Variable ShortName : config.GudgeonList -> string.

(** The store holds rule [r] for list [l]: table [rules] has a row
    with that rule whose list row is the one of the short name of
    [l]. *)
Definition holds (store : rule.sqlStore) (l : config.GudgeonList) (r : string)
    : Prop :=
  exists d id, rule.db store = Some d
               /\ (id, ShortName l) ∈ rule.lists d
               /\ (Some id, r) ∈ rule.rules d.

(** List [l] matches some suffix of the domain: it holds a rule (a
    non-empty text) that is one of the suffixes of the domain. *)
Definition matchesSuffix (store : rule.sqlStore) (l : config.GudgeonList)
    (domain : string) : Prop :=
  exists r, r <> "" /\ r ∈ util.DomainList domain /\ holds store l r.

(** Some list of type [t] among [lists] matches some suffix of the
    domain. *)
Definition someListMatches (store : rule.sqlStore)
    (lists : list (option config.GudgeonList)) (t : rule.ListType)
    (domain : string) : Prop :=
  exists l, Some l ∈ lists
            /\ rule.ParseType (config.Type_ l) = t
            /\ matchesSuffix store l domain.

End Rules.

(** The text before the first occurrence of a character (all of it
    when the character does not occur). *)
Fixpoint beforeFirst (sep : ascii) (s : string) : string :=
  match s with
  | EmptyString => EmptyString
  | String c s' => if Ascii.eqb c sep then EmptyString else String c (beforeFirst sep s')
  end.

(** The host portion of a source specification: what precedes the
    first colon, once an attached protocol has been taken off. *)
Definition hostPortion (sourceAddress : string) : string :=
  beforeFirst ":" (resolver.splitProtocol sourceAddress).1.

Section Chase.

Context {RS : Type}.

(** The names of [P] pass validation and the rule match, for consumer
    [c]: their length is within 1..255 and no rule blocks them. *)
Definition passes (e : engine.engine RS) (c : engine.consumer)
    (P : string -> Prop) : Prop :=
  forall name, P name ->
    (1 <= String.length name <= 255)%nat
    /\ exists m list ruleText,
         engine.domainRuleMatchedForConsumer e c name = Ret (m, list, ruleText)
         /\ m <> rule.MatchBlock.

(** The resolvers answer a question of type [qtype] for a name of [P]
    with a CNAME record as first answer whose target is again a name
    of [P]. *)
Definition aliasesWithin (e : engine.engine RS) (c : engine.consumer)
    (protocol : string) (qtype : Z) (P : string -> Prop) : Prop :=
  forall s req q qs,
    dns.Questions req = q :: qs -> P (dns.QName q) -> dns.Qtype q = qtype ->
    exists s' response rr rest result target,
      engine.AnswerMultiResolvers (engine.resolvers e) s
        {| resolver.Protocol := protocol |} (engine.getResolvers c) req
      = Ret (s', (Some response, result, None))
      /\ dns.Answer response = Some rr :: rest
      /\ dns.Rrtype (dns.Hdr rr) = dns.TypeCNAME
      /\ dns.Data rr = dns.CNAME target
      /\ P target.

End Chase.

(** What happens on the channel of the metrics: a request pipeline calls
    [RecordQueryMetrics], or the worker takes its turn on the channel. *)
Inductive Op : Type :=
| Enqueue (info : metrics.metricsInfo)
| Receive.

(** The metrics after an operation, with the entries that the worker
    has received so far.  A worker that finds the channel empty waits:
    nothing changes. *)
Definition step (st : metrics.metrics * list metrics.metricsInfo) (op : Op)
    : metrics.metrics * list metrics.metricsInfo :=
  let '(m, received) := st in
  match op with
  | Enqueue info =>
      ((metrics.RecordQueryMetrics m (Some (metrics.address info))
          (metrics.request info) (metrics.response info)
          (metrics.rCon info) (metrics.result info)).1, received)
  | Receive =>
      match channel.recv (metrics.metricsInfoChan m), metrics.workerReceive m with
      | Some (info, _), Some m' => (m', received ++ [info])
      | _, _ => (m, received)
      end
  end.

Definition runOps (m : metrics.metrics) (ops : list Op)
    : metrics.metrics * list metrics.metricsInfo :=
  fold_left step ops (m, []).

(** The entries that the operations enqueue, in order. *)
Definition enqueued (ops : list Op) : list metrics.metricsInfo :=
  flat_map (fun op => match op with Enqueue info => [info] | Receive => [] end) ops.

(** The state of the queue that the operations keep: the capacity is
    the one it was made with, the buffer is within it, senders wait
    only at a full buffer, and the entries received, buffered and
    waiting are, in this order, the entries sent. *)
Definition queueInvariant (st : metrics.metrics * list metrics.metricsInfo)
    (sent : list metrics.metricsInfo) : Prop :=
  let c := metrics.metricsInfoChan st.1 in
  channel.cap c = metrics.queueSize
  /\ Z.of_nat (length (channel.buf c)) <= metrics.queueSize
  /\ (channel.sendq c <> [] -> Z.of_nat (length (channel.buf c)) = metrics.queueSize)
  /\ st.2 ++ channel.buf c ++ channel.sendq c = sent.

(** A series of calls of [Answer] on one source: each call has its
    instant, its request context, its resolution context and its
    request; the source and the trace are handed from call to call. *)
Definition AnswerCall : Type :=
  Z * option resolver.RequestContext * option resolver.ResolutionContext
  * option dns.Msg.

Definition answerAll (network : resolver.Network)
    (st : resolver.dnsSource * list resolver.Contact) (calls : list AnswerCall)
    : resolver.dnsSource * list resolver.Contact :=
  fold_left (fun st call =>
    let '(now, rCon, context, request) := call in
    (resolver.Answer network st.1 st.2 now rCon context request).1.1)
    calls st.

(** The request asks for recursion. *)
Definition wantsRecursion (request : option dns.Msg) : bool :=
  match request with
  | Some req => dns.RecursionDesired (dns.Hdr_ req)
  | None => false
  end.

(** Message [r] is a reply of the hostfile to [request], whose first
    question is [q]: it carries the id of the request, is marked as a
    successful response, repeats the question alone, has no authority
    and no additional record, and each record of its answer that is
    set is of class INET, for the name of the question, with ttl 0. *)
Definition hostReply (request : dns.Msg) (q : dns.Question) (r : dns.Msg) : Prop :=
  dns.Id (dns.Hdr_ r) = dns.Id (dns.Hdr_ request)
  /\ dns.Response (dns.Hdr_ r) = true
  /\ dns.Rcode (dns.Hdr_ r) = dns.RcodeSuccess
  /\ dns.Questions r = [q]
  /\ dns.Ns r = [] /\ dns.Extra r = []
  /\ Forall (fun rr : option dns.RR =>
               match rr with
               | Some rr => dns.Hdr rr
                            = {| dns.Name := dns.QName q;
                                 dns.Rrtype := dns.Rrtype (dns.Hdr rr);
                                 dns.Class := dns.ClassINET; dns.Ttl := 0 |}
               | None => True
               end) (dns.Answer r).

(** The question types the hostfile answers. *)
Definition hostfileTypes : list Z :=
  [dns.TypeANY; dns.TypeA; dns.TypeAAAA; dns.TypePTR; dns.TypeCNAME].


(** The configuration of consumer [c] selects the client address: one
    of its matches names the address, a range that holds it or a
    network that holds it. *)
Definition selects (ParseIP : string -> option net.IP)
    (cidrContains : string -> net.IP -> bool) (c : engine.consumer)
    (consumerIp : net.IP) : Prop :=
  exists cc m, engine.configConsumer c = Some cc
               /\ m ∈ engine.Matches cc
               /\ engine.matches ParseIP cidrContains m consumerIp = true.

(** The reply to [request] that carries nothing but a response code:
    a fresh message set as reply to the request. *)
Definition bareReply (request : dns.Msg) (rcode : Z) (response : dns.Msg) : Prop :=
  dns.Id (dns.Hdr_ response) = dns.Id (dns.Hdr_ request)
  /\ dns.Response (dns.Hdr_ response) = true
  /\ dns.Rcode (dns.Hdr_ response) = rcode
  /\ dns.Questions response = take 1 (dns.Questions request)
  /\ dns.Answer response = [] /\ dns.Ns response = [] /\ dns.Extra response = [].


(** The count of a metric among the values of a row or of the running
    metrics; a metric that is not there is read as 0, as [Get] does. *)
Definition counter (values : gmap string Z) (name : string) : Z :=
  default 0 (values !! (metrics.MetricsPrefix +:+ name)).

(** What the worker of the metrics meets: the ticker fires at an
    instant, with the readings its update takes, or an entry arrives
    on the channel and is recorded (the channel itself is followed by
    [step] above; the counters do not depend on it). *)
Inductive WorkerEvent : Type :=
| Tick (readings : metrics.Readings) (now : Z)
| Arrival (info : metrics.metricsInfo).

Definition workerStep (m : metrics.metrics) (event : WorkerEvent) : metrics.metrics :=
  match event with
  | Tick readings now => metrics.workerTick m readings now
  | Arrival info => metrics.record m info
  end.

Definition work (m : metrics.metrics) (events : list WorkerEvent) : metrics.metrics :=
  fold_left workerStep events m.

(** The ledger of a run of the worker: the instant at which the
    current window began, the entries that arrived in it, and the
    windows closed so far, each with its two instants and the entries
    that arrived in it. *)
Definition Ledger : Type :=
  Z * list metrics.metricsInfo * list (Z * Z * list metrics.metricsInfo).

Definition ledgerStep (l : Ledger) (event : WorkerEvent) : Ledger :=
  let '(from, current, closed) := l in
  match event with
  | Tick _ now => (now, [], closed ++ [(from, now, current)])
  | Arrival info => (from, current ++ [info], closed)
  end.

Definition ledger (now : Z) (events : list WorkerEvent) : Ledger :=
  fold_left ledgerStep events (now, [], []).

(** The entries that arrived, in order. *)
Definition arrivals (events : list WorkerEvent) : list metrics.metricsInfo :=
  flat_map (fun event => match event with Arrival info => [info] | Tick _ _ => [] end)
    events.

(** The entry is one of a blocked query: its result says that the
    consumer is blocked or that a rule blocked the name. *)
Definition blockedQuery (info : metrics.metricsInfo) : bool :=
  match metrics.result info with
  | Some r => resolver.Blocked r || bool_decide (resolver.Match r = rule.MatchBlock)
  | None => false
  end.

(** The entry is one of a query answered from the cache. *)
Definition cachedQuery (info : metrics.metricsInfo) : bool :=
  match metrics.result info with
  | Some r => resolver.Cached r
  | None => false
  end.

Definition howMany (P : metrics.metricsInfo -> bool) (infos : list metrics.metricsInfo)
    : Z :=
  Z.of_nat (length (List.filter P infos)).


(** The spans follow one another from one instant to another: the
    first begins at the former, each begins where the one before it
    ends, and the last ends at the latter. *)
Fixpoint tiles (from : Z) (spans : list (Z * Z)) (to : Z) : Prop :=
  match spans with
  | [] => from = to
  | span :: rest => span.1 = from /\ tiles span.2 rest to
  end.


(** The number of placeholders (question marks) of a statement. *)
Fixpoint placeholders (s : string) : nat :=
  match s with
  | EmptyString => 0
  | String c s' => (if Ascii.eqb c "?" then 1 else 0) + placeholders s'
  end.

(** The paging that ends the selecting statement. *)
Definition paging (query : qlog.QueryLogQuery) : string :=
  (if 0 <? qlog.Limit query
   then " LIMIT " +:+ strconv.Itoa (qlog.Limit query) else "")
  +:+ (if 0 <? qlog.Skip query
       then " OFFSET " +:+ strconv.Itoa (qlog.Skip query) else "").


End spec.

(** * Runs used in the examples *)

Module runs.

(** A run of the worker: two entries arrive, one of them blocked, the
    ticker fires at 20 s, and one more entry arrives. *)
Definition workerRun : list spec.WorkerEvent :=
  [spec.Arrival fixtures.info; spec.Arrival fixtures.blockedInfo;
   spec.Tick fixtures.readings (fixtures.seconds 20);
   spec.Arrival fixtures.info].

End runs.



(** * Properties *)

(** ** Messages *)

Lemma copyRRs_Ret (rrs rrs' : list (option dns.RR)) :
  dns.copyRRs rrs = Ret rrs' -> rrs' = rrs.
Proof.
  revert rrs'; induction rrs as [|[rr|] rest IH]; intros rrs' H; simpl in H.
  - congruence.
  - destruct (dns.copyRRs rest) as [rest'|v] eqn:E; simpl in H; [|discriminate].
    injection H as <-. f_equal. now apply IH.
  - discriminate.
Qed.

Lemma Copy_Ret (m m' : dns.Msg) : dns.Copy m = Ret m' -> m' = m.
Proof.
  unfold dns.Copy. intros H.
  destruct (dns.copyRRs (dns.Answer m)) as [a|] eqn:Ea; simpl in H; [|discriminate].
  destruct (dns.copyRRs (dns.Ns m)) as [n|] eqn:En; simpl in H; [|discriminate].
  destruct (dns.copyRRs (dns.Extra m)) as [x|] eqn:Ex; simpl in H; [|discriminate].
  apply copyRRs_Ret in Ea, En, Ex. subst.
  injection H as <-. now destruct m.
Qed.

(** ** The cache *)

Section CacheProperties.

Implicit Types (c : cache.gocache) (partition : string).

Lemma assignPartition_backer c partition :
  cache.backer (cache.assignPartition c partition) = cache.backer c.
Proof.
  unfold cache.assignPartition.
  now destruct (cache.partitionIdxMap c !! partition).
Qed.

(** Once a partition has its index it keeps it. *)
Lemma assignPartition_again c partition :
  cache.assignPartition (cache.assignPartition c partition) partition
  = cache.assignPartition c partition.
Proof.
  unfold cache.assignPartition.
  destruct (cache.partitionIdxMap c !! partition) eqn:E; cbn.
  - now rewrite E.
  - now rewrite lookup_insert_eq.
Qed.

Lemma key_backer c partition questions :
  cache.backer (cache.key c partition questions).1 = cache.backer c.
Proof. apply assignPartition_backer. Qed.

(** A second [key] on the same partition leaves the cache as it is
    and, on the same questions, gives the same key. *)
Lemma key_again c partition questions questions' :
  (cache.key (cache.key c partition questions).1 partition questions').1
  = (cache.key c partition questions).1.
Proof. apply assignPartition_again. Qed.

Lemma key_same c partition questions :
  (cache.key (cache.key c partition questions).1 partition questions).2
  = (cache.key c partition questions).2.
Proof.
  unfold cache.key. cbn [fst snd]. now rewrite assignPartition_again.
Qed.

Lemma key_after_store c partition questions items :
  let c1 := (cache.key c partition questions).1 in
  let stored :=
    {| cache.backer := items;
       cache.partitionIdx := cache.partitionIdx c1;
       cache.partitionIdxMap := cache.partitionIdxMap c1 |} in
  cache.key stored partition questions
  = (stored, (cache.key c partition questions).2).
Proof.
  unfold cache.key, cache.assignPartition. cbn.
  destruct (cache.partitionIdxMap c !! partition) eqn:E; cbn.
  - rewrite !E. cbn. now rewrite ?E.
  - rewrite !lookup_insert_eq. cbn. now rewrite ?lookup_insert_eq.
Qed.

(** C4.  A response that is empty, or truncated, or whose envelope ttl
    (the lowest ttl of the answer records, else of the ns records,
    else of the extra records, capped at 604800) is 0 is not stored:
    [Store] returns false and the entries of the cache are the ones
    it had. *)
Theorem Store_rejects c now partition request response :
  (util.IsEmptyResponse response = true
   \/ exists resp, response = Some resp
        /\ (dns.Truncated (dns.Hdr_ resp) = true
            \/ cache.envelopeTtl resp = Ret 0)) ->
  exists c', cache.Store c now partition request response = Ret (c', false)
             /\ cache.backer c' = cache.backer c.
Proof.
  intros H. unfold cache.Store.
  destruct (util.IsEmptyResponse response) eqn:Eempty.
  { now exists c. }
  destruct H as [H | (resp & -> & H)]; [discriminate|].
  destruct (dns.Truncated (dns.Hdr_ resp)) eqn:Etc.
  { now exists c. }
  destruct H as [H | H]; [discriminate|].
  destruct (cache.key c partition (dns.Questions request)) as [c1 k] eqn:Ek.
  assert (Hb : cache.backer c1 = cache.backer c).
  { change c1 with (c1, k).1. rewrite <- Ek. apply key_backer. }
  destruct (String.eqb "" k).
  { now exists c1. }
  rewrite H. cbn. now exists c1.
Qed.

(** C2.  What [Query] returns for a response that [Store] accepted:
    the records of the three sections exactly as they were stored,
    ttl included, however long ago that was, under the id of the
    request.  (The ttl loop runs on the stored envelope, after the
    copy that is returned has been made.) *)
Theorem Query_returns_records_as_stored
    c t0 partition request response c1 t1 q c2 m :
  cache.Store c t0 partition request (Some response) = Ret (c1, true) ->
  dns.Questions q = dns.Questions request ->
  cache.Query c1 t1 partition q = Ret (c2, Some m) ->
  dns.Answer m = dns.Answer response
  /\ dns.Ns m = dns.Ns response
  /\ dns.Extra m = dns.Extra response
  /\ dns.Id (dns.Hdr_ m) = dns.Id (dns.Hdr_ q).
Proof.
  intros Hstore Hq Hquery. unfold cache.Store in Hstore.
  destruct (util.IsEmptyResponse (Some response)); [discriminate|].
  destruct (dns.Truncated (dns.Hdr_ response)); [discriminate|].
  pose proof (key_after_store c partition (dns.Questions request)) as Hkey.
  destruct (cache.key c partition (dns.Questions request)) as [c0 k] eqn:Ek.
  cbn [fst snd] in Hkey.
  destruct (String.eqb "" k) eqn:Ekn; [discriminate|].
  destruct (cache.envelopeTtl response) as [ttl|]; [|discriminate].
  cbn in Hstore. destruct (0 <? ttl); [|discriminate].
  destruct (dns.Copy response) as [copy|] eqn:Ecopy; [|discriminate].
  apply Copy_Ret in Ecopy. subst copy. cbn in Hstore.
  injection Hstore as <-.
  unfold cache.Query in Hquery. rewrite Hq, Hkey, Ekn in Hquery.
  unfold cache.Get, cache.Set_ in Hquery. cbn in Hquery.
  rewrite lookup_insert_eq in Hquery. cbn in Hquery.
  destruct ((0 <? t0 + ttl * cache.Second) && (t0 + ttl * cache.Second <? t1));
    [discriminate|].
  simpl in Hquery.
  destruct (dns.Copy response) as [copy|] eqn:Ecopy; simpl in Hquery; [|discriminate].
  apply Copy_Ret in Ecopy. subst copy.
  destruct (cache.adjustTtls _ (dns.Answer response)); simpl in Hquery; [|discriminate].
  destruct (cache.adjustTtls _ (dns.Ns response)); simpl in Hquery; [|discriminate].
  destruct (cache.adjustTtls _ (dns.Extra response)); simpl in Hquery; [|discriminate].
  injection Hquery as _ <-. now cbn.
Qed.

End CacheProperties.

Lemma Store_rejects_witness :
  (util.IsEmptyResponse (Some (fixtures.answerA 7 0)) = true
   \/ exists resp, Some (fixtures.answerA 7 0) = Some resp
        /\ (dns.Truncated (dns.Hdr_ resp) = true \/ cache.envelopeTtl resp = Ret 0))
  /\ exists c', cache.Store cache.New 0 "default" (fixtures.ask 7 "test." dns.TypeA)
                  (Some (fixtures.answerA 7 0)) = Ret (c', false)
                /\ cache.backer c' = cache.backer cache.New.
Proof.
  assert (H : util.IsEmptyResponse (Some (fixtures.answerA 7 0)) = true
              \/ exists resp, Some (fixtures.answerA 7 0) = Some resp
                   /\ (dns.Truncated (dns.Hdr_ resp) = true
                       \/ cache.envelopeTtl resp = Ret 0)).
  { right. exists (fixtures.answerA 7 0). split; [reflexivity|]. right. reflexivity. }
  exact (conj H (Store_rejects cache.New 0 "default" _ _ H)).
Defined.

(** A non-empty response with ttl 0 is the case that only the ttl rule
    rejects. *)
Example answer_with_ttl_0_is_not_empty :
  util.IsEmptyResponse (Some (fixtures.answerA 7 0)) = false
  /\ dns.Truncated (dns.Hdr_ (fixtures.answerA 7 0)) = false.
Proof. split; reflexivity. Qed.

Lemma Query_returns_records_as_stored_witness :
  cache.Store cache.New 0 "default" (fixtures.ask 7 "test." dns.TypeA)
    (Some (fixtures.answerA 7 60)) = Ret (fixtures.stored, true)
  /\ dns.Questions (fixtures.ask 9 "test." dns.TypeA)
     = dns.Questions (fixtures.ask 7 "test." dns.TypeA)
  /\ cache.Query fixtures.stored (fixtures.seconds 30) "default"
       (fixtures.ask 9 "test." dns.TypeA)
     = Ret (fixtures.queried.1, Some (dns.withId (fixtures.answerA 7 60) 9))
  /\ (dns.Answer (dns.withId (fixtures.answerA 7 60) 9)
      = dns.Answer (fixtures.answerA 7 60)
      /\ dns.Ns (dns.withId (fixtures.answerA 7 60) 9) = dns.Ns (fixtures.answerA 7 60)
      /\ dns.Extra (dns.withId (fixtures.answerA 7 60) 9)
         = dns.Extra (fixtures.answerA 7 60)
      /\ dns.Id (dns.Hdr_ (dns.withId (fixtures.answerA 7 60) 9))
         = dns.Id (dns.Hdr_ (fixtures.ask 9 "test." dns.TypeA))).
Proof.
  assert (H1 : cache.Store cache.New 0 "default" (fixtures.ask 7 "test." dns.TypeA)
                 (Some (fixtures.answerA 7 60)) = Ret (fixtures.stored, true))
    by (vm_compute; reflexivity).
  assert (H2 : dns.Questions (fixtures.ask 9 "test." dns.TypeA)
               = dns.Questions (fixtures.ask 7 "test." dns.TypeA)) by reflexivity.
  assert (H3 : cache.Query fixtures.stored (fixtures.seconds 30) "default"
                 (fixtures.ask 9 "test." dns.TypeA)
               = Ret (fixtures.queried.1, Some (dns.withId (fixtures.answerA 7 60) 9)))
    by (vm_compute; reflexivity).
  exact (conj H1 (conj H2 (conj H3
           (Query_returns_records_as_stored _ _ _ _ _ _ _ _ _ _ H1 H2 H3)))).
Defined.

(** The stored record has ttl 60.  A query 30 seconds after the store
    returns ttl 60 (30 seconds remain); a second query at the same
    instant returns 30, and a third, 40 seconds after the store,
    returns 0 (20 seconds remain): the elapsed time is taken off the
    stored records at every query and shows one query late. *)
Example Query_ttls_at_30s_30s_40s :
  let q := fixtures.ask 9 "test." dns.TypeA in
  (r1 ← cache.Query fixtures.stored (fixtures.seconds 30) "default" q;
   r2 ← cache.Query r1.1 (fixtures.seconds 30) "default" q;
   r3 ← cache.Query r2.1 (fixtures.seconds 40) "default" q;
   Ret (fixtures.ttls r1.2, fixtures.ttls r2.2, fixtures.ttls r3.2))
  = Ret ([Some 60], [Some 30], [Some 0]).
Proof. vm_compute. reflexivity. Qed.

(** ** The rule store *)

Lemma StringIn_elem_of (value : string) (l : list string) :
  util.StringIn value l = true <-> value ∈ l.
Proof.
  unfold util.StringIn. rewrite existsb_exists. split.
  - intros (x & Hin & Heq). apply String.eqb_eq in Heq. subst.
    now apply list_elem_of_In.
  - intros Hin. exists value. split; [now apply list_elem_of_In|].
    apply String.eqb_refl.
Qed.

Section RuleStoreProperties.

Variable ShortName : config.GudgeonList -> string.

Lemma selectRules_elem_of d shortNames domains name r :
  (name, r) ∈ rule.selectRules d shortNames domains
  <-> exists id, (id, name) ∈ rule.lists d /\ (Some id, r) ∈ rule.rules d
                 /\ name ∈ shortNames /\ r ∈ domains.
Proof.
  unfold rule.selectRules. rewrite list_elem_of_In, in_flat_map. split.
  - intros ([rid rr] & Hr & Hin). apply in_flat_map in Hin.
    destruct Hin as ([lid ln] & Hl & Hin). cbn in Hin.
    destruct (bool_decide (rid = Some lid)) eqn:E1; [|destruct Hin].
    destruct (util.StringIn ln shortNames) eqn:E2; [|destruct Hin].
    destruct (util.StringIn rr domains) eqn:E3; [|destruct Hin].
    cbn in Hin. destruct Hin as [Hin|[]]. injection Hin as -> ->.
    apply bool_decide_eq_true in E1. subst rid.
    apply StringIn_elem_of in E2, E3. apply list_elem_of_In in Hr, Hl.
    now exists lid.
  - intros (id & Hl & Hr & Hn & Hd).
    exists (Some id, r). split; [now apply list_elem_of_In|].
    apply in_flat_map. exists (id, name). split; [now apply list_elem_of_In|].
    cbn. rewrite bool_decide_eq_true_2 by reflexivity.
    apply StringIn_elem_of in Hn, Hd. rewrite Hn, Hd. now left.
Qed.

Lemma scanRows_found rows :
  (rule.scanRows rows).1.1 = true
  <-> exists name r, (name, r) ∈ rows /\ r <> "".
Proof.
  induction rows as [|[name r] rest IH]; cbn [rule.scanRows].
  - split; [discriminate|]. intros (? & ? & H & _). inversion H.
  - destruct (String.eqb_spec "" r) as [<-|Hne]; cbn [negb].
    + rewrite IH. split.
      * intros (n & r & Hin & Hr). exists n, r. split; [now right|easy].
      * intros (n & r & Hin & Hr). exists n, r. split; [|easy].
        apply elem_of_cons in Hin as [Heq|Hin]; [|easy]. now injection Heq as -> ->.
    + split; [|reflexivity]. intros _. exists name, r. split; [left|congruence].
Qed.

Lemma foundInLists_true d (ls : list config.GudgeonList) domains :
  (rule.foundInLists ShortName d ls domains).1.1 = true
  <-> exists l r, l ∈ ls /\ r <> "" /\ r ∈ domains
        /\ exists id, (id, ShortName l) ∈ rule.lists d /\ (Some id, r) ∈ rule.rules d.
Proof.
  unfold rule.foundInLists.
  destruct ls as [|l0 ls']; [|destruct domains as [|d0 domains']].
  - cbn. split; [discriminate|]. intros (l & ? & H & _). inversion H.
  - cbn. split; [discriminate|]. intros (l & r & _ & _ & H & _). inversion H.
  - cbn [length Nat.ltb Nat.leb orb]. rewrite scanRows_found. split.
    + intros (name & r & Hin & Hr). apply selectRules_elem_of in Hin.
      destruct Hin as (id & Hl & Hrule & Hn & Hd).
      apply list_elem_of_fmap in Hn as (l & -> & Hl').
      exists l, r. repeat split; try assumption. now exists id.
    + intros (l & r & Hl & Hr & Hd & id & Hlist & Hrule).
      exists (ShortName l), r. split; [|easy].
      apply selectRules_elem_of. exists id. repeat split; try easy.
      apply list_elem_of_fmap. now exists l.
Qed.

Lemma split_lists lists listmap allow block :
  let '(_, allow', block') := rule.split ShortName lists listmap allow block in
  (forall l, l ∈ allow'
     <-> l ∈ allow \/ (Some l ∈ lists /\ rule.ParseType (config.Type_ l) = rule.ALLOW))
  /\ (forall l, l ∈ block'
     <-> l ∈ block \/ (Some l ∈ lists /\ rule.ParseType (config.Type_ l) = rule.BLOCK)).
Proof.
  revert listmap allow block.
  induction lists as [|[l0|] rest IH]; intros listmap allow block; cbn.
  - split; intros l; split; [now left| |now left|];
      (intros [H|[H _]]; [easy|inversion H]).
  - case_bool_decide as Ht.
    + specialize (IH (<[ShortName l0:=l0]> listmap) (allow ++ [l0]) block).
      destruct (rule.split _ _ _ _ _) as [[lm a] b]. destruct IH as [IHa IHb].
      split; intros l; [rewrite IHa|rewrite IHb];
        rewrite ?elem_of_app, ?list_elem_of_singleton, !elem_of_cons.
      * split; [intros [[H| ->]|[H1 H2]]|intros [H|[[H|H] H2]]]; eauto.
        injection H as ->. eauto.
      * split; [intros [H|[H1 H2]]|intros [H|[[H|H] H2]]]; eauto.
        injection H as ->. congruence.
    + specialize (IH (<[ShortName l0:=l0]> listmap) allow (block ++ [l0])).
      destruct (rule.split _ _ _ _ _) as [[lm a] b]. destruct IH as [IHa IHb].
      assert (Hb : rule.ParseType (config.Type_ l0) = rule.BLOCK)
        by (destruct (rule.ParseType (config.Type_ l0)); congruence).
      split; intros l; [rewrite IHa|rewrite IHb];
        rewrite ?elem_of_app, ?list_elem_of_singleton, !elem_of_cons.
      * split; [intros [H|[H1 H2]]|intros [H|[[H|H] H2]]]; eauto.
        injection H as ->. congruence.
      * split; [intros [[H| ->]|[H1 H2]]|intros [H|[[H|H] H2]]]; eauto.
        injection H as ->. eauto.
  - specialize (IH listmap allow block).
    destruct (rule.split _ _ _ _ _) as [[lm a] b]. destruct IH as [IHa IHb].
    split; intros l; [rewrite IHa|rewrite IHb]; rewrite !elem_of_cons;
      (split; [intros [H|[H1 H2]]|intros [H|[[H|H] H2]]]; eauto; discriminate).
Qed.

Lemma foundInLists_someListMatches d lists t (ls : list config.GudgeonList) domain :
  (forall l, l ∈ ls <-> Some l ∈ lists /\ rule.ParseType (config.Type_ l) = t) ->
  (rule.foundInLists ShortName d ls (util.DomainList domain)).1.1 = true
  <-> spec.someListMatches ShortName {| rule.db := Some d |} lists t domain.
Proof.
  intros Hls. rewrite foundInLists_true.
  unfold spec.someListMatches, spec.matchesSuffix, spec.holds. split.
  - intros (l & r & Hl & Hr & Hd & id & Hlist & Hrule).
    apply Hls in Hl as [Hl Ht]. exists l. repeat split; try assumption.
    exists r. repeat split; try assumption. now exists d, id.
  - intros (l & Hl & Ht & r & Hr & Hd & d' & id & Hdb & Hlist & Hrule).
    cbn in Hdb. injection Hdb as <-.
    exists l, r. repeat split; try assumption; [apply Hls; now split|now exists id].
Qed.

Lemma foundInLists_false d (ls : list config.GudgeonList) domains :
  (rule.foundInLists ShortName d ls domains).1.1 = false ->
  rule.foundInLists ShortName d ls domains = (false, "", "").
Proof.
  unfold rule.foundInLists.
  destruct ((length ls <? 1)%nat || (length domains <? 1)%nat); [reflexivity|].
  induction (rule.selectRules d (map ShortName ls) domains)
    as [|[name r] rest IH]; cbn [rule.scanRows]; [reflexivity|].
  destruct (negb (String.eqb "" r)); [discriminate|exact IH].
Qed.

(** C3.  The verdict of [FindMatch] on a set of lists and a domain:
    allow exactly when some allow list matches some suffix of the
    domain; block exactly when no allow list does and some block list
    does; none exactly when no list does.  So a match of an allow
    list takes precedence over any match of a block list. *)
Theorem FindMatch_allow_before_block store lists domain :
  let verdict := (rule.FindMatch ShortName store lists domain).1.1 in
  let allow := spec.someListMatches ShortName store lists rule.ALLOW domain in
  let block := spec.someListMatches ShortName store lists rule.BLOCK domain in
  (verdict = rule.MatchAllow <-> allow)
  /\ (verdict = rule.MatchBlock <-> ~ allow /\ block)
  /\ (verdict = rule.MatchNone <-> ~ allow /\ ~ block).
Proof.
  destruct store as [[d|]]; cbn zeta; unfold rule.FindMatch; cbn [rule.db].
  - pose proof (split_lists lists ∅ [] []) as Hsplit.
    destruct (rule.split ShortName lists ∅ [] []) as [[listmap allowLists] blockLists].
    destruct Hsplit as [Ha Hb].
    assert (Ha' : forall l, l ∈ allowLists
              <-> Some l ∈ lists /\ rule.ParseType (config.Type_ l) = rule.ALLOW).
    { intros l. rewrite Ha. split; [intros [H|H]; [inversion H|exact H]|now right]. }
    assert (Hb' : forall l, l ∈ blockLists
              <-> Some l ∈ lists /\ rule.ParseType (config.Type_ l) = rule.BLOCK).
    { intros l. rewrite Hb. split; [intros [H|H]; [inversion H|exact H]|now right]. }
    pose proof (foundInLists_someListMatches d lists _ _ domain Ha') as HA.
    pose proof (foundInLists_someListMatches d lists _ _ domain Hb') as HB.
    destruct (rule.foundInLists ShortName d allowLists (util.DomainList domain))
      as [[foundA nameA] ruleA].
    destruct (rule.foundInLists ShortName d blockLists (util.DomainList domain))
      as [[foundB nameB] ruleB].
    cbn [fst snd] in HA, HB.
    destruct foundA; [|destruct foundB]; cbn [fst snd].
    + assert (A : spec.someListMatches ShortName {| rule.db := Some d |}
                    lists rule.ALLOW domain) by now apply HA.
      intuition congruence.
    + assert (A : ~ spec.someListMatches ShortName {| rule.db := Some d |}
                    lists rule.ALLOW domain)
        by (intros H; apply HA in H; discriminate).
      assert (B : spec.someListMatches ShortName {| rule.db := Some d |}
                    lists rule.BLOCK domain) by now apply HB.
      intuition congruence.
    + assert (A : ~ spec.someListMatches ShortName {| rule.db := Some d |}
                    lists rule.ALLOW domain)
        by (intros H; apply HA in H; discriminate).
      assert (B : ~ spec.someListMatches ShortName {| rule.db := Some d |}
                    lists rule.BLOCK domain)
        by (intros H; apply HB in H; discriminate).
      intuition congruence.
  - assert (N : forall t, ~ spec.someListMatches ShortName {| rule.db := None |}
                    lists t domain).
    { intros t (l & _ & _ & r & _ & _ & d & id & Hdb & _). discriminate. }
    pose proof (N rule.ALLOW). pose proof (N rule.BLOCK).
    cbn [fst snd]. intuition congruence.
Qed.

End RuleStoreProperties.

(** Allow overrides block: good.example.com is held by the allow list
    and its suffix example.com by the block list; other names under
    example.com are blocked, names elsewhere match nothing. *)
Example FindMatch_scenarios :
  let lists := [Some fixtures.blockList; Some fixtures.allowList] in
  rule.FindMatch config.Name fixtures.rulesStore lists "good.example.com"
  = (rule.MatchAllow, Some fixtures.allowList, "good.example.com")
  /\ rule.FindMatch config.Name fixtures.rulesStore lists "ads.example.com"
     = (rule.MatchBlock, Some fixtures.blockList, "example.com")
  /\ rule.FindMatch config.Name fixtures.rulesStore lists "example.org"
     = (rule.MatchNone, None, "").
Proof. repeat split; vm_compute; reflexivity. Qed.

(** ** The remote source *)

Lemma Split_head (s : string) (sep : ascii) :
  exists rest, Strings.Split s sep = spec.beforeFirst sep s :: rest.
Proof.
  induction s as [|c s IH]; cbn.
  - now exists [].
  - destruct (Ascii.eqb c sep).
    + now eexists.
    + destruct IH as [rest ->]. now eexists.
Qed.

Lemma beforeFirst_without (s : string) (sep : ascii) :
  Strings.Contains s sep = false -> spec.beforeFirst sep s = s.
Proof.
  induction s as [|c s IH]; cbn; [reflexivity|].
  destruct (Ascii.eqb c sep); [discriminate|]. intros H. now rewrite IH.
Qed.

Lemma Split_two_fields (s : string) (sep : ascii) :
  Strings.Contains s sep = true ->
  exists second rest, Strings.Split s sep = spec.beforeFirst sep s :: second :: rest.
Proof.
  induction s as [|c s IH]; cbn; [discriminate|].
  destruct (Ascii.eqb c sep).
  - intros _. destruct (Split_head s sep) as [rest ->]. now eexists _, _.
  - intros H. destruct (IH H) as (second & rest & ->). now eexists _, _.
Qed.

(** The server that [splitPort] finds is the text before the first
    colon. *)
Lemma splitPort_server (sourceAddress : string) :
  (resolver.splitPort sourceAddress).1 = spec.beforeFirst ":" sourceAddress.
Proof.
  unfold resolver.splitPort, resolver.portDelimeter.
  destruct (Strings.Contains sourceAddress ":") eqn:E.
  - destruct (Split_two_fields _ _ E) as (second & rest & ->).
    now destruct (strconv.ParseUint second 32).
  - cbn. symmetry. now apply beforeFirst_without.
Qed.



Section DNSSourceProperties.

Variable ParseIP : string -> option net.IP.


(** C10.  [newDNSSource] returns nil exactly when the host portion of
    the source specification does not parse as a literal IP address:
    a host name never gives a source, only a literal address does. *)
Theorem newDNSSource_nil_iff_host_is_no_ip sourceAddress :
  resolver.newDNSSource ParseIP sourceAddress = None
  <-> ParseIP (spec.hostPortion sourceAddress) = None.
Proof.
  unfold resolver.newDNSSource, spec.hostPortion.
  destruct (resolver.splitProtocol sourceAddress) as [address protocol]. cbn [fst].
  rewrite <- splitPort_server.
  destruct (resolver.splitPort address) as [server port]. cbn [fst].
  destruct (ParseIP server); [split; discriminate|easy].
Qed.

End DNSSourceProperties.

(** With the address parser of the standard library on texts without a
    colon (which is its IPv4 parser): a host name gives no source, an
    IPv4 literal does, with the default port of its protocol, and an
    IPv6 literal gives none, because its host portion stops at the
    first colon. *)
Example newDNSSource_examples :
  spec.hostPortion "dns.example.com:53" = "dns.example.com"
  /\ resolver.newDNSSource net.parseIPv4 "dns.example.com:53" = None
  /\ resolver.newDNSSource net.parseIPv4 "8.8.8.8" =
     Some {| resolver.dnsServer := "8.8.8.8"; resolver.port := 53;
             resolver.remoteAddress := "8.8.8.8:53"; resolver.protocol := "";
             resolver.backoffTime := None |}
  /\ resolver.newDNSSource net.parseIPv4 "1.1.1.1/tcp-tls" =
     Some {| resolver.dnsServer := "1.1.1.1"; resolver.port := 853;
             resolver.remoteAddress := "1.1.1.1:853"; resolver.protocol := "tcp-tls";
             resolver.backoffTime := None |}
  /\ spec.hostPortion "2001:db8::1" = "2001"
  /\ resolver.newDNSSource net.parseIPv4 "2001:db8::1" = None.
Proof. repeat split; vm_compute; reflexivity. Qed.

Section BackoffProperties.

Variable network : resolver.Network.

(** While the source is asleep, [Answer] returns (nil, nil) and
    leaves the source, the trace and the context as they are. *)
Lemma Answer_asleep source trace now rCon context request :
  resolver.asleep source now = true ->
  resolver.Answer network source trace now rCon context request
  = (source, trace, context, (None, None)).
Proof. intros H. unfold resolver.Answer. now rewrite H. Qed.

(** A source that is not asleep contacts its peer for a request that
    desires recursion. *)
Lemma Answer_awake_contacts source trace now rCon context req :
  resolver.asleep source now = false ->
  dns.RecursionDesired (dns.Hdr_ req) = true ->
  exists coType,
    (resolver.Answer network source trace now rCon context (Some req)).1.1.2
    = trace ++ [{| resolver.at_ := now; resolver.coType_ := coType;
                   resolver.peer_ := resolver.remoteAddress source |}].
Proof.
  intros Hawake Hrd. unfold resolver.Answer. rewrite Hawake, Hrd.
  cbn [negb resolver.withBackoff resolver.protocol resolver.remoteAddress].
  unfold resolver.query.
  match goal with
  | |- context [network now ?p _ _] => exists p; destruct (network now p _ _) as [[e|e|e|r] took]
  end; reflexivity.
Qed.

(** C6, as amended.  After an [Answer] that ended in a transport error
    at instant [t], the source is backed off until [t] + 15 s: every
    [Answer] strictly before that instant returns (nil, nil) without
    contacting the peer and leaves the source as it is; from that
    instant on, an [Answer] for a request that desires recursion
    contacts the peer again. *)
Theorem Answer_backoff source trace now rCon context request
    source1 trace1 context1 err :
  resolver.Answer network source trace now rCon context request
  = (source1, trace1, context1, (None, Some err)) ->
  exists t coType req,
    request = Some req
    /\ t = now + resolver.elapsed
                   (network now coType (resolver.remoteAddress source) req)
    /\ trace1 = trace ++ [{| resolver.at_ := now; resolver.coType_ := coType;
                             resolver.peer_ := resolver.remoteAddress source |}]
    /\ resolver.backoffTime source1 = Some (t + resolver.backoffInterval)
    /\ resolver.remoteAddress source1 = resolver.remoteAddress source
    /\ (forall trace' now' rCon' context' request',
          now' < t + resolver.backoffInterval ->
          resolver.Answer network source1 trace' now' rCon' context' request'
          = (source1, trace', context', (None, None)))
    /\ (forall trace' now' rCon' context' req',
          t + resolver.backoffInterval <= now' ->
          dns.RecursionDesired (dns.Hdr_ req') = true ->
          exists coType',
            (resolver.Answer network source1 trace' now' rCon' context'
               (Some req')).1.1.2
            = trace' ++ [{| resolver.at_ := now'; resolver.coType_ := coType';
                            resolver.peer_ := resolver.remoteAddress source |}]).
Proof.
  unfold resolver.Answer at 1.
  destruct (resolver.asleep source now); [discriminate|].
  destruct request as [req|]; [|discriminate].
  destruct (negb (dns.RecursionDesired (dns.Hdr_ req))); [discriminate|].
  cbn [resolver.withBackoff resolver.protocol resolver.remoteAddress].
  unfold resolver.query.
  match goal with
  | |- context [network now ?p _ _] => set (coType := p)
  end.
  set (t := now + resolver.elapsed (network now coType (resolver.remoteAddress source) req)).
  assert (Hlater : forall src, resolver.backoffTime src = Some (t + resolver.backoffInterval) ->
            forall now', resolver.asleep src now' = (now' <? t + resolver.backoffInterval)).
  { intros src Hsrc now'. unfold resolver.asleep. now rewrite Hsrc. }
  destruct (resolver.exchange (network now coType (resolver.remoteAddress source) req))
    as [e|e|e|r]; cbn; intros H; try (destruct context; discriminate);
    injection H as <- <- <- <-;
    exists t, coType, req;
    (repeat split; try reflexivity;
     [ intros trace' now' rCon' context' request' Hnow;
       apply Answer_asleep; rewrite Hlater by reflexivity; now apply Z.ltb_lt
     | intros trace' now' rCon' context' req' Hnow Hrd;
       match goal with
       | |- context [resolver.Answer network ?s _ _ _ _ _] =>
           destruct (Answer_awake_contacts s trace' now' rCon' context' req')
             as [p Hp];
           [rewrite Hlater by reflexivity; now apply Z.ltb_ge
           |exact Hrd
           |exists p; exact Hp]
       end ]).
Qed.

End BackoffProperties.

Lemma Answer_backoff_witness :
  resolver.Answer fixtures.unreachable fixtures.upstream [] 0 None None
    (Some (fixtures.ask 1 "example.com." dns.TypeA))
  = (resolver.withBackoff fixtures.upstream
       (Some (fixtures.seconds 1 + resolver.backoffInterval)),
     [{| resolver.at_ := 0; resolver.coType_ := "udp";
         resolver.peer_ := "192.0.2.1:53" |}],
     None, (None, Some "dial: i/o timeout"))
  /\ exists t coType req,
       Some (fixtures.ask 1 "example.com." dns.TypeA) = Some req
       /\ t = 0 + resolver.elapsed
                    (fixtures.unreachable 0 coType
                       (resolver.remoteAddress fixtures.upstream) req)
       /\ [{| resolver.at_ := 0; resolver.coType_ := "udp";
              resolver.peer_ := "192.0.2.1:53" |}]
          = [] ++ [{| resolver.at_ := 0; resolver.coType_ := coType;
                      resolver.peer_ := resolver.remoteAddress fixtures.upstream |}]
       /\ resolver.backoffTime
            (resolver.withBackoff fixtures.upstream
               (Some (fixtures.seconds 1 + resolver.backoffInterval)))
          = Some (t + resolver.backoffInterval)
       /\ resolver.remoteAddress
            (resolver.withBackoff fixtures.upstream
               (Some (fixtures.seconds 1 + resolver.backoffInterval)))
          = resolver.remoteAddress fixtures.upstream
       /\ (forall trace' now' rCon' context' request',
             now' < t + resolver.backoffInterval ->
             resolver.Answer fixtures.unreachable
               (resolver.withBackoff fixtures.upstream
                  (Some (fixtures.seconds 1 + resolver.backoffInterval)))
               trace' now' rCon' context' request'
             = (resolver.withBackoff fixtures.upstream
                  (Some (fixtures.seconds 1 + resolver.backoffInterval)),
                trace', context', (None, None)))
       /\ (forall trace' now' rCon' context' req',
             t + resolver.backoffInterval <= now' ->
             dns.RecursionDesired (dns.Hdr_ req') = true ->
             exists coType',
               (resolver.Answer fixtures.unreachable
                  (resolver.withBackoff fixtures.upstream
                     (Some (fixtures.seconds 1 + resolver.backoffInterval)))
                  trace' now' rCon' context' (Some req')).1.1.2
               = trace' ++ [{| resolver.at_ := now'; resolver.coType_ := coType';
                               resolver.peer_ := resolver.remoteAddress fixtures.upstream |}]).
Proof.
  assert (H : resolver.Answer fixtures.unreachable fixtures.upstream [] 0 None None
                (Some (fixtures.ask 1 "example.com." dns.TypeA))
              = (resolver.withBackoff fixtures.upstream
                   (Some (fixtures.seconds 1 + resolver.backoffInterval)),
                 [{| resolver.at_ := 0; resolver.coType_ := "udp";
                     resolver.peer_ := "192.0.2.1:53" |}],
                 None, (None, Some "dial: i/o timeout"))) by reflexivity.
  exact (conj H (Answer_backoff fixtures.unreachable _ _ _ _ _ _ _ _ _ _ H)).
Defined.

(** The claim as first stated fails for a request that does not desire
    recursion.  The first [Answer], at instant 0, fails at t = 1 s and
    backs the source off until 16 s.  At 16 s, which is t + 15 s, an
    [Answer] for a request without the recursion-desired flag returns
    (nil, nil) and the trace is the one it was given: the peer is not
    contacted. *)
Lemma Answer_after_backoff_without_recursion_no_contact :
  let first :=
    resolver.Answer fixtures.unreachable fixtures.upstream [] 0 None None
      (Some (fixtures.ask 1 "example.com." dns.TypeA)) in
  let source1 := first.1.1.1 in
  let trace1 := first.1.1.2 in
  first.2 = (None, Some "dial: i/o timeout")
  /\ resolver.backoffTime source1 = Some (fixtures.seconds 1 + fixtures.seconds 15)
  /\ let second :=
       resolver.Answer fixtures.unreachable source1 trace1 (fixtures.seconds 16)
         None None (Some (fixtures.askNoRecursion 2 "example.com." dns.TypeA)) in
     second.2 = (None, None) /\ second.1.1.2 = trace1.
Proof. vm_compute. repeat split; reflexivity. Qed.

(** ** The engine *)

Section EngineProperties.

Context {RS : Type}.
Variable ParseIP : string -> option net.IP.
Variable cidrContains : string -> net.IP -> bool.

Implicit Types (e : engine.engine RS) (s : RS) (address : net.IP).

#[local] Abbreviation performRequest := (engine.performRequest ParseIP cidrContains).
#[local] Abbreviation Handle := (engine.Handle ParseIP cidrContains).
#[local] Abbreviation getConsumerForIp := (engine.getConsumerForIp ParseIP cidrContains).

(** C7.  On a nil request [Handle] does not return a response: it
    panics, whatever the engine and the client.  (The reply to a nil
    request is made with [SetReply] on that request.) *)
Theorem Handle_nil_request_panics e s address protocol fuel :
  exists v, Handle (S fuel) e s address protocol None = Some (Panic v).
Proof.
  unfold engine.Handle. cbn [engine.performRequest]. unfold engine.run.
  destruct (getConsumerForIp e address) as [[c|]|v]; [| |]; eauto.
  destruct (engine.configConsumer c); eauto.
Qed.

(** With a consumer for the client, the panic is the nil dereference
    of [SetReply]. *)
Lemma Handle_nil_request_nil_dereference e s address protocol fuel c cc :
  getConsumerForIp e address = Ret (Some c) ->
  engine.configConsumer c = Some cc ->
  Handle (S fuel) e s address protocol None = Some (Panic nilDereference).
Proof.
  intros Hc Hcc. unfold engine.Handle. cbn [engine.performRequest].
  unfold engine.run. now rewrite Hc, Hcc.
Qed.

(** The other half of the validation holds: a request without a
    question is refused. *)
Lemma Handle_no_question_refused e s address protocol fuel c cc req :
  getConsumerForIp e address = Ret (Some c) ->
  engine.configConsumer c = Some cc ->
  dns.Questions req = [] ->
  exists response rCon result,
    Handle (S fuel) e s address protocol (Some req)
    = Some (Ret (s, (response, rCon, result)))
    /\ dns.Rcode (dns.Hdr_ response) = dns.RcodeRefused.
Proof.
  intros Hc Hcc Hq. unfold engine.Handle. cbn [engine.performRequest].
  unfold engine.run. rewrite Hc, Hcc, Hq. cbn. now eexists _, _, _.
Qed.

(** C1.  A panic of the resolution step is not caught: [Handle] ends
    in that panic, and so returns no response, with ServFail or
    otherwise.  (The call of [recover] is not in a deferred
    function.) *)
Theorem Handle_does_not_recover
    e s address protocol req question rest c cc m list ruleText v fuel :
  getConsumerForIp e address = Ret (Some c) ->
  engine.configConsumer c = Some cc ->
  engine.Block cc = false ->
  dns.Questions req = question :: rest ->
  (1 <= String.length (dns.QName question) <= 255)%nat ->
  engine.notImplemented (dns.Qtype question) = false ->
  engine.domainRuleMatchedForConsumer e c (dns.QName question)
    = Ret (m, list, ruleText) ->
  m <> rule.MatchBlock ->
  engine.AnswerMultiResolvers (engine.resolvers e) s
    {| resolver.Protocol := protocol |} (engine.getResolvers c) req = Panic v ->
  Handle (S fuel) e s address protocol (Some req) = Some (Panic v).
Proof.
  intros Hc Hcc Hblock Hq Hlen Hni Hrule Hm Hpanic.
  unfold engine.Handle. cbn [engine.performRequest].
  unfold engine.run at 1. rewrite Hc, Hcc, Hq.
  assert (Hl1 : (String.length (dns.QName question) <? 1)%nat = false)
    by (apply Nat.ltb_ge; lia).
  assert (Hl2 : (255 <? String.length (dns.QName question))%nat = false)
    by (apply Nat.ltb_ge; lia).
  rewrite Hl1, Hl2, Hni, Hblock. cbn [orb].
  unfold engine.run at 1. rewrite Hrule.
  rewrite (bool_decide_eq_true_2 _ Hm).
  unfold engine.run at 1. now rewrite Hpanic.
Qed.

(** The same for a panic of the rule store. *)
Lemma Handle_does_not_recover_rule_match
    e s address protocol req question rest c cc v fuel :
  getConsumerForIp e address = Ret (Some c) ->
  engine.configConsumer c = Some cc ->
  engine.Block cc = false ->
  dns.Questions req = question :: rest ->
  (1 <= String.length (dns.QName question) <= 255)%nat ->
  engine.notImplemented (dns.Qtype question) = false ->
  engine.domainRuleMatchedForConsumer e c (dns.QName question) = Panic v ->
  Handle (S fuel) e s address protocol (Some req) = Some (Panic v).
Proof.
  intros Hc Hcc Hblock Hq Hlen Hni Hrule.
  unfold engine.Handle. cbn [engine.performRequest].
  unfold engine.run at 1. rewrite Hc, Hcc, Hq.
  assert (Hl1 : (String.length (dns.QName question) <? 1)%nat = false)
    by (apply Nat.ltb_ge; lia).
  assert (Hl2 : (255 <? String.length (dns.QName question))%nat = false)
    by (apply Nat.ltb_ge; lia).
  rewrite Hl1, Hl2, Hni, Hblock. cbn [orb].
  unfold engine.run at 1. now rewrite Hrule.
Qed.

Lemma Copy_withQuestions (m : dns.Msg) (qs : list dns.Question) :
dns.Copy m = Ret m -> dns.Copy (dns.withQuestions m qs) = Ret (dns.withQuestions m qs).
Proof.
unfold dns.Copy. cbn [dns.withQuestions dns.Answer dns.Ns dns.Extra].
destruct (dns.copyRRs (dns.Answer m)) as [a|] eqn:Ea; [|discriminate].
destruct (dns.copyRRs (dns.Ns m)) as [n|] eqn:En; [|discriminate].
destruct (dns.copyRRs (dns.Extra m)) as [x|] eqn:Ex; [|discriminate].
apply copyRRs_Ret in Ea, En, Ex. now subst.
Qed.

(** C5, what the code does on a chain of CNAME records that closes on
    itself.  [P] is a set of names such that the resolvers answer a
    question for a name of [P] with a CNAME record as first answer
    whose target is again in [P] (two names that are aliases of each
    other, for one), and whose names pass validation and the rule
    match.  Nothing stops the chase: on a question for a name
    of [P], of a type other than CNAME, [performRequest] returns with no
    amount of fuel, that is, for no depth of the calls back into it. *)
Theorem performRequest_cname_cycle_diverges
  e address protocol c cc qtype (P : string -> Prop) :
getConsumerForIp e address = Ret (Some c) ->
engine.configConsumer c = Some cc ->
engine.Block cc = false ->
qtype <> dns.TypeCNAME ->
engine.notImplemented qtype = false ->
spec.passes e c P ->
spec.aliasesWithin e c protocol qtype P ->
forall fuel s req q qs,
  dns.Questions req = q :: qs -> P (dns.QName q) -> dns.Qtype q = qtype ->
  dns.Copy req = Ret req ->
  performRequest fuel e s address protocol (Some req) = None.
Proof.
intros Hc Hcc Hblock Hqt Hni HP Horacle.
induction fuel as [|fuel IH]; intros s req q qs Hq Hname Hty Hcopy; [reflexivity|].
cbn [engine.performRequest]. unfold engine.run at 1. rewrite Hc, Hcc, Hq.
destruct (HP _ Hname) as (Hlen & m & list & ruleText & Hrule & Hm).
assert (Hl1 : (String.length (dns.QName q) <? 1)%nat = false)
  by (apply Nat.ltb_ge; lia).
assert (Hl2 : (255 <? String.length (dns.QName q))%nat = false)
  by (apply Nat.ltb_ge; lia).
rewrite Hl1, Hl2, Hty, Hni, Hblock. cbn [orb].
unfold engine.run at 1. rewrite Hrule.
rewrite (bool_decide_eq_true_2 _ Hm).
destruct (Horacle s req q qs Hq Hname Hty)
  as (s' & response & rr & rest & result & target & Hanswer & Hfirst & Hrr & Hdata & Htarget).
unfold engine.run at 1. rewrite Hanswer.
assert (Hchase : engine.handleCnameResolution (performRequest fuel e) s' address
                   protocol (Some req) (Some response) = None).
{ unfold engine.handleCnameResolution. rewrite Hfirst, Hq, Hrr, Hty.
  rewrite Z.eqb_refl. apply Z.eqb_neq in Hqt. rewrite Hqt. cbn [negb andb].
  unfold engine.run at 1. rewrite Hcopy, Hdata, Hq.
  erewrite IH; [reflexivity|reflexivity|exact Htarget|exact Hty|].
  now apply Copy_withQuestions. }
now rewrite Hchase.
Qed.

(** More fuel does not change a result: a run that has returned, or
    panicked, does the same at every greater depth. *)
Lemma handleCnameResolution_monotone
  (perform perform' : RS -> net.IP -> string -> option dns.Msg ->
                      engine.Run (RS * engine.Response))
  s address protocol oRequest oResponse out :
(forall s a p r o, perform s a p r = Some o -> perform' s a p r = Some o) ->
engine.handleCnameResolution perform s address protocol oRequest oResponse = Some out ->
engine.handleCnameResolution perform' s address protocol oRequest oResponse = Some out.
Proof.
intros Hmono. unfold engine.handleCnameResolution.
destruct oResponse as [oResponse|]; [|easy].
destruct oRequest as [oRequest|]; [|easy].
destruct (dns.Answer oResponse) as [|[answer|] rest]; [easy| |easy].
destruct (dns.Questions oRequest) as [|question qs]; [easy|].
destruct ((dns.Rrtype (dns.Hdr answer) =? dns.TypeCNAME)
          && negb (dns.Qtype question =? dns.TypeCNAME)); [|easy].
unfold engine.run at 1 3.
destruct (dns.Copy oRequest) as [cnameRequest|]; [|easy].
destruct (dns.Data answer); try easy.
unfold engine.run.
match goal with
| |- context [perform s address protocol ?r] =>
    destruct (perform s address protocol r) as [o|] eqn:E; [|discriminate];
    rewrite (Hmono _ _ _ _ _ E)
end.
easy.
Qed.

Lemma performRequest_monotone fuel e s address protocol request out :
performRequest fuel e s address protocol request = Some out ->
performRequest (S fuel) e s address protocol request = Some out.
Proof.
revert s address protocol request out.
induction fuel as [|fuel IH]; intros s address protocol request out H; [discriminate|].
remember (S fuel) as fuel' eqn:Efuel.
cbn [engine.performRequest]. rewrite Efuel in H. cbn [engine.performRequest] in H.
unfold engine.run at 1 in H. unfold engine.run at 1.
destruct (getConsumerForIp e address) as [[c|]|]; [|exact H|exact H].
destruct (engine.configConsumer c) as [cc|]; [|exact H].
destruct request as [req|]; [|exact H].
destruct (dns.Questions req) as [|question qs]; [exact H|].
destruct ((String.length (dns.QName question) <? 1)%nat
          || (255 <? String.length (dns.QName question))%nat); [exact H|].
destruct (engine.notImplemented (dns.Qtype question)); [exact H|].
destruct (engine.Block cc); [exact H|].
unfold engine.run at 1 in H. unfold engine.run at 1.
destruct (engine.domainRuleMatchedForConsumer e c (dns.QName question))
  as [[[m list] ruleText]|]; [|exact H].
destruct (bool_decide (m <> rule.MatchBlock)); [|exact H].
unfold engine.run at 1 in H. unfold engine.run at 1.
destruct (engine.AnswerMultiResolvers _ _ _ _ _) as [[s1 [[response result] err]]|];
  [|exact H].
destruct err; [exact H|].
unfold engine.run at 1 in H. unfold engine.run at 1.
destruct (engine.handleCnameResolution (performRequest fuel e) s1 address protocol
            (Some req) response) as [o|] eqn:E; [|discriminate].
rewrite (handleCnameResolution_monotone _ (performRequest fuel' e) _ _ _ _ _ _
           (fun s a p r o => IH s a p r o) E).
exact H.
Qed.

Lemma setNames_names name rrs rrs' :
engine.setNames name rrs = Ret rrs' ->
Forall (fun rr => exists r, rr = Some r /\ dns.Name (dns.Hdr r) = name) rrs'.
Proof.
revert rrs'. induction rrs as [|[r|] rest IH]; intros rrs' H; cbn in H.
- injection H as <-. constructor.
- destruct (engine.setNames name rest) as [rest'|] eqn:E; cbn in H; [|discriminate].
  injection H as <-. constructor; [|now apply IH]. now eexists.
- discriminate.
Qed.

(** The rest of C5 holds: when the chase of a CNAME record returns a
    response that is not empty, [handleCnameResolution] gives that
    response with every answer record under the name of the original
    question and, through [SetReply], under the id of the original
    request; and the request of the chase is the original one with the
    target of the record as name. *)
Lemma handleCnameResolution_rewrites
  perform s address protocol oRequest oResponse question qs answer rest target
  s' cnameResponse rCon result out :
dns.Questions oRequest = question :: qs ->
dns.Answer oResponse = Some answer :: rest ->
dns.Rrtype (dns.Hdr answer) = dns.TypeCNAME ->
dns.Qtype question <> dns.TypeCNAME ->
dns.Data answer = dns.CNAME target ->
dns.Copy oRequest = Ret oRequest ->
perform s address protocol
  (Some (dns.withQuestions oRequest
           ({| dns.QName := target; dns.Qtype := dns.Qtype question;
               dns.Qclass := dns.Qclass question |} :: qs)))
= Some (Ret (s', (cnameResponse, rCon, result))) ->
util.IsEmptyResponse (Some cnameResponse) = false ->
engine.handleCnameResolution perform s address protocol (Some oRequest) (Some oResponse)
= Some (Ret (s', Some out)) ->
dns.Id (dns.Hdr_ out) = dns.Id (dns.Hdr_ oRequest)
/\ Forall (fun rr => exists r, rr = Some r
                     /\ dns.Name (dns.Hdr r) = dns.QName question)
     (dns.Answer out).
Proof.
intros Hq Hfirst Hrr Hqt Hdata Hcopy Hperform Hfull.
unfold engine.handleCnameResolution. rewrite Hfirst, Hq, Hrr, Z.eqb_refl.
apply Z.eqb_neq in Hqt. rewrite Hqt. cbn [negb andb].
unfold engine.run at 1. rewrite Hcopy, Hdata, Hq.
unfold engine.run at 1. rewrite Hperform, Hfull. cbn [negb].
destruct (engine.setNames (dns.QName question) (dns.Answer cnameResponse))
  as [answers|] eqn:Enames; cbn; [|discriminate].
intros H. injection H as <-. cbn. split; [reflexivity|].
now apply setNames_names in Enames.
Qed.

End EngineProperties.

Lemma Handle_does_not_recover_witness :
  engine.getConsumerForIp net.parseIPv4 fixtures.noNetwork
    fixtures.brokenEngine fixtures.localhost = Ret (Some fixtures.defaultConsumer)
  /\ engine.Handle net.parseIPv4 fixtures.noNetwork 1 fixtures.brokenEngine tt
       fixtures.localhost "udp" (Some (fixtures.ask 1 "example.com." dns.TypeA))
     = Some (Panic "index out of range").
Proof.
  split; [reflexivity|].
  apply (Handle_does_not_recover net.parseIPv4 fixtures.noNetwork
           fixtures.brokenEngine tt fixtures.localhost "udp"
           (fixtures.ask 1 "example.com." dns.TypeA)
           (fixtures.question "example.com." dns.TypeA) []
           fixtures.defaultConsumer
           {| engine.Name := "default"; engine.Groups := ["default"];
              engine.Matches := []; engine.Block := false |}
           rule.MatchNone None "" "index out of range" 0%nat);
    try reflexivity.
  - cbn. lia.
  - discriminate.
Defined.

Lemma loopEngine_passes :
  spec.passes fixtures.loopEngine fixtures.defaultConsumer fixtures.loopNames.
Proof.
  intros name [-> | ->]; (split; [cbn; lia|]);
    exists rule.MatchNone, None, ""; (split; [reflexivity|discriminate]).
Defined.

Lemma loopEngine_aliasesWithin :
  spec.aliasesWithin fixtures.loopEngine fixtures.defaultConsumer "udp" dns.TypeA
    fixtures.loopNames.
Proof.
  intros [] req [name qtype qclass] qs Hq Hname Hty. cbn in Hname, Hty. subst qtype.
  destruct Hname as [-> | ->].
  - exists tt. eexists _, _, _, None, "b.example.".
    cbn. unfold resolver.hostFileAnswer. rewrite Hq. cbn.
    repeat split; try reflexivity. now right.
  - exists tt. eexists _, _, _, None, "a.example.".
    cbn. unfold resolver.hostFileAnswer. rewrite Hq. cbn.
    repeat split; try reflexivity. now left.
Defined.

Lemma performRequest_cname_cycle_diverges_witness :
  spec.passes fixtures.loopEngine fixtures.defaultConsumer fixtures.loopNames
  /\ spec.aliasesWithin fixtures.loopEngine fixtures.defaultConsumer "udp" dns.TypeA
       fixtures.loopNames
  /\ engine.performRequest net.parseIPv4 fixtures.noNetwork 1000 fixtures.loopEngine tt
       fixtures.localhost "udp" (Some (fixtures.ask 1 "a.example." dns.TypeA))
     = None.
Proof.
  split; [exact loopEngine_passes|]. split; [exact loopEngine_aliasesWithin|].
  apply (performRequest_cname_cycle_diverges net.parseIPv4 fixtures.noNetwork
           fixtures.loopEngine fixtures.localhost "udp" fixtures.defaultConsumer
           {| engine.Name := "default"; engine.Groups := ["default"];
              engine.Matches := []; engine.Block := false |}
           dns.TypeA fixtures.loopNames)
    with (q := fixtures.question "a.example." dns.TypeA) (qs := []);
    try reflexivity.
  - discriminate.
  - exact loopEngine_passes.
  - exact loopEngine_aliasesWithin.
  - now left.
Defined.

(** The same request, evaluated: with 50 levels of calls it has not
    returned; a question of type CNAME for the same name is answered
    at once. *)
Example loopEngine_runs :
  engine.Handle net.parseIPv4 fixtures.noNetwork 50 fixtures.loopEngine tt
    fixtures.localhost "udp" (Some (fixtures.ask 1 "a.example." dns.TypeA)) = None
  /\ exists response,
       engine.Handle net.parseIPv4 fixtures.noNetwork 1 fixtures.loopEngine tt
         fixtures.localhost "udp" (Some (fixtures.ask 1 "a.example." dns.TypeCNAME))
       = Some (Ret response).
Proof. split; [vm_compute; reflexivity|]. eexists. vm_compute. reflexivity. Qed.

(** ** The metrics *)

Section MetricsProperties.

Implicit Types (m : metrics.metrics) (r : metrics.Row).

Lemma insertByAtTime_elem_of r x sorted :
  x ∈ metrics.insertByAtTime r sorted <-> x = r \/ x ∈ sorted.
Proof.
  induction sorted as [|r' rest IH]; cbn.
  - rewrite list_elem_of_singleton. intuition. inversion H0.
  - destruct (metrics.colAtTime r <? metrics.colAtTime r');
      rewrite !elem_of_cons; [tauto|]. rewrite IH. tauto.
Qed.

Lemma orderByAtTime_elem_of x rows :
  x ∈ metrics.orderByAtTime rows <-> x ∈ rows.
Proof.
  unfold metrics.orderByAtTime.
  assert (H : forall acc, x ∈ fold_left (fun sorted r => metrics.insertByAtTime r sorted) rows acc
                          <-> x ∈ rows \/ x ∈ acc).
  { induction rows as [|r rest IH]; intros acc; cbn.
    - split; [now right|]. intros [H|H]; [inversion H|exact H].
    - rewrite IH, insertByAtTime_elem_of, elem_of_cons. tauto. }
  rewrite H. split; [intros [H'|H']; [exact H'|inversion H']|now left].
Qed.

Lemma insertByAtTime_sorted r sorted :
  StronglySorted Z.le (map metrics.colAtTime sorted) ->
  StronglySorted Z.le (map metrics.colAtTime (metrics.insertByAtTime r sorted)).
Proof.
  induction sorted as [|r' rest IH]; cbn; intros Hs.
  - repeat constructor.
  - destruct (Z.ltb_spec (metrics.colAtTime r) (metrics.colAtTime r')) as [Hlt|Hge]; cbn.
    + constructor; [exact Hs|]. inversion Hs as [|? ? Hs' Hall]; subst.
      constructor; [lia|]. eapply Forall_impl; [exact Hall|]. cbn. intros; lia.
    + inversion Hs as [|? ? Hs' Hall]; subst. constructor; [now apply IH|].
      apply Forall_forall. intros a Ha.
      apply list_elem_of_fmap in Ha as (x & -> & Hx).
      apply insertByAtTime_elem_of in Hx as [->|Hx]; [exact Hge|].
      rewrite Forall_forall in Hall. apply Hall.
      apply list_elem_of_fmap. now exists x.
Qed.

Lemma orderByAtTime_sorted rows :
  StronglySorted Z.le (map metrics.colAtTime (metrics.orderByAtTime rows)).
Proof.
  unfold metrics.orderByAtTime.
  assert (H : forall acc, StronglySorted Z.le (map metrics.colAtTime acc) ->
     StronglySorted Z.le
       (map metrics.colAtTime
          (fold_left (fun sorted r => metrics.insertByAtTime r sorted) rows acc))).
  { induction rows as [|r rest IH]; intros acc Hacc; cbn; [exact Hacc|].
    apply IH. now apply insertByAtTime_sorted. }
  apply H. constructor.
Qed.

(** What [Query] returns: one entry for each row within the bounds,
    whose [FromTime] is the AtTime of the row and whose [AtTime] is the
    FromTime of the row. *)
Lemma Query_entries m table start end_ entry :
  metrics.db m = Some table ->
  entry ∈ metrics.Query m start end_
  <-> exists r, r ∈ table
        /\ start <= metrics.colFromTime r /\ metrics.colAtTime r <= end_
        /\ entry = {| metrics.FromTime := metrics.colAtTime r;
                      metrics.AtTime := metrics.colFromTime r;
                      metrics.Values := metrics.colMetricsJson r;
                      metrics.IntervalSeconds := metrics.colIntervalSeconds r |}.
Proof.
  intros Hdb. unfold metrics.Query, metrics.query. rewrite Hdb.
  rewrite list_elem_of_fmap. unfold metrics.selectRows. split.
  - intros (r & -> & Hr). apply orderByAtTime_elem_of, list_elem_of_filter in Hr.
    destruct Hr as [[H1 H2] Hr]. now exists r.
  - intros (r & Hr & H1 & H2 & ->). exists r. split; [reflexivity|].
    apply orderByAtTime_elem_of, list_elem_of_filter. now split.
Qed.

(** The entries come in the order of the AtTime of their rows, which
    they carry as [FromTime]. *)
Lemma Query_ordered_by_FromTime m start end_ :
  StronglySorted Z.le (map metrics.FromTime (metrics.Query m start end_)).
Proof.
  unfold metrics.Query, metrics.query. destruct (metrics.db m) as [table|];
    [|constructor].
  rewrite map_map. cbn. apply orderByAtTime_sorted.
Qed.

(** C9, what the code does.  A snapshot inserted at instant
    [currentTime], for the window that began at [lastInsert], comes back
    from a query whose bounds include it as an entry whose [FromTime]
    is [currentTime] and whose [AtTime] is [lastInsert]: the two
    instants of the window are exchanged. *)
Theorem Query_after_insert_exchanges_window m table currentTime start end_ :
  metrics.db m = Some table ->
  start <= metrics.lastInsert m ->
  currentTime <= end_ ->
  exists entry,
    entry ∈ metrics.Query (metrics.insert m currentTime) start end_
    /\ metrics.FromTime entry = currentTime
    /\ metrics.AtTime entry = metrics.lastInsert m
    /\ metrics.Values entry = metrics.GetAll m.
Proof.
  intros Hdb Hstart Hend.
  eexists. split.
  - eapply Query_entries.
    + unfold metrics.insert. rewrite Hdb. reflexivity.
    + eexists. split; [apply elem_of_app; right; apply list_elem_of_singleton; reflexivity|].
      cbn. repeat split; [exact Hstart|exact Hend].
  - cbn. repeat split.
Qed.

End MetricsProperties.

Lemma Query_after_insert_exchanges_window_witness :
  metrics.db fixtures.emptyTable = Some []
  /\ 0 <= metrics.lastInsert fixtures.emptyTable
  /\ fixtures.seconds 20 <= fixtures.seconds 100
  /\ exists entry,
       entry ∈ metrics.Query (metrics.insert fixtures.emptyTable (fixtures.seconds 20))
                 0 (fixtures.seconds 100)
       /\ metrics.FromTime entry = fixtures.seconds 20
       /\ metrics.AtTime entry = metrics.lastInsert fixtures.emptyTable
       /\ metrics.Values entry = metrics.GetAll fixtures.emptyTable.
Proof.
  assert (H1 : metrics.db fixtures.emptyTable = Some []) by reflexivity.
  assert (H2 : 0 <= metrics.lastInsert fixtures.emptyTable) by (vm_compute; discriminate).
  assert (H3 : fixtures.seconds 20 <= fixtures.seconds 100) by (vm_compute; discriminate).
  exact (conj H1 (conj H2 (conj H3
           (Query_after_insert_exchanges_window fixtures.emptyTable []
              (fixtures.seconds 20) 0 (fixtures.seconds 100) H1 H2 H3)))).
Defined.

(** The window that began at 10 s and was inserted at 20 s is returned
    as the one entry with [FromTime] 20 s and [AtTime] 10 s. *)
Example Query_window_10_20 :
  map (fun entry => (metrics.FromTime entry, metrics.AtTime entry,
                     metrics.IntervalSeconds entry))
      (metrics.Query (metrics.insert fixtures.emptyTable (fixtures.seconds 20))
         0 (fixtures.seconds 100))
  = [(fixtures.seconds 20, fixtures.seconds 10, 10)].
Proof. vm_compute. reflexivity. Qed.

Section QueueProperties.

Implicit Types (m : metrics.metrics) (info : metrics.metricsInfo).

Lemma Inc_chan m name byValue :
  metrics.metricsInfoChan (metrics.Inc m name byValue) = metrics.metricsInfoChan m.
Proof.
  unfold metrics.Inc, metrics.Get.
  now destruct (metrics.metricsMap m !! (metrics.MetricsPrefix +:+ name)).
Qed.

(** Recording an entry changes counters only. *)
Lemma record_chan m info :
  metrics.metricsInfoChan (metrics.record m info) = metrics.metricsInfoChan m.
Proof.
  unfold metrics.record.
  destruct (metrics.result info) as [r|]; [|now rewrite !Inc_chan].
  destruct (resolver.Cached r),
    (resolver.Blocked r || bool_decide (resolver.Match r = rule.MatchBlock));
    now rewrite !Inc_chan.
Qed.

Lemma RecordQueryMetrics_send m info :
  metrics.RecordQueryMetrics m (Some (metrics.address info)) (metrics.request info)
    (metrics.response info) (metrics.rCon info) (metrics.result info)
  = (metrics.withChan m (channel.send (metrics.metricsInfoChan m) info).1,
     (channel.send (metrics.metricsInfoChan m) info).2).
Proof.
  unfold metrics.RecordQueryMetrics. destruct info as [a rq rs rt rc]. cbn.
  now destruct (channel.send _ _).
Qed.

Lemma step_invariant st sent op :
  spec.queueInvariant st sent ->
  spec.queueInvariant (spec.step st op) (sent ++ spec.enqueued [op]).
Proof.
  destruct st as [m received]. unfold spec.queueInvariant. cbn [fst snd].
  intros (Hcap & Hlen & Hwait & Hsent). destruct op as [info|]; cbn [spec.step].
  - rewrite RecordQueryMetrics_send. cbn [fst snd metrics.withChan metrics.metricsInfoChan].
    unfold channel.send. rewrite Hcap.
    destruct (Z.ltb_spec (Z.of_nat (length (channel.buf (metrics.metricsInfoChan m))))
                metrics.queueSize) as [Hlt|Hge]; cbn.
    + split_and!.
      * reflexivity.
      * rewrite length_app. cbn. lia.
      * intros Hq. apply Hwait in Hq. lia.
      * destruct (channel.sendq (metrics.metricsInfoChan m)) as [|w ws] eqn:Eq.
        -- rewrite <- Hsent. now rewrite !app_nil_r, app_assoc.
        -- assert (w :: ws <> []) as Hne by discriminate. apply Hwait in Hne. lia.
    + split_and!.
      * reflexivity.
      * exact Hlen.
      * lia.
      * rewrite <- Hsent. now rewrite !app_assoc.
  - unfold metrics.workerReceive, channel.recv. rewrite app_nil_r.
    destruct (channel.buf (metrics.metricsInfoChan m)) as [|x rest] eqn:Eb.
    + cbn [fst snd]. rewrite Eb. now split_and!.
    + destruct (channel.sendq (metrics.metricsInfoChan m)) as [|y waiting] eqn:Eq;
        cbn [fst snd]; rewrite record_chan; cbn.
      * cbn in Hlen. split_and!.
        -- exact Hcap.
        -- lia.
        -- easy.
        -- rewrite <- Hsent. now rewrite <- app_assoc.
      * assert (y :: waiting <> []) as Hne by discriminate. apply Hwait in Hne.
        cbn in Hne. split_and!.
        -- exact Hcap.
        -- rewrite length_app. cbn. lia.
        -- intros _. rewrite length_app. cbn. lia.
        -- rewrite <- Hsent. rewrite <- !app_assoc. reflexivity.
Qed.

Lemma runOps_invariant ops st sent :
  spec.queueInvariant st sent ->
  spec.queueInvariant (fold_left spec.step ops st) (sent ++ spec.enqueued ops).
Proof.
  revert st sent. induction ops as [|op ops IH]; intros st sent Hinv; cbn [fold_left].
  - unfold spec.enqueued. cbn. now rewrite app_nil_r.
  - apply (step_invariant _ _ op) in Hinv. apply IH in Hinv.
    replace (sent ++ spec.enqueued (op :: ops))
      with ((sent ++ spec.enqueued [op]) ++ spec.enqueued ops); [exact Hinv|].
    rewrite <- app_assoc. f_equal. unfold spec.enqueued. cbn.
    now rewrite app_nil_r.
Qed.

(** C8, as amended.  Whatever the pipelines and the worker have done
    since [New], the channel buffers at most its capacity of 100000
    entries, and no entry is lost: the entries received, buffered and
    waiting to be buffered are, in this order, the entries enqueued.
    An enqueue below the capacity buffers the entry and proceeds.  An
    enqueue at the capacity does not return and does not drop the
    entry: the caller is blocked, with its entry next in line for the
    buffer behind the earlier blocked callers. *)
Theorem queue_is_bounded_and_blocks persisted now ops :
  let st := spec.runOps (metrics.New persisted now) ops in
  let c := metrics.metricsInfoChan st.1 in
  metrics.queueSize = 100000
  /\ Z.of_nat (length (channel.buf c)) <= metrics.queueSize
  /\ st.2 ++ channel.buf c ++ channel.sendq c = spec.enqueued ops
  /\ forall info,
       let after :=
         metrics.RecordQueryMetrics st.1 (Some (metrics.address info))
           (metrics.request info) (metrics.response info)
           (metrics.rCon info) (metrics.result info) in
       let c' := metrics.metricsInfoChan after.1 in
       if Z.of_nat (length (channel.buf c)) <? metrics.queueSize
       then after.2 = channel.Proceeds
            /\ channel.buf c' = channel.buf c ++ [info]
            /\ channel.sendq c' = channel.sendq c
       else after.2 = channel.Blocks
            /\ channel.buf c' = channel.buf c
            /\ channel.sendq c' = channel.sendq c ++ [info].
Proof.
  cbn zeta.
  assert (Hinit : spec.queueInvariant (metrics.New persisted now, []) []).
  { unfold spec.queueInvariant. cbn. repeat split; [discriminate|easy]. }
  apply (runOps_invariant ops) in Hinit. cbn [app] in Hinit.
  fold (spec.runOps (metrics.New persisted now) ops) in Hinit.
  destruct (spec.runOps (metrics.New persisted now) ops) as [m received].
  destruct Hinit as (Hcap & Hlen & _ & Hsent). cbn [fst snd] in *.
  repeat split; try assumption.
  intros info. rewrite RecordQueryMetrics_send.
  cbn [fst snd metrics.withChan metrics.metricsInfoChan].
  unfold channel.send. rewrite Hcap.
  now destruct (Z.of_nat (length (channel.buf (metrics.metricsInfoChan m)))
                <? metrics.queueSize).
Qed.

(** After a blocked enqueue, the turn of the worker buffers the entry
    of the blocked caller. *)
Lemma blocked_entry_is_buffered_on_receive m info first rest :
  channel.buf (metrics.metricsInfoChan m) = first :: rest ->
  channel.sendq (metrics.metricsInfoChan m) = [info] ->
  exists m', metrics.workerReceive m = Some m'
             /\ channel.buf (metrics.metricsInfoChan m') = rest ++ [info]
             /\ channel.sendq (metrics.metricsInfoChan m') = [].
Proof.
  intros Hb Hq. unfold metrics.workerReceive, channel.recv. rewrite Hb, Hq.
  eexists. split; [reflexivity|]. rewrite record_chan. now cbn.
Qed.

End QueueProperties.

(** The full queue is what [queueSize] enqueues leave when the worker
    has not taken its turn. *)
Lemma fullMetrics_reached :
  (spec.runOps (metrics.New None 0)
     (replicate (Z.to_nat metrics.queueSize) (spec.Enqueue fixtures.info))).1
  = fixtures.fullMetrics.
Proof.
  unfold spec.runOps, fixtures.fullMetrics.
  assert (H : forall n k received,
    (Z.of_nat k + Z.of_nat n <= metrics.queueSize) ->
    (fold_left spec.step (replicate n (spec.Enqueue fixtures.info))
       (metrics.withChan (metrics.New None 0)
          {| channel.buf := replicate k fixtures.info; channel.sendq := [];
             channel.cap := metrics.queueSize |}, received)).1
    = metrics.withChan (metrics.New None 0)
        {| channel.buf := replicate (k + n) fixtures.info; channel.sendq := [];
           channel.cap := metrics.queueSize |}).
  { induction n as [|n IH]; intros k received Hk.
    - cbn. now rewrite Nat.add_0_r.
    - cbn [replicate fold_left spec.step].
      rewrite RecordQueryMetrics_send. cbn [fst metrics.withChan metrics.metricsInfoChan].
      unfold channel.send. cbn [channel.buf channel.cap channel.sendq].
      rewrite length_replicate.
      destruct (Z.ltb_spec (Z.of_nat k) metrics.queueSize) as [_|Hge]; [|lia].
      cbn [fst]. unfold metrics.withChan in *. cbn in *.
      replace (replicate k fixtures.info ++ [fixtures.info])
        with (replicate (S k) fixtures.info)
        by (rewrite replicate_S_end; reflexivity).
      rewrite (IH (S k) received) by lia.
      now replace (S k + n)%nat with (k + S n)%nat by lia. }
  specialize (H (Z.to_nat metrics.queueSize) 0%nat []).
  cbn [replicate Nat.add] in H. apply H. vm_compute. discriminate.
Qed.

(** The claim as first stated fails at the full queue: an enqueue made
    while 100000 entries are buffered does not return, and its entry is
    not dropped but kept for the buffer. *)
Lemma RecordQueryMetrics_blocks_when_full :
  let c := metrics.metricsInfoChan fixtures.fullMetrics in
  let after :=
    metrics.RecordQueryMetrics fixtures.fullMetrics
      (Some (metrics.address fixtures.info)) (metrics.request fixtures.info)
      (metrics.response fixtures.info) (metrics.rCon fixtures.info)
      (metrics.result fixtures.info) in
  let c' := metrics.metricsInfoChan after.1 in
  Z.of_nat (length (channel.buf c)) = 100000
  /\ after.2 = channel.Blocks
  /\ channel.sendq c' = [fixtures.info]
  /\ channel.buf c' = channel.buf c.
Proof.
  cbn zeta. rewrite RecordQueryMetrics_send.
  unfold fixtures.fullMetrics, channel.send.
  cbn [metrics.withChan metrics.metricsInfoChan channel.buf channel.cap
       channel.sendq fst snd].
  rewrite length_replicate, Z2Nat.id by (vm_compute; discriminate).
  rewrite Z.ltb_irrefl. cbn [fst snd metrics.metricsInfoChan channel.buf channel.sendq app].
  now split_and!.
Qed.

(** * Further properties of the code *)

(** ** The cache: ttl of the envelope, expiry, requests without question *)

Section CacheBehaviour.

Implicit Types (c : cache.gocache) (partition : string).

Lemma minTtl_lowest currentMin records ttl :
  cache.minTtl currentMin records = Ret ttl ->
  ttl <= currentMin
  /\ (forall rr, Some rr ∈ records -> ttl <= dns.Ttl (dns.Hdr rr))
  /\ (ttl = currentMin \/ exists rr, Some rr ∈ records /\ ttl = dns.Ttl (dns.Hdr rr)).
Proof.
  revert currentMin. induction records as [|[rr|] rest IH]; intros currentMin H; cbn in H.
  - injection H as <-. split; [lia|]. split; [|now left].
    intros rr Hin. inversion Hin.
  - apply IH in H as (Hle & Hall & Hatt). unfold cache.min in *.
    destruct (Z.leb_spec currentMin (dns.Ttl (dns.Hdr rr))).
    + split; [lia|]. split.
      * intros rr' Hin. apply elem_of_cons in Hin as [Heq|Hin]; [|now apply Hall].
        injection Heq as ->. lia.
      * destruct Hatt as [->|(rr' & Hin & ->)]; [now left|].
        right. exists rr'. split; [now right|reflexivity].
    + split; [lia|]. split.
      * intros rr' Hin. apply elem_of_cons in Hin as [Heq|Hin]; [|now apply Hall].
        injection Heq as ->. lia.
      * right. destruct Hatt as [->|(rr' & Hin & ->)].
        -- exists rr. split; [now left|reflexivity].
        -- exists rr'. split; [now right|reflexivity].
  - discriminate.
Qed.

(** The ttl under which a response is kept is at most the cap of
    604800 seconds and, when the response has answer records, it is the
    lowest of their ttls or the cap, whichever is lower. *)
Theorem envelopeTtl_is_capped_minimum response ttl :
  cache.envelopeTtl response = Ret ttl ->
  ttl <= 604800
  /\ (dns.Answer response <> [] ->
      (forall rr, Some rr ∈ dns.Answer response -> ttl <= dns.Ttl (dns.Hdr rr))
      /\ (ttl = 604800
          \/ exists rr, Some rr ∈ dns.Answer response /\ ttl = dns.Ttl (dns.Hdr rr))).
Proof.
  unfold cache.envelopeTtl. intros H.
  destruct (cache.minTtl cache.dnsMaxTtl (dns.Answer response)) as [ta|] eqn:Ea;
    [|discriminate]. cbn in H.
  destruct (dns.Answer response) as [|first rest] eqn:Eanswer.
  - cbn in H. split; [|easy].
    destruct (cache.minTtl cache.dnsMaxTtl (dns.Ns response)) as [tn|] eqn:En;
      [|discriminate]. cbn in H.
    match type of H with context [if ?b then _ else _] => destruct b end.
    + apply minTtl_lowest in H as [H _]. exact H.
    + injection H as <-. apply minTtl_lowest in En as [H _]. exact H.
  - cbn in H. injection H as <-. apply minTtl_lowest in Ea as (Hle & Hall & Hatt).
    split; [exact Hle|]. intros _. split; [exact Hall|exact Hatt].
Qed.

Lemma adjustTtls_total timeDelta records records' :
  dns.copyRRs records = Ret records' ->
  exists adjusted, cache.adjustTtls timeDelta records = Ret adjusted.
Proof.
  revert records'. induction records as [|[rr|] rest IH]; intros records' H; cbn in H |- *.
  - now eexists.
  - destruct (dns.copyRRs rest) as [rest'|] eqn:E; [|discriminate].
    destruct (IH _ eq_refl) as [adjusted ->]. cbn. now eexists.
  - discriminate.
Qed.

(** A stored response can be queried until its envelope ttl has run
    out, and not after: a query on the same partition and questions
    hits exactly when it comes no later than ttl seconds after the
    store. *)
Theorem Query_hits_until_expiry c t0 partition request response c1 ttl t1 q :
  cache.Store c t0 partition request (Some response) = Ret (c1, true) ->
  cache.envelopeTtl response = Ret ttl ->
  0 <= t0 ->
  dns.Questions q = dns.Questions request ->
  (exists c2 m, cache.Query c1 t1 partition q = Ret (c2, Some m))
  <-> t1 <= t0 + ttl * cache.Second.
Proof.
  intros Hstore Httl Ht0 Hq. unfold cache.Store in Hstore.
  destruct (util.IsEmptyResponse (Some response)); [discriminate|].
  destruct (dns.Truncated (dns.Hdr_ response)); [discriminate|].
  pose proof (key_after_store c partition (dns.Questions request)) as Hkey.
  destruct (cache.key c partition (dns.Questions request)) as [c0 k] eqn:Ek.
  cbn [fst snd] in Hkey.
  destruct (String.eqb "" k) eqn:Ekn; [discriminate|].
  rewrite Httl in Hstore. cbn in Hstore.
  destruct (Z.ltb_spec 0 ttl) as [Hpos|]; [|discriminate].
  destruct (dns.Copy response) as [copy|] eqn:Ecopy; [|discriminate].
  pose proof (Copy_Ret _ _ Ecopy). subst copy.
  cbn in Hstore. injection Hstore as <-.
  unfold cache.Query. rewrite Hq, Hkey, Ekn.
  unfold cache.Get, cache.Set_. cbn. rewrite lookup_insert_eq. cbn.
  assert (Hexp : 0 < t0 + ttl * cache.Second) by (unfold cache.Second; lia).
  apply Z.ltb_lt in Hexp. rewrite Hexp. cbn [andb].
  destruct (Z.ltb_spec (t0 + ttl * cache.Second) t1) as [Hlate|Hearly].
  - split; [|lia]. intros (c2 & m & H). discriminate.
  - split; [intros _; exact Hearly|]. intros _. simpl. rewrite Ecopy. simpl.
    unfold dns.Copy in Ecopy.
    destruct (dns.copyRRs (dns.Answer response)) as [a|] eqn:Ea; [|discriminate].
    destruct (dns.copyRRs (dns.Ns response)) as [n|] eqn:En; [|discriminate].
    destruct (dns.copyRRs (dns.Extra response)) as [x|] eqn:Ex; [|discriminate].
    destruct (adjustTtls_total (uint32 ((t1 - t0) `quot` cache.Second)) _ _ Ea) as [a' ->].
    destruct (adjustTtls_total (uint32 ((t1 - t0) `quot` cache.Second)) _ _ En) as [n' ->].
    destruct (adjustTtls_total (uint32 ((t1 - t0) `quot` cache.Second)) _ _ Ex) as [x' ->].
    simpl. now eexists _, _.
Qed.

(** A request without a question is neither stored nor served: [Store]
    returns false and [Query] misses, whatever the response and the
    cache, and the entries of the cache stay as they are. *)
Theorem no_question_no_caching c now partition request response :
  dns.Questions request = [] ->
  (exists c', cache.Store c now partition request response = Ret (c', false)
              /\ cache.backer c' = cache.backer c)
  /\ (exists c', cache.Query c now partition request = Ret (c', None)
                 /\ cache.backer c' = cache.backer c).
Proof.
  intros Hq. split.
  - unfold cache.Store. destruct (util.IsEmptyResponse response) eqn:E; [now exists c|].
    destruct response as [resp|]; [|discriminate].
    destruct (dns.Truncated (dns.Hdr_ resp)); [now exists c|].
    rewrite Hq. unfold cache.key. cbn.
    eexists. split; [reflexivity|apply assignPartition_backer].
  - unfold cache.Query. rewrite Hq. unfold cache.key. cbn.
    eexists. split; [reflexivity|apply assignPartition_backer].
Qed.

End CacheBehaviour.

Lemma envelopeTtl_is_capped_minimum_witness :
  cache.envelopeTtl (fixtures.answerA 7 60) = Ret 60
  /\ (60 <= 604800
      /\ (dns.Answer (fixtures.answerA 7 60) <> [] ->
          (forall rr, Some rr ∈ dns.Answer (fixtures.answerA 7 60) ->
                      60 <= dns.Ttl (dns.Hdr rr))
          /\ (60 = 604800
              \/ exists rr, Some rr ∈ dns.Answer (fixtures.answerA 7 60)
                            /\ 60 = dns.Ttl (dns.Hdr rr)))).
Proof.
  assert (H : cache.envelopeTtl (fixtures.answerA 7 60) = Ret 60) by reflexivity.
  exact (conj H (envelopeTtl_is_capped_minimum _ _ H)).
Defined.

Lemma Query_hits_until_expiry_witness :
  cache.Store cache.New 0 "default" (fixtures.ask 7 "test." dns.TypeA)
    (Some (fixtures.answerA 7 60)) = Ret (fixtures.stored, true)
  /\ cache.envelopeTtl (fixtures.answerA 7 60) = Ret 60
  /\ 0 <= 0
  /\ dns.Questions (fixtures.ask 9 "test." dns.TypeA)
     = dns.Questions (fixtures.ask 7 "test." dns.TypeA)
  /\ ((exists c2 m, cache.Query fixtures.stored (fixtures.seconds 61) "default"
                      (fixtures.ask 9 "test." dns.TypeA) = Ret (c2, Some m))
      <-> fixtures.seconds 61 <= 0 + 60 * cache.Second).
Proof.
  assert (H1 : cache.Store cache.New 0 "default" (fixtures.ask 7 "test." dns.TypeA)
                 (Some (fixtures.answerA 7 60)) = Ret (fixtures.stored, true))
    by (vm_compute; reflexivity).
  assert (H2 : cache.envelopeTtl (fixtures.answerA 7 60) = Ret 60) by reflexivity.
  assert (H3 : 0 <= 0) by lia.
  assert (H4 : dns.Questions (fixtures.ask 9 "test." dns.TypeA)
               = dns.Questions (fixtures.ask 7 "test." dns.TypeA)) by reflexivity.
  exact (conj H1 (conj H2 (conj H3 (conj H4
           (Query_hits_until_expiry _ _ _ _ _ _ _ (fixtures.seconds 61) _ H1 H2 H3 H4))))).
Defined.

Lemma no_question_no_caching_witness :
  dns.Questions dns.newMsg = []
  /\ (exists c', cache.Store fixtures.stored 5 "default" dns.newMsg
                   (Some (fixtures.answerA 7 60)) = Ret (c', false)
                 /\ cache.backer c' = cache.backer fixtures.stored)
  /\ (exists c', cache.Query fixtures.stored 5 "default" dns.newMsg = Ret (c', None)
                 /\ cache.backer c' = cache.backer fixtures.stored).
Proof.
  assert (H : dns.Questions dns.newMsg = []) by reflexivity.
  exact (conj H (no_question_no_caching fixtures.stored 5 "default" dns.newMsg
                   (Some (fixtures.answerA 7 60)) H)).
Defined.

(** ** The rule store: what a match reports *)

Section RuleStoreReports.

Variable ShortName : config.GudgeonList -> string.

Lemma scanRows_reports rows name r :
  rule.scanRows rows = (true, name, r) -> (name, r) ∈ rows /\ r <> "".
Proof.
  induction rows as [|[name' r'] rest IH]; cbn [rule.scanRows]; [discriminate|].
  destruct (String.eqb_spec "" r') as [<-|Hne]; cbn [negb].
  - intros H. apply IH in H as [Hin Hr]. split; [now right|exact Hr].
  - intros H. injection H as <- <-. split; [now left|congruence].
Qed.

Lemma foundInLists_reports d (ls : list config.GudgeonList) domains name r :
  rule.foundInLists ShortName d ls domains = (true, name, r) ->
  r <> "" /\ r ∈ domains
  /\ exists l id, l ∈ ls /\ ShortName l = name
                  /\ (id, name) ∈ rule.lists d /\ (Some id, r) ∈ rule.rules d.
Proof.
  unfold rule.foundInLists.
  destruct ((length ls <? 1)%nat || (length domains <? 1)%nat); [discriminate|].
  intros H. apply scanRows_reports in H as [Hin Hr].
  apply selectRules_elem_of in Hin as (id & Hl & Hrule & Hn & Hd).
  apply list_elem_of_fmap in Hn as (l & -> & Hl').
  split; [exact Hr|]. split; [exact Hd|]. now exists l, id.
Qed.

Lemma split_keeps_keys lists listmap allow block key :
  is_Some (listmap !! key) ->
  is_Some ((rule.split ShortName lists listmap allow block).1.1 !! key).
Proof.
  revert listmap allow block.
  induction lists as [|[x|] rest IH]; intros listmap allow block Hk; cbn.
  - exact Hk.
  - case_bool_decide; apply IH;
      (destruct (decide (ShortName x = key)) as [->|Hne];
       [rewrite lookup_insert_eq; now eexists
       |rewrite lookup_insert_ne by exact Hne; exact Hk]).
  - now apply IH.
Qed.

(** The map from short name to list that [split] builds: every list of
    the input is found under its short name, and what is found under a
    short name is a list of that short name from the input (or from
    the map it started with). *)
Lemma split_listmap_covers lists listmap allow block l :
  Some l ∈ lists ->
  is_Some ((rule.split ShortName lists listmap allow block).1.1 !! ShortName l).
Proof.
  revert listmap allow block.
  induction lists as [|[l0|] rest IH]; intros listmap allow block Hin; cbn.
  - inversion Hin.
  - apply elem_of_cons in Hin as [Heq|Hin].
    + injection Heq as ->.
      case_bool_decide; apply split_keeps_keys; rewrite lookup_insert_eq; now eexists.
    + case_bool_decide; now apply IH.
  - apply elem_of_cons in Hin as [Heq|Hin]; [discriminate|now apply IH].
Qed.

Lemma split_listmap_sound lists listmap allow block name l :
  (rule.split ShortName lists listmap allow block).1.1 !! name = Some l ->
  listmap !! name = Some l \/ (Some l ∈ lists /\ ShortName l = name).
Proof.
  revert listmap allow block.
  induction lists as [|[l0|] rest IH]; intros listmap allow block Hl; cbn in Hl.
  - now left.
  - assert (H : <[ShortName l0:=l0]> listmap !! name = Some l
                \/ (Some l ∈ rest /\ ShortName l = name))
      by (case_bool_decide; now apply IH in Hl).
    destruct H as [H|[Hin Hn]]; [|right; split; [now right|exact Hn]].
    destruct (decide (ShortName l0 = name)) as [Heq|Hne].
    + rewrite Heq, lookup_insert_eq in H. injection H as <-.
      right. split; [now left|exact Heq].
    + rewrite lookup_insert_ne in H by exact Hne. now left.
  - apply IH in Hl as [Hl|[Hin Hn]]; [now left|].
    right. split; [now right|exact Hn].
Qed.

(** What [FindMatch] reports with a verdict other than none: a rule
    that is not empty and is a suffix of the domain, and a list of the
    input that holds this rule.  With the verdict none it reports no
    list and no rule. *)
Theorem FindMatch_reports_list_and_rule store lists domain verdict reported r :
  rule.FindMatch ShortName store lists domain = (verdict, reported, r) ->
  if decide (verdict = rule.MatchNone)
  then reported = None /\ r = ""
  else r <> "" /\ r ∈ util.DomainList domain
       /\ exists l, reported = Some l /\ Some l ∈ lists
                    /\ spec.holds ShortName store l r.
Proof.
  unfold rule.FindMatch. destruct store as [[d|]]; cbn [rule.db].
  2: { intros H. injection H as <- <- <-. now cbn. }
  pose proof (split_lists ShortName lists ∅ [] []) as Hsplit.
  pose proof (fun l => split_listmap_covers lists ∅ [] [] l) as Hcover.
  pose proof (fun name l => split_listmap_sound lists ∅ [] [] name l) as Hsound.
  destruct (rule.split ShortName lists ∅ [] []) as [[listmap allowLists] blockLists].
  cbn [fst] in Hcover, Hsound. destruct Hsplit as [Ha Hb].
  assert (Hreport : forall ls name r0,
            (forall l, l ∈ ls -> Some l ∈ lists) ->
            rule.foundInLists ShortName d ls (util.DomainList domain) = (true, name, r0) ->
            r0 <> "" /\ r0 ∈ util.DomainList domain
            /\ exists l, listmap !! name = Some l /\ Some l ∈ lists
                         /\ spec.holds ShortName {| rule.db := Some d |} l r0).
  { intros ls name r0 Hls H. apply foundInLists_reports in H
      as (Hr & Hd & l & id & Hl & Hn & Hlist & Hrule).
    split; [exact Hr|]. split; [exact Hd|].
    destruct (Hcover l (Hls l Hl)) as [l' Hl']. rewrite Hn in Hl'.
    exists l'. split; [exact Hl'|].
    destruct (Hsound _ _ Hl') as [Hempty|[Hin' Hn']]; [now rewrite lookup_empty in Hempty|].
    split; [exact Hin'|]. exists d, id. rewrite Hn'. now repeat split. }
  destruct (rule.foundInLists ShortName d allowLists (util.DomainList domain))
    as [[foundA nameA] ruleA] eqn:EA.
  destruct foundA.
  - intros H. injection H as <- <- <-. cbn.
    apply (Hreport allowLists); [|exact EA].
    intros l Hl. apply Ha in Hl as [Hl|[Hl _]]; [inversion Hl|exact Hl].
  - destruct (rule.foundInLists ShortName d blockLists (util.DomainList domain))
      as [[foundB nameB] ruleB] eqn:EB.
    destruct foundB.
    + intros H. injection H as <- <- <-. cbn.
      apply (Hreport blockLists); [|exact EB].
      intros l Hl. apply Hb in Hl as [Hl|[Hl _]]; [inversion Hl|exact Hl].
    + intros H. injection H as <- <- <-. now cbn.
Qed.

End RuleStoreReports.

Lemma FindMatch_reports_list_and_rule_witness :
  rule.FindMatch config.Name fixtures.rulesStore
    [Some fixtures.blockList; Some fixtures.allowList] "ads.example.com"
  = (rule.MatchBlock, Some fixtures.blockList, "example.com")
  /\ ("example.com" <> ""
      /\ "example.com" ∈ util.DomainList "ads.example.com"
      /\ exists l, Some fixtures.blockList = Some l
                   /\ Some l ∈ [Some fixtures.blockList; Some fixtures.allowList]
                   /\ spec.holds config.Name fixtures.rulesStore l "example.com").
Proof.
  assert (H : rule.FindMatch config.Name fixtures.rulesStore
                [Some fixtures.blockList; Some fixtures.allowList] "ads.example.com"
              = (rule.MatchBlock, Some fixtures.blockList, "example.com"))
    by (vm_compute; reflexivity).
  exact (conj H (FindMatch_reports_list_and_rule config.Name _ _ _ _ _ _ H)).
Defined.

(** ** The remote source: construction *)




Section DNSSourceConstruction.

Variable ParseIP : string -> option net.IP.


End DNSSourceConstruction.


(** ** The remote source: answering *)

Section AnswerBehaviour.

Variable network : resolver.Network.

Lemma Answer_without_recursion source trace now rCon context request :
  spec.wantsRecursion request = false ->
  (resolver.Answer network source trace now rCon context request).1.1.2 = trace
  /\ (resolver.Answer network source trace now rCon context request).2 = (None, None).
Proof.
  intros H. unfold resolver.Answer.
  destruct (resolver.asleep source now); [easy|].
  destruct request as [req|]; [|easy]. cbn in H. now rewrite H.
Qed.

(** The recursion gate: whatever the instants, the contexts and the
    state of the back-off, a series of requests none of which asks for
    recursion never reaches the peer. *)
Theorem requests_without_recursion_never_contact source trace calls :
  Forall (fun call : spec.AnswerCall => spec.wantsRecursion call.2 = false) calls ->
  (spec.answerAll network (source, trace) calls).2 = trace.
Proof.
  unfold spec.answerAll. revert source trace.
  induction calls as [|[[[now rCon] context] request] rest IH];
    intros source trace Hall; [reflexivity|].
  inversion Hall as [|? ? Hcall Hrest]; subst. cbn [fold_left fst snd] in *.
  pose proof (Answer_without_recursion source trace now rCon context request Hcall)
    as [Htrace _].
  destruct (resolver.Answer network source trace now rCon context request)
    as [[[source' trace'] context'] result].
  cbn [fst snd] in *. subst trace'. now apply IH.
Qed.

(** A reply of the peer is forwarded as it is: when the source is
    awake, the request asks for recursion and the exchange yields a
    response, [Answer] returns that response and no error after one
    contact of the remote address, over the protocol of the source or,
    when it has none, the one of the request context or, without one,
    udp; the source stays without back-off. *)
Theorem Answer_forwards_reply source trace now rCon context req coType response :
  resolver.asleep source now = false ->
  dns.RecursionDesired (dns.Hdr_ req) = true ->
  coType = (if String.eqb (resolver.protocol source) ""
            then match rCon with
                 | Some rc => resolver.Protocol rc
                 | None => "udp"
                 end
            else resolver.protocol source) ->
  resolver.exchange (network now coType (resolver.remoteAddress source) req)
  = resolver.Reply response ->
  exists context',
    resolver.Answer network source trace now rCon context (Some req)
    = (resolver.withBackoff source None,
       trace ++ [{| resolver.at_ := now; resolver.coType_ := coType;
                    resolver.peer_ := resolver.remoteAddress source |}],
       context', (Some response, None)).
Proof.
  intros Hawake Hrd -> Hreply. unfold resolver.Answer. rewrite Hawake, Hrd.
  cbn [negb resolver.withBackoff resolver.protocol resolver.remoteAddress].
  unfold resolver.query. rewrite Hreply. now eexists.
Qed.

(** The answering source is written to the resolution context once: a
    context that already names a source comes back from [Answer] as it
    went in, whatever the call. *)
Theorem Answer_keeps_first_source source trace now rCon ctx request :
  resolver.SourceUsed ctx <> "" ->
  (resolver.Answer network source trace now rCon (Some ctx) request).1.2 = Some ctx.
Proof.
  intros Hused. unfold resolver.Answer.
  destruct (resolver.asleep source now); [reflexivity|].
  destruct request as [req|]; [|reflexivity].
  destruct (negb (dns.RecursionDesired (dns.Hdr_ req))); [reflexivity|].
  unfold resolver.query.
  match goal with
  | |- context [network now ?p _ _] => destruct (network now p _ _) as [[e|e|e|r] took]
  end; cbn; try reflexivity.
  apply String.eqb_neq in Hused. rewrite Hused. now rewrite andb_false_r.
Qed.


End AnswerBehaviour.

Lemma requests_without_recursion_never_contact_witness :
  Forall (fun call : spec.AnswerCall => spec.wantsRecursion call.2 = false)
    [(0, None, None, None);
     (fixtures.seconds 1, None, None,
      Some (fixtures.askNoRecursion 1 "test." dns.TypeA))]
  /\ (spec.answerAll fixtures.reachable (fixtures.upstream, [])
        [(0, None, None, None);
         (fixtures.seconds 1, None, None,
          Some (fixtures.askNoRecursion 1 "test." dns.TypeA))]).2 = [].
Proof.
  assert (H : Forall (fun call : spec.AnswerCall => spec.wantsRecursion call.2 = false)
                [(0, None, None, None);
                 (fixtures.seconds 1, None, None,
                  Some (fixtures.askNoRecursion 1 "test." dns.TypeA))])
    by (repeat constructor).
  exact (conj H (requests_without_recursion_never_contact
                   fixtures.reachable fixtures.upstream [] _ H)).
Defined.

Lemma Answer_forwards_reply_witness :
  resolver.asleep fixtures.upstream 0 = false
  /\ dns.RecursionDesired (dns.Hdr_ (fixtures.ask 1 "test." dns.TypeA)) = true
  /\ resolver.exchange
       (fixtures.reachable 0 "tcp" (resolver.remoteAddress fixtures.upstream)
          (fixtures.ask 1 "test." dns.TypeA))
     = resolver.Reply (fixtures.answerA 1 60)
  /\ exists context',
       resolver.Answer fixtures.reachable fixtures.upstream [] 0
         (Some {| resolver.Protocol := "tcp" |}) None
         (Some (fixtures.ask 1 "test." dns.TypeA))
       = (resolver.withBackoff fixtures.upstream None,
          [] ++ [{| resolver.at_ := 0; resolver.coType_ := "tcp";
                    resolver.peer_ := resolver.remoteAddress fixtures.upstream |}],
          context', (Some (fixtures.answerA 1 60), None)).
Proof.
  assert (H1 : resolver.asleep fixtures.upstream 0 = false) by reflexivity.
  assert (H2 : dns.RecursionDesired (dns.Hdr_ (fixtures.ask 1 "test." dns.TypeA)) = true)
    by reflexivity.
  assert (H3 : resolver.exchange
                 (fixtures.reachable 0 "tcp" (resolver.remoteAddress fixtures.upstream)
                    (fixtures.ask 1 "test." dns.TypeA))
               = resolver.Reply (fixtures.answerA 1 60)) by reflexivity.
  exact (conj H1 (conj H2 (conj H3
           (Answer_forwards_reply fixtures.reachable fixtures.upstream [] 0
              (Some {| resolver.Protocol := "tcp" |}) None _ "tcp" _
              H1 H2 eq_refl H3)))).
Defined.

Lemma Answer_keeps_first_source_witness :
  resolver.SourceUsed {| resolver.Visited := []; resolver.SourceUsed := "hostfile:/etc/hosts" |}
  <> ""
  /\ (resolver.Answer fixtures.reachable fixtures.upstream [] 0 None
        (Some {| resolver.Visited := []; resolver.SourceUsed := "hostfile:/etc/hosts" |})
        (Some (fixtures.ask 1 "test." dns.TypeA))).1.2
     = Some {| resolver.Visited := []; resolver.SourceUsed := "hostfile:/etc/hosts" |}.
Proof.
  assert (H : resolver.SourceUsed
                {| resolver.Visited := []; resolver.SourceUsed := "hostfile:/etc/hosts" |}
              <> "") by discriminate.
  exact (conj H (Answer_keeps_first_source fixtures.reachable fixtures.upstream [] 0
                   None _ (Some (fixtures.ask 1 "test." dns.TypeA)) H)).
Defined.


(** ** The hostfile source *)

Section HostfileBehaviour.

Variable source : resolver.hostFileSource.

#[local] Abbreviation answersFor name :=
  (Forall (fun rr : option dns.RR =>
             match rr with
             | Some rr => dns.Hdr rr
                          = {| dns.Name := name;
                               dns.Rrtype := dns.Rrtype (dns.Hdr rr);
                               dns.Class := dns.ClassINET; dns.Ttl := 0 |}
             | None => True
             end)).

Lemma respondToA_hostReply request q r :
  spec.hostReply request q r ->
  spec.hostReply request q (resolver.respondToA source (dns.QName q) r).
Proof.
  intros (Hid & Hresp & Hrc & Hq & Hns & Hex & Hall). unfold resolver.respondToA.
  destruct (resolver.hostEntries source !! dns.QName q) as [val|];
    [|now repeat split].
  repeat split; try assumption. cbn. apply Forall_app. split; [exact Hall|].
  apply Forall_fmap, Forall_true. intros [ip|]; cbn; [|exact I].
  destruct (net.To4 ip); [reflexivity|]. destruct (net.To16 ip); [reflexivity|exact I].
Qed.

Lemma respondToPTR_hostReply request q r :
  spec.hostReply request q r ->
  spec.hostReply request q (resolver.respondToPTR source (dns.QName q) r).
Proof.
  intros (Hid & Hresp & Hrc & Hq & Hns & Hex & Hall). unfold resolver.respondToPTR.
  destruct (resolver.reverseLookup source !! dns.QName q) as [val|];
    [|now repeat split].
  repeat split; try assumption. cbn. apply Forall_app. split; [exact Hall|].
  apply Forall_fmap, Forall_true. intros [|c ptr]; cbn; [exact I|reflexivity].
Qed.

Lemma respondToCNAME_hostReply request q r :
  spec.hostReply request q r ->
  spec.hostReply request q (resolver.respondToCNAME source (dns.QName q) r).
Proof.
  intros (Hid & Hresp & Hrc & Hq & Hns & Hex & Hall). unfold resolver.respondToCNAME.
  destruct (resolver.cnameEntries source !! dns.QName q) as [cname|];
    [|now repeat split].
  destruct (String.eqb "" cname); repeat split; try assumption; cbn;
    repeat constructor.
Qed.

(** What the hostfile returns, for every request: it never fails and
    never reports an error.  It gives no response, and leaves the
    context alone, exactly when the request has no question or its
    first question is of a type other than ANY, A, AAAA, PTR and
    CNAME.  Otherwise the response carries the id of the request, is
    marked as a successful response to the first question alone, and
    every record it holds is for the name asked, with ttl 0; the
    context, when there is one, names the hostfile as the source, also
    when the response holds no record and whatever source the context
    named before. *)
Theorem hostFileAnswer_reply context request :
  exists context' response,
    resolver.hostFileAnswer source context request = Ret (context', (response, None))
    /\ match response with
       | None =>
           context' = context
           /\ match dns.Questions request with
              | [] => True
              | q :: _ => dns.Qtype q ∉ spec.hostfileTypes
              end
       | Some r =>
           context' = (fun ctx => resolver.withSourceUsed ctx
                                    ("hostfile:" +:+ resolver.filePath source))
                      <$> context
           /\ exists q rest,
                dns.Questions request = q :: rest
                /\ dns.Qtype q ∈ spec.hostfileTypes
                /\ spec.hostReply request q r
       end.
Proof.
  unfold resolver.hostFileAnswer.
  destruct (dns.Questions request) as [|q rest] eqn:Hq.
  { exists context, None. repeat split. }
  assert (Hfresh : forall (fresh : dns.Msg),
             dns.Answer fresh = [] -> dns.Ns fresh = [] -> dns.Extra fresh = [] ->
             exists r, dns.SetReply fresh (Some request) = Ret r
                       /\ spec.hostReply request q r).
  { intros fresh Ha Hn He. eexists. split; [reflexivity|].
    unfold spec.hostReply; cbn. rewrite Hq, Ha, Hn, He. repeat split. constructor. }
  unfold spec.hostfileTypes.
  destruct (Z.eqb_spec (dns.Qtype q) dns.TypeANY) as [EY|NY];
    destruct (Z.eqb_spec (dns.Qtype q) dns.TypeA) as [EA|NA];
    destruct (Z.eqb_spec (dns.Qtype q) dns.TypeAAAA) as [E6|N6];
    destruct (Z.eqb_spec (dns.Qtype q) dns.TypePTR) as [EP|NP];
    destruct (Z.eqb_spec (dns.Qtype q) dns.TypeCNAME) as [EC|NC];
    cbn [negb andb orb];
    try (exfalso; unfold dns.TypeANY, dns.TypeA, dns.TypeAAAA, dns.TypePTR,
           dns.TypeCNAME in *; lia);
    try (exists context, None; split; [reflexivity|]; split; [reflexivity|];
         rewrite !elem_of_cons, elem_of_nil; tauto);
    match goal with
    | |- context [dns.SetReply ?fresh (Some request)] =>
        destruct (Hfresh fresh eq_refl eq_refl eq_refl) as (r & -> & Hr)
    end;
    cbn [mbind Outcome_bind];
    eexists _, (Some _); (split; [reflexivity|]); (split; [now destruct context|]);
    exists q, rest; (split; [reflexivity|]);
    (split; [rewrite !elem_of_cons; tauto|]);
    repeat first [ apply respondToPTR_hostReply
                 | apply respondToA_hostReply
                 | apply respondToCNAME_hostReply
                 | match goal with
                   | |- context [if ?b then _ else _] => destruct b
                   end ];
    exact Hr.
Qed.

(** An alias comes first: when the hostfile knows the name asked as an
    alias (of a target that is not the empty text), a question of type
    A, AAAA or CNAME is answered with the CNAME record alone, whatever
    addresses the hostfile has for the name. *)
Theorem hostFileAnswer_alias_first context request q rest cname :
  dns.Questions request = q :: rest ->
  dns.Qtype q ∈ [dns.TypeA; dns.TypeAAAA; dns.TypeCNAME] ->
  resolver.cnameEntries source !! dns.QName q = Some cname ->
  cname <> "" ->
  exists context' r,
    resolver.hostFileAnswer source context request = Ret (context', (Some r, None))
    /\ dns.Answer r
       = [Some {| dns.Hdr := {| dns.Name := dns.QName q; dns.Rrtype := dns.TypeCNAME;
                                dns.Class := dns.ClassINET; dns.Ttl := 0 |};
                  dns.Data := dns.CNAME (resolver.fqdn cname) |}].
Proof.
  intros Hq Ht Hc Hne. unfold resolver.hostFileAnswer. rewrite Hq.
  destruct cname as [|c cname]; [congruence|].
  rewrite !elem_of_cons, elem_of_nil in Ht.
  destruct Ht as [-> | [-> | [-> | []]]]; cbn;
    unfold resolver.respondToCNAME; cbn; rewrite Hc; cbn;
    eexists _, _; split; reflexivity.
Qed.

(** The hostfile does not tell A from AAAA: two requests for the same
    name, one of type A and one of type AAAA, receive the same
    records. *)
Theorem hostFileAnswer_A_and_AAAA_alike context4 context6 request4 request6
    q4 rest4 q6 rest6 :
  dns.Questions request4 = q4 :: rest4 -> dns.Qtype q4 = dns.TypeA ->
  dns.Questions request6 = q6 :: rest6 -> dns.Qtype q6 = dns.TypeAAAA ->
  dns.QName q4 = dns.QName q6 ->
  exists context4' context6' r4 r6,
    resolver.hostFileAnswer source context4 request4 = Ret (context4', (Some r4, None))
    /\ resolver.hostFileAnswer source context6 request6
       = Ret (context6', (Some r6, None))
    /\ dns.Answer r4 = dns.Answer r6.
Proof.
  intros Hq4 Ht4 Hq6 Ht6 Hname. unfold resolver.hostFileAnswer.
  rewrite Hq4, Hq6, Ht4, Ht6, Hname. cbn.
  unfold resolver.respondToCNAME, resolver.respondToA. cbn.
  destruct (resolver.cnameEntries source !! dns.QName q6) as [cname|]; cbn.
  - destruct cname; cbn; eexists _, _, _, _; repeat split.
  - destruct (resolver.hostEntries source !! dns.QName q6); cbn;
      eexists _, _, _, _; repeat split.
Qed.

End HostfileBehaviour.

Lemma hostFileAnswer_alias_first_witness :
  dns.Questions (fixtures.ask 1 "files.lan." dns.TypeA)
  = [fixtures.question "files.lan." dns.TypeA]
  /\ resolver.hostEntries fixtures.lanHosts !! "files.lan."
     = Some [Some (net.v4InV6Prefix ++ [192; 0; 2; 11])]
  /\ resolver.cnameEntries fixtures.lanHosts !! "files.lan." = Some "nas.lan."
  /\ exists context' r,
       resolver.hostFileAnswer fixtures.lanHosts None
         (fixtures.ask 1 "files.lan." dns.TypeA)
       = Ret (context', (Some r, None))
       /\ dns.Answer r
          = [Some {| dns.Hdr :=
                       {| dns.Name :=
                            dns.QName (fixtures.question "files.lan." dns.TypeA);
                          dns.Rrtype := dns.TypeCNAME;
                          dns.Class := dns.ClassINET; dns.Ttl := 0 |};
                     dns.Data := dns.CNAME (resolver.fqdn "nas.lan.") |}].
Proof.
  assert (H1 : dns.Questions (fixtures.ask 1 "files.lan." dns.TypeA)
               = [fixtures.question "files.lan." dns.TypeA]) by reflexivity.
  assert (H2 : resolver.hostEntries fixtures.lanHosts !! "files.lan."
               = Some [Some (net.v4InV6Prefix ++ [192; 0; 2; 11])])
    by (vm_compute; reflexivity).
  assert (H3 : resolver.cnameEntries fixtures.lanHosts
                 !! dns.QName (fixtures.question "files.lan." dns.TypeA)
               = Some "nas.lan.") by (vm_compute; reflexivity).
  assert (H4 : dns.Qtype (fixtures.question "files.lan." dns.TypeA)
               ∈ [dns.TypeA; dns.TypeAAAA; dns.TypeCNAME]) by (cbn; left).
  assert (H5 : "nas.lan." <> "") by discriminate.
  exact (conj H1 (conj H2 (conj H3
           (hostFileAnswer_alias_first fixtures.lanHosts None _ _ _ _ H1 H4 H3 H5)))).
Defined.

Lemma hostFileAnswer_A_and_AAAA_alike_witness :
  dns.Qtype (fixtures.question "nas.lan." dns.TypeA) = dns.TypeA
  /\ dns.Qtype (fixtures.question "nas.lan." dns.TypeAAAA) = dns.TypeAAAA
  /\ exists context4' context6' r4 r6,
       resolver.hostFileAnswer fixtures.lanHosts None
         (fixtures.ask 1 "nas.lan." dns.TypeA)
       = Ret (context4', (Some r4, None))
       /\ resolver.hostFileAnswer fixtures.lanHosts None
            (fixtures.ask 2 "nas.lan." dns.TypeAAAA)
          = Ret (context6', (Some r6, None))
       /\ dns.Answer r4 = dns.Answer r6.
Proof.
  assert (H1 : dns.Qtype (fixtures.question "nas.lan." dns.TypeA) = dns.TypeA)
    by reflexivity.
  assert (H2 : dns.Qtype (fixtures.question "nas.lan." dns.TypeAAAA) = dns.TypeAAAA)
    by reflexivity.
  exact (conj H1 (conj H2
           (hostFileAnswer_A_and_AAAA_alike fixtures.lanHosts None None
              (fixtures.ask 1 "nas.lan." dns.TypeA)
              (fixtures.ask 2 "nas.lan." dns.TypeAAAA)
              _ [] _ [] eq_refl H1 eq_refl H2 eq_refl))).
Defined.

(** ** The engine: consumers, validation and blocking *)

Section EngineBehaviour.

Context {RS : Type}.
Variable ParseIP : string -> option net.IP.
Variable cidrContains : string -> net.IP -> bool.

#[local] Abbreviation handle := (engine.Handle (RS := RS) ParseIP cidrContains).
#[local] Abbreviation consumerFor :=
  (engine.getConsumerForIp (RS := RS) ParseIP cidrContains).
#[local] Abbreviation selected := (spec.selects ParseIP cidrContains).

Ltac bare Hq := unfold spec.bareReply; cbn; rewrite ?Hq; now repeat split.

Lemma findConsumer_first active consumerIp found :
  engine.findConsumer ParseIP cidrContains active consumerIp = Ret found ->
  match found with
  | Some c => exists before after,
                active = before ++ c :: after
                /\ selected c consumerIp
                /\ Forall (fun c' => ~ selected c' consumerIp) before
  | None => Forall (fun c' => ~ selected c' consumerIp) active
  end.
Proof.
  revert found. induction active as [|c rest IH]; intros found H; cbn in H.
  - injection H as <-. constructor.
  - destruct (engine.configConsumer c) as [cc|] eqn:Hcc; [|discriminate].
    destruct (existsb _ (engine.Matches cc)) eqn:Hex.
    + injection H as <-. exists [], rest. split_and!; [reflexivity| |constructor].
      apply existsb_exists in Hex as (m & Hin & Hm).
      exists cc, m. split_and!; [assumption|now apply list_elem_of_In|assumption].
    + assert (Hnot : ~ selected c consumerIp).
      { intros (cc' & m & Hcc' & Hin & Hm). rewrite Hcc in Hcc'.
        injection Hcc' as <-. apply not_true_iff_false in Hex. apply Hex.
        apply existsb_exists. exists m. split; [now apply list_elem_of_In|assumption]. }
      specialize (IH _ H). destruct found as [c'|].
      * destruct IH as (before & after & -> & Hsel & Hbefore).
        exists (c :: before), after. split_and!; [reflexivity|assumption|].
        now constructor.
      * now constructor.
Qed.

(** The consumer of a client address is the first consumer of the
    engine, in the order of the configuration, one of whose matches
    selects the address; when no consumer selects it, it is the
    default consumer. *)
Theorem getConsumerForIp_first_match_or_default e consumerIp found :
  consumerFor e consumerIp = Ret found ->
  (exists c before after,
     found = Some c
     /\ engine.consumers e = before ++ c :: after
     /\ selected c consumerIp
     /\ Forall (fun c' => ~ selected c' consumerIp) before)
  \/ (found = engine.defaultConsumer e
      /\ Forall (fun c' => ~ selected c' consumerIp) (engine.consumers e)).
Proof.
  unfold engine.getConsumerForIp. intros H.
  destruct (engine.findConsumer ParseIP cidrContains (engine.consumers e) consumerIp)
    as [first|] eqn:Hfind; cbn in H; [|discriminate].
  apply findConsumer_first in Hfind. destruct first as [c|]; injection H as <-.
  - destruct Hfind as (before & after & Heq & Hsel & Hbefore).
    left. now exists c, before, after.
  - now right.
Qed.

Variable e : engine.engine RS.
Variable address : net.IP.
Variable c : engine.consumer.
Variable cc : engine.GudgeonConsumer.
Hypothesis Hconsumer : consumerFor e address = Ret (Some c).
Hypothesis Hconfig : engine.configConsumer c = Some cc.

(** Requests are turned away in a fixed order before anything is
    looked up: a request without a question is refused; else a name
    of length 0 or above 255 is a bad name, whatever the type; else a
    type that is not implemented is reported as such, also to a
    blocked consumer.  The reply carries the code alone, the result
    names the consumer and nothing else, and the state of the
    resolvers is as before. *)
Theorem Handle_turns_away s protocol fuel req :
  match dns.Questions req with
  | [] => True
  | q :: _ =>
      (String.length (dns.QName q) < 1)%nat
      \/ (255 < String.length (dns.QName q))%nat
      \/ engine.notImplemented (dns.Qtype q) = true
  end ->
  exists response,
    handle (S fuel) e s address protocol (Some req)
    = Some (Ret (s, (response, {| resolver.Protocol := protocol |},
                     engine.withConsumer engine.zeroResult (engine.Name cc))))
    /\ spec.bareReply req
         match dns.Questions req with
         | [] => dns.RcodeRefused
         | q :: _ =>
             if bool_decide (1 <= String.length (dns.QName q) <= 255)%nat
             then dns.RcodeNotImplemented
             else dns.RcodeBadName
         end response.
Proof.
  intros H. unfold engine.Handle. cbn [engine.performRequest].
  unfold engine.run. rewrite Hconsumer, Hconfig.
  destruct (dns.Questions req) as [|q rest] eqn:Hq.
  { cbn. rewrite Hq. eexists. split; [reflexivity|]. bare Hq. }
  destruct (Nat.ltb_spec (String.length (dns.QName q)) 1) as [Hl1|Hl1];
    [|destruct (Nat.ltb_spec 255 (String.length (dns.QName q))) as [Hl2|Hl2]];
    cbn [orb].
  - cbn. rewrite Hq. eexists. split; [reflexivity|].
    rewrite bool_decide_eq_false_2 by lia. bare Hq.
  - cbn. rewrite Hq. eexists. split; [reflexivity|].
    rewrite bool_decide_eq_false_2 by lia. bare Hq.
  - destruct H as [H|[H|H]]; [lia|lia|]. rewrite H.
    cbn. rewrite Hq. eexists. split; [reflexivity|].
    rewrite bool_decide_eq_true_2 by lia. bare Hq.
Qed.

(** A blocked consumer is answered with a name error, not with a
    refusal: the refusal code is set before the message is made a
    reply, which resets the code, and the reply has no record, so the
    code of an empty response is given to it.  Neither the rule store
    nor the resolvers are consulted; the result is marked blocked. *)
Theorem Handle_blocked_consumer s protocol fuel req q rest :
  engine.Block cc = true ->
  dns.Questions req = q :: rest ->
  (1 <= String.length (dns.QName q) <= 255)%nat ->
  engine.notImplemented (dns.Qtype q) = false ->
  exists response,
    handle (S fuel) e s address protocol (Some req)
    = Some (Ret (s, (response, {| resolver.Protocol := protocol |},
                     engine.withBlocked
                       (engine.withConsumer engine.zeroResult (engine.Name cc)) true)))
    /\ spec.bareReply req dns.RcodeNameError response.
Proof.
  intros Hblock Hq Hlen Hni. unfold engine.Handle. cbn [engine.performRequest].
  unfold engine.run at 1. rewrite Hconsumer, Hconfig, Hq.
  assert (Hl1 : (String.length (dns.QName q) <? 1)%nat = false)
    by (apply Nat.ltb_ge; lia).
  assert (Hl2 : (255 <? String.length (dns.QName q))%nat = false)
    by (apply Nat.ltb_ge; lia).
  rewrite Hl1, Hl2, Hni, Hblock. cbn. rewrite Hq.
  eexists. split; [reflexivity|]. bare Hq.
Qed.

(** A name that a rule blocks is not resolved: the resolvers are not
    asked (their state is as before), the reply is a name error
    without records, and the result records the verdict, the list
    and the rule. *)
Theorem Handle_rule_blocked s protocol fuel req q rest list ruleText :
  engine.Block cc = false ->
  dns.Questions req = q :: rest ->
  (1 <= String.length (dns.QName q) <= 255)%nat ->
  engine.notImplemented (dns.Qtype q) = false ->
  engine.domainRuleMatchedForConsumer e c (dns.QName q)
  = Ret (rule.MatchBlock, list, ruleText) ->
  exists response,
    handle (S fuel) e s address protocol (Some req)
    = Some (Ret (s, (response, {| resolver.Protocol := protocol |},
                     engine.withMatch
                       (engine.withConsumer engine.zeroResult (engine.Name cc))
                       rule.MatchBlock list ruleText)))
    /\ spec.bareReply req dns.RcodeNameError response.
Proof.
  intros Hblock Hq Hlen Hni Hrule. unfold engine.Handle. cbn [engine.performRequest].
  unfold engine.run at 1. rewrite Hconsumer, Hconfig, Hq.
  assert (Hl1 : (String.length (dns.QName q) <? 1)%nat = false)
    by (apply Nat.ltb_ge; lia).
  assert (Hl2 : (255 <? String.length (dns.QName q))%nat = false)
    by (apply Nat.ltb_ge; lia).
  rewrite Hl1, Hl2, Hni, Hblock. cbn [orb].
  unfold engine.run at 1. rewrite Hrule. cbn. rewrite Hq.
  eexists. split; [reflexivity|]. bare Hq.
Qed.

End EngineBehaviour.

(** ** The engine: rules and resolution *)

Lemma rev_append acc a b :
  Strings.rev acc (a +:+ b) = Strings.rev (Strings.rev acc a) b.
Proof. revert acc. induction a as [|ch a IH]; intros acc; cbn; [reflexivity|apply IH]. Qed.

Lemma HasSuffix_dot d : Strings.HasSuffix (d +:+ ".") "." = true.
Proof.
  unfold Strings.HasSuffix. rewrite rev_append. cbn.
  destruct (Strings.rev "" d); reflexivity.
Qed.

Lemma substring_all d x : String.substring 0 (String.length d) (d +:+ x) = d.
Proof.
  induction d as [|ch d IH]; cbn.
  - destruct x; reflexivity.
  - change (String ch (substring 0 (String.length d) (d +:+ x)) = String ch d).
    now rewrite IH.
Qed.

Lemma length_append_one d : (String.length (d +:+ ".") - 1 = String.length d)%nat.
Proof.
  assert (H : String.length (d +:+ ".") = S (String.length d)).
  { induction d as [|ch d IH]; [reflexivity|].
    change (S (String.length (d +:+ ".")) = S (S (String.length d))).
    now rewrite IH. }
  rewrite H. lia.
Qed.

Lemma setNames_renames name rrs :
  Forall (fun rr : option dns.RR => rr <> None) rrs ->
  engine.setNames name rrs
  = Ret (map (fun rr => (fun r => dns.withName r name) <$> rr) rrs).
Proof.
  induction 1 as [|[r|] rest Hr Hrest IH]; cbn; [reflexivity| |congruence].
  now rewrite IH.
Qed.

Lemma hasPayload_renamed name rrs :
  existsb util.hasPayload (map (fun rr => (fun r => dns.withName r name) <$> rr) rrs)
  = existsb util.hasPayload rrs.
Proof.
  induction rrs as [|[r|] rest IH]; cbn; [reflexivity| |exact IH].
  now rewrite IH.
Qed.


Section EngineResolution.

Context {RS : Type}.
Variable ParseIP : string -> option net.IP.
Variable cidrContains : string -> net.IP -> bool.

#[local] Abbreviation handle := (engine.Handle (RS := RS) ParseIP cidrContains).
#[local] Abbreviation consumerFor :=
  (engine.getConsumerForIp (RS := RS) ParseIP cidrContains).

(** The rules see a name and its fully qualified form, with the
    closing dot, alike. *)
Theorem domainRuleMatchedForConsumer_ignores_closing_dot
    (e : engine.engine RS) c domain :
  Strings.HasSuffix domain "." = false ->
  engine.domainRuleMatchedForConsumer e c (domain +:+ ".")
  = engine.domainRuleMatchedForConsumer e c domain.
Proof.
  intros H. unfold engine.domainRuleMatchedForConsumer.
  now rewrite HasSuffix_dot, H, length_append_one, substring_all.
Qed.

Variable e : engine.engine RS.
Variable address : net.IP.
Variable c : engine.consumer.
Variable cc : engine.GudgeonConsumer.
Hypothesis Hconsumer : consumerFor e address = Ret (Some c).
Hypothesis Hconfig : engine.configConsumer c = Some cc.

(** Whatever path the request takes, what [Handle] returns names the
    consumer of the client and carries the protocol of the call: the
    result of the resolvers is given the name of the consumer too. *)
Theorem Handle_names_consumer_and_protocol
    fuel s protocol request s' response rCon result :
  handle fuel e s address protocol request
  = Some (Ret (s', (response, rCon, result))) ->
  rCon = {| resolver.Protocol := protocol |}
  /\ resolver.Consumer result = engine.Name cc.
Proof.
  destruct fuel as [|fuel]; [discriminate|].
  unfold engine.Handle. cbn [engine.performRequest].
  unfold engine.run at 1. rewrite Hconsumer, Hconfig.
  unfold engine.reply, engine.recover, engine.run.
  intros H.
  repeat match type of H with
         | context [match ?x with _ => _ end] =>
             destruct x eqn:?; cbn [mbind Outcome_bind mret Outcome_ret] in H;
             try discriminate H
         | context [if ?b then _ else _] =>
             destruct b eqn:?; cbn [mbind Outcome_bind mret Outcome_ret] in H;
             try discriminate H
         end;
    injection H as <- <- <- <-; split; reflexivity.
Qed.

Variable s s1 : RS.
Variable protocol : string.
Variable fuel : nat.
Variable req : dns.Msg.
Variable q : dns.Question.
Variable rest : list dns.Question.
Variable m : rule.Match.
Variable list : option config.GudgeonList.
Variable ruleText : string.
Variable response : option dns.Msg.
Variable result : option resolver.ResolutionResult.
Variable err : option string.
Hypothesis Hblock : engine.Block cc = false.
Hypothesis Hq : dns.Questions req = q :: rest.
Hypothesis Hlen : (1 <= String.length (dns.QName q) <= 255)%nat.
Hypothesis Hni : engine.notImplemented (dns.Qtype q) = false.
Hypothesis Hrule :
  engine.domainRuleMatchedForConsumer e c (dns.QName q) = Ret (m, list, ruleText).
Hypothesis Hm : m <> rule.MatchBlock.
Hypothesis Hresolved :
  engine.AnswerMultiResolvers (engine.resolvers e) s
    {| resolver.Protocol := protocol |} (engine.getResolvers c) req
  = Ret (s1, (response, result, err)).

Lemma Handle_resolved :
  handle (S fuel) e s address protocol (Some req)
  = engine.run
      (match err with
       | Some _ => Some (Ret (s1, response))
       | None =>
           engine.run
             (engine.handleCnameResolution
                (engine.performRequest ParseIP cidrContains fuel e)
                s1 address protocol (Some req) response)
             (fun '(s2, cnameResponse) =>
                if negb (util.IsEmptyResponse cnameResponse)
                then Some (Ret (s2, cnameResponse))
                else Some (Ret (s2, response)))
       end)
      (fun '(s', response') =>
         let response' := default dns.newMsg response' in
         engine.run
           (if util.IsEmptyResponse (Some response')
            then Some (reply' ← dns.SetReply response' (Some req);
                       Ret (dns.withRcode reply' dns.RcodeNameError))
            else Some (Ret response'))
           (fun out =>
              Some (Ret (s', (out, {| resolver.Protocol := protocol |},
                              engine.withConsumer (default engine.zeroResult result)
                                (engine.Name cc)))))).
Proof.
  unfold engine.Handle. cbn [engine.performRequest].
  unfold engine.run at 1. rewrite Hconsumer, Hconfig, Hq.
  assert (Hl1 : (String.length (dns.QName q) <? 1)%nat = false)
    by (apply Nat.ltb_ge; lia).
  assert (Hl2 : (255 <? String.length (dns.QName q))%nat = false)
    by (apply Nat.ltb_ge; lia).
  rewrite Hl1, Hl2, Hni, Hblock. cbn [orb].
  unfold engine.run at 1. rewrite Hrule.
  rewrite (bool_decide_eq_true_2 _ Hm).
  unfold engine.run at 1. rewrite Hresolved.
  unfold engine.recover.
  destruct err as [msg|]; [reflexivity|].
  unfold engine.run.
  destruct (engine.handleCnameResolution _ s1 address protocol (Some req) response)
    as [[[s2 cnameResponse]|v]|]; [|reflexivity|reflexivity].
  destruct (negb (util.IsEmptyResponse cnameResponse)); reflexivity.
Qed.

(** An answer of the resolvers that is not empty and does not begin
    with an alias to chase is returned as it is, with the state the
    resolvers left; the result is the one of the resolvers under the
    name of the consumer, so a verdict of the rules recorded before
    the resolution is not in it. *)
Theorem Handle_passes_answer_through (answer : dns.Msg) :
  response = Some answer ->
  err = None ->
  util.IsEmptyResponse (Some answer) = false ->
  match dns.Answer answer with
  | Some first :: _ =>
      dns.Rrtype (dns.Hdr first) <> dns.TypeCNAME \/ dns.Qtype q = dns.TypeCNAME
  | _ => True
  end ->
  handle (S fuel) e s address protocol (Some req)
  = Some (Ret (s1, (answer, {| resolver.Protocol := protocol |},
                    engine.withConsumer (default engine.zeroResult result)
                      (engine.Name cc)))).
Proof.
  intros Hresponse Herr Hfull Hfirst. rewrite Handle_resolved, Herr, Hresponse.
  assert (Hchase : engine.handleCnameResolution
                     (engine.performRequest ParseIP cidrContains fuel e)
                     s1 address protocol (Some req) (Some answer)
                   = Some (Ret (s1, None))).
  { unfold engine.handleCnameResolution. rewrite Hq.
    destruct (dns.Answer answer) as [|[first|] others]; try reflexivity.
    destruct Hfirst as [Hfirst|Hfirst].
    - apply Z.eqb_neq in Hfirst. now rewrite Hfirst.
    - rewrite Hfirst, Z.eqb_refl. now rewrite andb_false_r. }
  rewrite Hchase. unfold engine.run.
  change (util.IsEmptyResponse None) with true. cbn [negb]. cbv beta iota zeta.
  change (default dns.newMsg (Some answer)) with answer.
  now rewrite Hfull.
Qed.

(** Without an answer there is a name error: when the resolvers give
    an empty response, or none, and either report an error or hold no
    answer record at all, the reply is that response (a fresh message
    when there is none) set as reply to the request with the code of
    a name error. *)
Theorem Handle_no_answer_is_name_error :
  util.IsEmptyResponse response = true ->
  err <> None \/ default [] (dns.Answer <$> response) = [] ->
  exists reply,
    handle (S fuel) e s address protocol (Some req)
    = Some (Ret (s1, (reply, {| resolver.Protocol := protocol |},
                      engine.withConsumer (default engine.zeroResult result)
                        (engine.Name cc))))
    /\ dns.Id (dns.Hdr_ reply) = dns.Id (dns.Hdr_ req)
    /\ dns.Response (dns.Hdr_ reply) = true
    /\ dns.Rcode (dns.Hdr_ reply) = dns.RcodeNameError
    /\ dns.Questions reply = [q]
    /\ dns.Answer reply = default [] (dns.Answer <$> response).
Proof.
  intros Hempty Hnone. rewrite Handle_resolved.
  assert (Hdefault : util.IsEmptyResponse (Some (default dns.newMsg response)) = true)
    by (destruct response; [exact Hempty|reflexivity]).
  assert (Hchase : err = None ->
                   engine.handleCnameResolution
                     (engine.performRequest ParseIP cidrContains fuel e)
                     s1 address protocol (Some req) response
                   = Some (Ret (s1, None))).
  { intros Herr. destruct Hnone as [Hnone|Hnone]; [easy|].
    destruct response as [r|]; [|reflexivity]. cbn in Hnone.
    unfold engine.handleCnameResolution. now rewrite Hnone. }
  destruct err as [msg|]; [|rewrite (Hchase eq_refl)];
    unfold engine.run; change (util.IsEmptyResponse None) with true;
    cbn [negb]; cbv beta iota zeta; rewrite Hdefault; cbn; rewrite Hq;
    (eexists; split; [reflexivity|]); cbn; split_and!; try reflexivity;
    now destruct response.
Qed.


(** An alias is followed: when the first record of the answer is a
    CNAME record and the question is not for CNAME records, the
    request is made again for the target of the record, and what that
    request yields, when it is not empty, is returned under the name
    first asked and as reply to the first request.  The result stays
    the one of the first resolution; the one of the second request is
    dropped. *)
Theorem Handle_follows_alias answer first others target s2 chased rCon2 result2 :
  response = Some answer ->
  err = None ->
  dns.Answer answer = Some first :: others ->
  dns.Rrtype (dns.Hdr first) = dns.TypeCNAME ->
  dns.Data first = dns.CNAME target ->
  dns.Qtype q <> dns.TypeCNAME ->
  dns.Copy req = Ret req ->
  engine.performRequest ParseIP cidrContains fuel e s1 address protocol
    (Some (dns.withQuestions req
             ({| dns.QName := target; dns.Qtype := dns.Qtype q;
                 dns.Qclass := dns.Qclass q |} :: rest)))
  = Some (Ret (s2, (chased, rCon2, result2))) ->
  util.IsEmptyResponse (Some chased) = false ->
  Forall (fun rr : option dns.RR => rr <> None) (dns.Answer chased) ->
  exists out,
    handle (S fuel) e s address protocol (Some req)
    = Some (Ret (s2, (out, {| resolver.Protocol := protocol |},
                      engine.withConsumer (default engine.zeroResult result)
                        (engine.Name cc))))
    /\ dns.Id (dns.Hdr_ out) = dns.Id (dns.Hdr_ req)
    /\ dns.Questions out = [q]
    /\ dns.Answer out
       = map (fun rr => (fun r => dns.withName r (dns.QName q)) <$> rr)
           (dns.Answer chased)
    /\ dns.Ns out = dns.Ns chased /\ dns.Extra out = dns.Extra chased.
Proof.
  intros Hresponse Herr Hanswer Hrr Hdata Hqt Hcopy Hperform Hfull Hset.
  rewrite Handle_resolved, Herr, Hresponse.
  unfold engine.handleCnameResolution. rewrite Hanswer, Hq, Hrr, Z.eqb_refl.
  apply Z.eqb_neq in Hqt. rewrite Hqt. cbn [negb andb].
  unfold engine.run at 3. rewrite Hcopy, Hdata, Hq.
  unfold engine.run at 3. rewrite Hperform, Hfull. cbn [negb].
  rewrite (setNames_renames _ _ Hset).
  unfold util.IsEmptyResponse in Hfull. apply negb_false_iff in Hfull.
  cbn. rewrite Hq. cbn. rewrite hasPayload_renamed, Hfull. cbn.
  rewrite hasPayload_renamed, Hfull. cbn.
  eexists. split; [reflexivity|]. cbn. now rewrite ?Hq.
Qed.


End EngineResolution.

Lemma getConsumerForIp_first_match_or_default_witness :
  engine.getConsumerForIp net.parseIPv4 fixtures.noNetwork fixtures.guardedEngine
    [192; 0; 2; 150]
  = Ret (Some fixtures.filtered)
  /\ ((exists c before after,
         Some fixtures.filtered = Some c
         /\ engine.consumers fixtures.guardedEngine = before ++ c :: after
         /\ spec.selects net.parseIPv4 fixtures.noNetwork c [192; 0; 2; 150]
         /\ Forall (fun c' => ~ spec.selects net.parseIPv4 fixtures.noNetwork c'
                                  [192; 0; 2; 150]) before)
      \/ (Some fixtures.filtered = engine.defaultConsumer fixtures.guardedEngine
          /\ Forall (fun c' => ~ spec.selects net.parseIPv4 fixtures.noNetwork c'
                                   [192; 0; 2; 150])
               (engine.consumers fixtures.guardedEngine))).
Proof.
  assert (H : engine.getConsumerForIp net.parseIPv4 fixtures.noNetwork
                fixtures.guardedEngine [192; 0; 2; 150]
              = Ret (Some fixtures.filtered)) by (vm_compute; reflexivity).
  exact (conj H (getConsumerForIp_first_match_or_default
                   net.parseIPv4 fixtures.noNetwork _ _ _ H)).
Defined.

Lemma Handle_turns_away_witness :
  engine.getConsumerForIp net.parseIPv4 fixtures.noNetwork fixtures.guardedEngine
    [192; 0; 2; 7]
  = Ret (Some fixtures.kids)
  /\ engine.notImplemented dns.TypeAXFR = true
  /\ exists response,
       engine.Handle net.parseIPv4 fixtures.noNetwork 1 fixtures.guardedEngine tt
         [192; 0; 2; 7] "tcp" (Some (fixtures.ask 1 "example.com." dns.TypeAXFR))
       = Some (Ret (tt, (response, {| resolver.Protocol := "tcp" |},
                         engine.withConsumer engine.zeroResult "kids")))
       /\ spec.bareReply (fixtures.ask 1 "example.com." dns.TypeAXFR)
            dns.RcodeNotImplemented response.
Proof.
  assert (H1 : engine.getConsumerForIp net.parseIPv4 fixtures.noNetwork
                 fixtures.guardedEngine [192; 0; 2; 7]
               = Ret (Some fixtures.kids)) by (vm_compute; reflexivity).
  assert (H2 : engine.notImplemented dns.TypeAXFR = true) by reflexivity.
  split; [exact H1|]. split; [exact H2|].
  apply (Handle_turns_away net.parseIPv4 fixtures.noNetwork fixtures.guardedEngine
           [192; 0; 2; 7] fixtures.kids _ H1 eq_refl tt "tcp" 0%nat
           (fixtures.ask 1 "example.com." dns.TypeAXFR)).
  right. right. exact H2.
Defined.

Lemma Handle_blocked_consumer_witness :
  engine.getConsumerForIp net.parseIPv4 fixtures.noNetwork fixtures.guardedEngine
    [192; 0; 2; 7]
  = Ret (Some fixtures.kids)
  /\ exists response,
       engine.Handle net.parseIPv4 fixtures.noNetwork 1 fixtures.guardedEngine tt
         [192; 0; 2; 7] "udp" (Some (fixtures.ask 1 "nas.lan." dns.TypeA))
       = Some (Ret (tt, (response, {| resolver.Protocol := "udp" |},
                         engine.withBlocked
                           (engine.withConsumer engine.zeroResult "kids") true)))
       /\ spec.bareReply (fixtures.ask 1 "nas.lan." dns.TypeA)
            dns.RcodeNameError response.
Proof.
  assert (H1 : engine.getConsumerForIp net.parseIPv4 fixtures.noNetwork
                 fixtures.guardedEngine [192; 0; 2; 7]
               = Ret (Some fixtures.kids)) by (vm_compute; reflexivity).
  split; [exact H1|].
  apply (Handle_blocked_consumer net.parseIPv4 fixtures.noNetwork
           fixtures.guardedEngine [192; 0; 2; 7] fixtures.kids _ H1 eq_refl
           tt "udp" 0%nat (fixtures.ask 1 "nas.lan." dns.TypeA)
           (fixtures.question "nas.lan." dns.TypeA) []);
    try reflexivity.
  cbn; lia.
Defined.

Lemma Handle_rule_blocked_witness :
  engine.getConsumerForIp net.parseIPv4 fixtures.noNetwork fixtures.guardedEngine
    [192; 0; 2; 150]
  = Ret (Some fixtures.filtered)
  /\ engine.domainRuleMatchedForConsumer fixtures.guardedEngine fixtures.filtered
       "ads.example.com."
     = Ret (rule.MatchBlock, Some fixtures.blockList, "example.com")
  /\ exists response,
       engine.Handle net.parseIPv4 fixtures.noNetwork 1 fixtures.guardedEngine tt
         [192; 0; 2; 150] "udp" (Some (fixtures.ask 1 "ads.example.com." dns.TypeA))
       = Some (Ret (tt, (response, {| resolver.Protocol := "udp" |},
                         engine.withMatch
                           (engine.withConsumer engine.zeroResult "filtered")
                           rule.MatchBlock (Some fixtures.blockList) "example.com")))
       /\ spec.bareReply (fixtures.ask 1 "ads.example.com." dns.TypeA)
            dns.RcodeNameError response.
Proof.
  assert (H1 : engine.getConsumerForIp net.parseIPv4 fixtures.noNetwork
                 fixtures.guardedEngine [192; 0; 2; 150]
               = Ret (Some fixtures.filtered)) by (vm_compute; reflexivity).
  assert (H2 : engine.domainRuleMatchedForConsumer fixtures.guardedEngine
                 fixtures.filtered "ads.example.com."
               = Ret (rule.MatchBlock, Some fixtures.blockList, "example.com"))
    by (vm_compute; reflexivity).
  split; [exact H1|]. split; [exact H2|].
  apply (Handle_rule_blocked net.parseIPv4 fixtures.noNetwork
           fixtures.guardedEngine [192; 0; 2; 150] fixtures.filtered _ H1 eq_refl
           tt "udp" 0%nat (fixtures.ask 1 "ads.example.com." dns.TypeA)
           (fixtures.question "ads.example.com." dns.TypeA) []);
    try reflexivity.
  cbn; lia.
Defined.

Lemma domainRuleMatchedForConsumer_ignores_closing_dot_witness :
  Strings.HasSuffix "ads.example.com" "." = false
  /\ engine.domainRuleMatchedForConsumer fixtures.guardedEngine fixtures.filtered
       ("ads.example.com" +:+ ".")
     = engine.domainRuleMatchedForConsumer fixtures.guardedEngine fixtures.filtered
         "ads.example.com".
Proof.
  assert (H : Strings.HasSuffix "ads.example.com" "." = false) by reflexivity.
  exact (conj H (domainRuleMatchedForConsumer_ignores_closing_dot
                   fixtures.guardedEngine fixtures.filtered _ H)).
Defined.

Lemma Handle_names_consumer_and_protocol_witness :
  engine.getConsumerForIp net.parseIPv4 fixtures.noNetwork fixtures.lanEngine
    fixtures.localhost
  = Ret (Some fixtures.defaultConsumer)
  /\ (exists s' response rCon result,
        engine.Handle net.parseIPv4 fixtures.noNetwork 2 fixtures.lanEngine tt
          fixtures.localhost "tcp" (Some (fixtures.ask 1 "files.lan." dns.TypeA))
        = Some (Ret (s', (response, rCon, result)))
        /\ rCon = {| resolver.Protocol := "tcp" |}
        /\ resolver.Consumer result = "default").
Proof.
  assert (H1 : engine.getConsumerForIp net.parseIPv4 fixtures.noNetwork
                 fixtures.lanEngine fixtures.localhost
               = Ret (Some fixtures.defaultConsumer)) by reflexivity.
  split; [exact H1|].
  eexists _, _, _, _. split; [vm_compute; reflexivity|].
  eapply (Handle_names_consumer_and_protocol net.parseIPv4 fixtures.noNetwork
            fixtures.lanEngine fixtures.localhost fixtures.defaultConsumer
            _ H1 eq_refl 2%nat tt "tcp"
            (Some (fixtures.ask 1 "files.lan." dns.TypeA))).
  vm_compute. reflexivity.
Defined.

Lemma Handle_passes_answer_through_witness :
  engine.AnswerMultiResolvers (engine.resolvers fixtures.lanEngine) tt
    {| resolver.Protocol := "udp" |} (engine.getResolvers fixtures.defaultConsumer)
    (fixtures.ask 1 "nas.lan." dns.TypeA)
  = Ret (tt, (Some (fixtures.replyTo (fixtures.ask 1 "nas.lan." dns.TypeA)
         [fixtures.recordA "nas.lan." 0 [192; 0; 2; 10]]),
              None, None))
  /\ engine.Handle net.parseIPv4 fixtures.noNetwork 1 fixtures.lanEngine tt
       fixtures.localhost "udp" (Some (fixtures.ask 1 "nas.lan." dns.TypeA))
     = Some (Ret (tt, (fixtures.replyTo (fixtures.ask 1 "nas.lan." dns.TypeA)
         [fixtures.recordA "nas.lan." 0 [192; 0; 2; 10]],
                       {| resolver.Protocol := "udp" |},
                       engine.withConsumer (default engine.zeroResult None)
                         "default"))).
Proof.
  assert (H : engine.AnswerMultiResolvers (engine.resolvers fixtures.lanEngine) tt
                {| resolver.Protocol := "udp" |}
                (engine.getResolvers fixtures.defaultConsumer)
                (fixtures.ask 1 "nas.lan." dns.TypeA)
              = Ret (tt, (Some (fixtures.replyTo (fixtures.ask 1 "nas.lan." dns.TypeA)
         [fixtures.recordA "nas.lan." 0 [192; 0; 2; 10]]),
                          None, None))) by (vm_compute; reflexivity).
  split; [exact H|].
  apply (Handle_passes_answer_through net.parseIPv4 fixtures.noNetwork
           fixtures.lanEngine fixtures.localhost fixtures.defaultConsumer _
           eq_refl eq_refl tt tt "udp" 0%nat (fixtures.ask 1 "nas.lan." dns.TypeA)
           (fixtures.question "nas.lan." dns.TypeA) [] rule.MatchNone None ""
           _ None None eq_refl eq_refl
           ltac:(cbn; lia) eq_refl eq_refl ltac:(discriminate) H _ eq_refl eq_refl
           eq_refl).
  cbn. left. discriminate.
Defined.

Lemma Handle_no_answer_is_name_error_witness :
  engine.AnswerMultiResolvers (engine.resolvers fixtures.lanEngine) tt
    {| resolver.Protocol := "udp" |} (engine.getResolvers fixtures.defaultConsumer)
    (fixtures.ask 1 "printer.lan." dns.TypeA)
  = Ret (tt, (Some (fixtures.replyTo (fixtures.ask 1 "printer.lan." dns.TypeA) []),
              None, None))
  /\ exists reply,
       engine.Handle net.parseIPv4 fixtures.noNetwork 1 fixtures.lanEngine tt
         fixtures.localhost "udp" (Some (fixtures.ask 1 "printer.lan." dns.TypeA))
       = Some (Ret (tt, (reply, {| resolver.Protocol := "udp" |},
                         engine.withConsumer (default engine.zeroResult None)
                           "default")))
       /\ dns.Id (dns.Hdr_ reply) = 1
       /\ dns.Response (dns.Hdr_ reply) = true
       /\ dns.Rcode (dns.Hdr_ reply) = dns.RcodeNameError
       /\ dns.Questions reply = [fixtures.question "printer.lan." dns.TypeA]
       /\ dns.Answer reply = [].
Proof.
  assert (H : engine.AnswerMultiResolvers (engine.resolvers fixtures.lanEngine) tt
                {| resolver.Protocol := "udp" |}
                (engine.getResolvers fixtures.defaultConsumer)
                (fixtures.ask 1 "printer.lan." dns.TypeA)
              = Ret (tt, (Some (fixtures.replyTo (fixtures.ask 1 "printer.lan." dns.TypeA) []),
                          None, None))) by (vm_compute; reflexivity).
  split; [exact H|].
  apply (Handle_no_answer_is_name_error net.parseIPv4 fixtures.noNetwork
           fixtures.lanEngine fixtures.localhost fixtures.defaultConsumer _
           eq_refl eq_refl tt tt "udp" 0%nat (fixtures.ask 1 "printer.lan." dns.TypeA)
           (fixtures.question "printer.lan." dns.TypeA) [] rule.MatchNone None ""
           _ None None eq_refl eq_refl
           ltac:(cbn; lia) eq_refl eq_refl ltac:(discriminate) H eq_refl
           (or_intror eq_refl)).
Defined.

Lemma Handle_follows_alias_witness :
  engine.AnswerMultiResolvers (engine.resolvers fixtures.lanEngine) tt
    {| resolver.Protocol := "udp" |} (engine.getResolvers fixtures.defaultConsumer)
    (fixtures.ask 1 "files.lan." dns.TypeA)
  = Ret (tt, (Some (fixtures.replyTo (fixtures.ask 1 "files.lan." dns.TypeA)
                      [Some {| dns.Hdr :=
                                 {| dns.Name := "files.lan.";
                                    dns.Rrtype := dns.TypeCNAME;
                                    dns.Class := dns.ClassINET; dns.Ttl := 0 |};
                               dns.Data := dns.CNAME "nas.lan." |}]),
              None, None))
  /\ engine.performRequest net.parseIPv4 fixtures.noNetwork 1 fixtures.lanEngine tt
       fixtures.localhost "udp" (Some (fixtures.ask 1 "nas.lan." dns.TypeA))
     = Some (Ret (tt, (fixtures.replyTo (fixtures.ask 1 "nas.lan." dns.TypeA)
                         [fixtures.recordA "nas.lan." 0 [192; 0; 2; 10]],
                       {| resolver.Protocol := "udp" |},
                       engine.withConsumer engine.zeroResult "default")))
  /\ exists out,
       engine.Handle net.parseIPv4 fixtures.noNetwork 2 fixtures.lanEngine tt
         fixtures.localhost "udp" (Some (fixtures.ask 1 "files.lan." dns.TypeA))
       = Some (Ret (tt, (out, {| resolver.Protocol := "udp" |},
                         engine.withConsumer (default engine.zeroResult None)
                           "default")))
       /\ dns.Id (dns.Hdr_ out) = 1
       /\ dns.Questions out = [fixtures.question "files.lan." dns.TypeA]
       /\ dns.Answer out = [fixtures.recordA "files.lan." 0 [192; 0; 2; 10]]
       /\ dns.Ns out = [] /\ dns.Extra out = [].
Proof.
  assert (H1 : engine.AnswerMultiResolvers (engine.resolvers fixtures.lanEngine) tt
                 {| resolver.Protocol := "udp" |}
                 (engine.getResolvers fixtures.defaultConsumer)
                 (fixtures.ask 1 "files.lan." dns.TypeA)
               = Ret (tt, (Some (fixtures.replyTo
                                   (fixtures.ask 1 "files.lan." dns.TypeA)
                                   [Some {| dns.Hdr :=
                                              {| dns.Name := "files.lan.";
                                                 dns.Rrtype := dns.TypeCNAME;
                                                 dns.Class := dns.ClassINET;
                                                 dns.Ttl := 0 |};
                                            dns.Data := dns.CNAME "nas.lan." |}]),
                           None, None))) by (vm_compute; reflexivity).
  assert (H2 : engine.performRequest net.parseIPv4 fixtures.noNetwork 1
                 fixtures.lanEngine tt fixtures.localhost "udp"
                 (Some (fixtures.ask 1 "nas.lan." dns.TypeA))
               = Some (Ret (tt, (fixtures.replyTo
                                   (fixtures.ask 1 "nas.lan." dns.TypeA)
                                   [fixtures.recordA "nas.lan." 0 [192; 0; 2; 10]],
                                 {| resolver.Protocol := "udp" |},
                                 engine.withConsumer engine.zeroResult "default"))))
    by (vm_compute; reflexivity).
  split; [exact H1|]. split; [exact H2|].
  apply (Handle_follows_alias net.parseIPv4 fixtures.noNetwork
           fixtures.lanEngine fixtures.localhost fixtures.defaultConsumer _
           eq_refl eq_refl tt tt "udp" 1%nat (fixtures.ask 1 "files.lan." dns.TypeA)
           (fixtures.question "files.lan." dns.TypeA) [] rule.MatchNone None ""
           _ None None eq_refl eq_refl
           ltac:(cbn; lia) eq_refl eq_refl ltac:(discriminate) H1
           _ _ [] "nas.lan." tt _ _ _ eq_refl eq_refl eq_refl eq_refl eq_refl
           ltac:(discriminate) eq_refl H2 eq_refl).
  repeat constructor; discriminate.
Defined.

(** ** The metrics: counters and windows *)

Section MetricsCounters.

Implicit Types (m : metrics.metrics) (name : string).

Lemma int64_small z : - 2 ^ 63 <= z < 2 ^ 63 -> int64 z = z.
Proof. intros H. unfold int64. rewrite Z.mod_small; lia. Qed.

Lemma metric_key_inj a b :
  metrics.MetricsPrefix +:+ a = metrics.MetricsPrefix +:+ b -> a = b.
Proof. unfold metrics.MetricsPrefix. cbn. intros H. now simplify_eq. Qed.

Lemma counter_Set m name name' v :
  spec.counter (metrics.metricsMap (metrics.Set_ m name v)) name'
  = if String.eqb name name' then v else spec.counter (metrics.metricsMap m) name'.
Proof.
  unfold spec.counter, metrics.Set_. cbn [metrics.metricsMap metrics.withMap].
  destruct (String.eqb_spec name name') as [->|Hne].
  - now rewrite lookup_insert_eq.
  - rewrite lookup_insert_ne; [reflexivity|]. intros H. now apply metric_key_inj in H.
Qed.

Lemma counter_Inc m name name' v :
  spec.counter (metrics.metricsMap (metrics.Inc m name v)) name'
  = if String.eqb name name'
    then int64 (spec.counter (metrics.metricsMap m) name + v)
    else spec.counter (metrics.metricsMap m) name'.
Proof.
  unfold metrics.Inc, metrics.Get.
  destruct (metrics.metricsMap m !! (metrics.MetricsPrefix +:+ name)) as [count|] eqn:E;
    rewrite counter_Set; destruct (String.eqb_spec name name') as [->|Hne];
    unfold spec.counter; cbn [metrics.metricsMap metrics.withMap]; rewrite ?E;
    try reflexivity.
  rewrite lookup_insert_ne; [reflexivity|]. intros H. now apply metric_key_inj in H.
Qed.

Lemma counter_setWhen m name name' v :
  spec.counter (metrics.metricsMap (metrics.setWhen m name v)) name'
  = if String.eqb name name'
    then default (spec.counter (metrics.metricsMap m) name') v
    else spec.counter (metrics.metricsMap m) name'.
Proof.
  destruct v as [v|]; cbn [metrics.setWhen default from_option id].
  - apply counter_Set.
  - now destruct (String.eqb name name').
Qed.

(** The seven counters of queries, in the order: session, lifetime
    and interval totals, cached, and session, lifetime and interval
    blocked. *)
#[local] Abbreviation queryCounters :=
  [metrics.TotalQueries; metrics.TotalLifetimeQueries; metrics.TotalIntervalQueries;
   metrics.CachedQueries; metrics.BlockedQueries; metrics.BlockedLifetimeQueries;
   metrics.BlockedIntervalQueries].

Lemma counter_update m readings name :
  name ∈ queryCounters ->
  spec.counter (metrics.metricsMap (metrics.update m readings)) name
  = spec.counter (metrics.metricsMap m) name.
Proof.
  intros Hname. unfold metrics.update. cbv zeta.
  destruct (metrics.process readings) as [[cpu rss threads [[free total]|]]|];
    cbn [metrics.cpuPercent metrics.memoryRSS metrics.numThreads metrics.virtualMemory];
    repeat (rewrite counter_setWhen || rewrite counter_Set);
    repeat (apply elem_of_cons in Hname; destruct Hname as [->|Hname];
            [reflexivity|]);
    inversion Hname.
Qed.

Lemma counter_record m info name :
  spec.counter (metrics.metricsMap (metrics.record m info)) name
  = if bool_decide (name ∈ [metrics.TotalQueries; metrics.TotalLifetimeQueries;
                            metrics.TotalIntervalQueries])
       || (bool_decide (name = metrics.CachedQueries) && spec.cachedQuery info)
       || (bool_decide (name ∈ [metrics.BlockedQueries; metrics.BlockedLifetimeQueries;
                                metrics.BlockedIntervalQueries])
           && spec.blockedQuery info)
    then int64 (spec.counter (metrics.metricsMap m) name + 1)
    else spec.counter (metrics.metricsMap m) name.
Proof.
  unfold metrics.record, spec.cachedQuery, spec.blockedQuery. cbv zeta.
  destruct (metrics.result info) as [r|];
    [destruct (resolver.Cached r),
       (resolver.Blocked r || bool_decide (resolver.Match r = rule.MatchBlock))|];
    repeat rewrite counter_Inc;
    repeat match goal with
           | |- context [String.eqb ?a name] =>
               destruct (String.eqb_spec a name) as [<-|?]; [reflexivity|]
           end;
    rewrite ?andb_true_r, ?andb_false_r, ?orb_false_r;
    repeat match goal with
           | |- context [bool_decide ?P] =>
               rewrite (bool_decide_eq_false_2 P)
                 by (rewrite ?elem_of_cons, ?elem_of_nil; intuition congruence)
           end;
    reflexivity.
Qed.

End MetricsCounters.

Section MetricsWorker.

Implicit Types (m : metrics.metrics) (name : string).

Lemma Set_fields m name v :
  metrics.db (metrics.Set_ m name v) = metrics.db m
  /\ metrics.lastInsert (metrics.Set_ m name v) = metrics.lastInsert m.
Proof. now split. Qed.

Lemma Inc_fields m name v :
  metrics.db (metrics.Inc m name v) = metrics.db m
  /\ metrics.lastInsert (metrics.Inc m name v) = metrics.lastInsert m.
Proof.
  unfold metrics.Inc, metrics.Get.
  now destruct (metrics.metricsMap m !! (metrics.MetricsPrefix +:+ name)).
Qed.

Lemma setWhen_fields m name v :
  metrics.db (metrics.setWhen m name v) = metrics.db m
  /\ metrics.lastInsert (metrics.setWhen m name v) = metrics.lastInsert m.
Proof. now destruct v. Qed.

Lemma update_fields m readings :
  metrics.db (metrics.update m readings) = metrics.db m
  /\ metrics.lastInsert (metrics.update m readings) = metrics.lastInsert m.
Proof.
  unfold metrics.update. cbv zeta.
  destruct (metrics.process readings) as [[cpu rss threads [[free total]|]]|];
    cbn [metrics.cpuPercent metrics.memoryRSS metrics.numThreads metrics.virtualMemory];
    split;
    repeat first [ rewrite (proj1 (setWhen_fields _ _ _))
                 | rewrite (proj2 (setWhen_fields _ _ _))
                 | rewrite (proj1 (Set_fields _ _ _))
                 | rewrite (proj2 (Set_fields _ _ _)) ];
    reflexivity.
Qed.

Lemma record_fields m info :
  metrics.db (metrics.record m info) = metrics.db m
  /\ metrics.lastInsert (metrics.record m info) = metrics.lastInsert m.
Proof.
  unfold metrics.record. cbv zeta.
  destruct (metrics.result info) as [r|];
    [destruct (resolver.Cached r),
       (resolver.Blocked r || bool_decide (resolver.Match r = rule.MatchBlock))|];
    split;
    repeat first [ rewrite (proj1 (Inc_fields _ _ _))
                 | rewrite (proj2 (Inc_fields _ _ _)) ];
    reflexivity.
Qed.

Lemma arrivals_length events :
  (length (spec.arrivals events) <= length events)%nat.
Proof.
  unfold spec.arrivals.
  induction events as [|[readings now|info] rest IH];
    cbn [flat_map app length] in *; lia.
Qed.

Lemma howMany_bounds P infos : 0 <= spec.howMany P infos <= Z.of_nat (length infos).
Proof.
  unfold spec.howMany. induction infos as [|info rest IH]; cbn; [lia|].
  destruct (P info); cbn; lia.
Qed.

Lemma howMany_snoc P infos info :
  spec.howMany P (infos ++ [info])
  = spec.howMany P infos + (if P info then 1 else 0).
Proof.
  unfold spec.howMany. rewrite List.filter_app, length_app. cbn.
  destruct (P info); cbn; lia.
Qed.

Ltac decide_names :=
  repeat match goal with
         | |- context [bool_decide ?P] =>
             first [ rewrite (bool_decide_eq_true_2 P)
                       by (rewrite ?elem_of_cons; auto 10)
                   | rewrite (bool_decide_eq_false_2 P)
                       by (rewrite ?elem_of_cons, ?elem_of_nil; intuition discriminate) ]
         end;
  cbn [orb andb].

(** What a run of the worker keeps, against its ledger. *)
Lemma work_ledger table now events :
  Z.of_nat (length events) < 2 ^ 63 ->
  let m' := spec.work (metrics.New (Some table) now) events in
  let values := metrics.metricsMap m' in
  let from := (spec.ledger now events).1.1 in
  let current := (spec.ledger now events).1.2 in
  let closed := (spec.ledger now events).2 in
  let all := spec.arrivals events in
  (length current <= length events)%nat
  /\ metrics.lastInsert m' = from
  /\ (exists rows,
        metrics.db m' = Some (table ++ rows)
        /\ Forall2 (fun r w =>
                      metrics.colFromTime r = w.1.1
                      /\ metrics.colAtTime r = w.1.2
                      /\ metrics.colIntervalSeconds r
                         = metrics.roundSeconds (w.1.2 - w.1.1)
                      /\ spec.counter (metrics.colMetricsJson r)
                           metrics.TotalIntervalQueries
                         = Z.of_nat (length w.2)
                      /\ spec.counter (metrics.colMetricsJson r)
                           metrics.BlockedIntervalQueries
                         = spec.howMany spec.blockedQuery w.2)
             rows closed)
  /\ spec.counter values metrics.TotalQueries = Z.of_nat (length all)
  /\ spec.counter values metrics.TotalLifetimeQueries = Z.of_nat (length all)
  /\ spec.counter values metrics.TotalIntervalQueries = Z.of_nat (length current)
  /\ spec.counter values metrics.CachedQueries = spec.howMany spec.cachedQuery all
  /\ spec.counter values metrics.BlockedQueries = spec.howMany spec.blockedQuery all
  /\ spec.counter values metrics.BlockedLifetimeQueries
     = spec.howMany spec.blockedQuery all
  /\ spec.counter values metrics.BlockedIntervalQueries
     = spec.howMany spec.blockedQuery current.
Proof.
  induction events as [|event events IH] using rev_ind; intros Hlen; cbv zeta.
  { cbn. split_and!; try reflexivity. exists []. split; [now rewrite app_nil_r|constructor]. }
  rewrite length_app in Hlen. cbn in Hlen.
  specialize (IH ltac:(lia)). cbv zeta in IH.
  unfold spec.work, spec.ledger, spec.arrivals in *.
  rewrite !fold_left_app, flat_map_app. cbn [fold_left flat_map].
  set (m1 := fold_left spec.workerStep events (metrics.New (Some table) now)) in *.
  destruct (fold_left spec.ledgerStep events (now, [], [])) as [[from current] closed].
  cbn [fst snd] in IH.
  destruct IH as (Hcur & Hlast & (rows & Hdb & Hrows) & H1 & H2 & H3 & H4 & H5 & H6 & H7).
  pose proof (arrivals_length events) as Hall. unfold spec.arrivals in Hall.
  set (all := flat_map _ events) in *.
  pose proof (howMany_bounds spec.cachedQuery all) as Hb1.
  pose proof (howMany_bounds spec.blockedQuery all) as Hb2.
  pose proof (howMany_bounds spec.blockedQuery current) as Hb3.
  rewrite length_app. cbn [length].
  destruct event as [readings t|info]; cbn [spec.workerStep spec.ledgerStep fst snd].
  - unfold metrics.workerTick. cbv zeta.
    destruct (update_fields m1 readings) as [Hudb Hulast].
    rewrite Hudb, Hdb. unfold metrics.insert. rewrite Hudb, Hdb. cbv zeta.
    cbn [metrics.metricsMap metrics.db metrics.lastInsert].
    unfold metrics.Clear, metrics.GetAll. rewrite !counter_Set, Hulast, Hlast.
    rewrite !counter_update by (rewrite !elem_of_cons; auto 10).
    rewrite app_nil_r. cbn.
    split_and!; try assumption; try reflexivity; [lia|].
    exists (rows ++ [{| metrics.colFromTime := from; metrics.colAtTime := t;
                        metrics.colMetricsJson :=
                          metrics.metricsMap (metrics.update m1 readings);
                        metrics.colIntervalSeconds := metrics.roundSeconds (t - from) |}]).
    split; [now rewrite app_assoc|].
    apply Forall2_app; [exact Hrows|]. constructor; [|constructor].
    cbn. rewrite !counter_update by (rewrite !elem_of_cons; auto 10).
    now split_and!.
  - destruct (record_fields m1 info) as [Hrdb Hrlast].
    rewrite app_nil_r.
    rewrite Hrdb, Hrlast, !counter_record, !length_app, !howMany_snoc.
    decide_names. rewrite ?orb_false_r. cbn [length].
    rewrite H1, H2, H3, H4, H5, H6, H7.
    destruct (spec.cachedQuery info), (spec.blockedQuery info);
      (split_and!; try assumption; try (now exists rows);
       try (rewrite int64_small; lia); lia).
Qed.

Lemma tiles_snoc from spans to span :
  spec.tiles from spans to -> span.1 = to ->
  spec.tiles from (spans ++ [span]) span.2.
Proof.
  revert from. induction spans as [|first rest IH]; intros from; cbn.
  - intros -> ->. now split.
  - intros [-> Hrest] Hspan. split; [reflexivity|now apply IH].
Qed.

Lemma ledger_tiles now events :
  spec.tiles now (map fst (spec.ledger now events).2) (spec.ledger now events).1.1.
Proof.
  unfold spec.ledger. induction events as [|event events IH] using rev_ind;
    [reflexivity|].
  rewrite fold_left_app. cbn [fold_left].
  destruct (fold_left spec.ledgerStep events (now, [], [])) as [[from current] closed].
  destruct event as [readings t|info]; cbn [spec.ledgerStep fst snd] in *; [|exact IH].
  rewrite map_app. now apply (tiles_snoc now (map fst closed) from (from, t)).
Qed.


(** One row for each tick, and the rows tile the time: after any run
    of the worker from a fresh start at instant [now] with a
    database, the table has gained one row for each tick, in order;
    the first row begins at [now], each row begins at the instant at
    which the one before it ends, and the last ends at the instant of
    the last insert; each row gives the length of its window in
    rounded seconds and, as interval counts, the entries that arrived
    within its window and the blocked ones among them. *)
Theorem worker_rows_tile_the_time table now events :
  Z.of_nat (length events) < 2 ^ 63 ->
  let m' := spec.work (metrics.New (Some table) now) events in
  exists rows,
    metrics.db m' = Some (table ++ rows)
    /\ spec.tiles now (map (fun r => (metrics.colFromTime r, metrics.colAtTime r)) rows)
         (metrics.lastInsert m')
    /\ Forall2 (fun r w =>
                  metrics.colAtTime r = w.1.2
                  /\ metrics.colIntervalSeconds r
                     = metrics.roundSeconds (metrics.colAtTime r - metrics.colFromTime r)
                  /\ spec.counter (metrics.colMetricsJson r)
                       metrics.TotalIntervalQueries
                     = Z.of_nat (length w.2)
                  /\ spec.counter (metrics.colMetricsJson r)
                       metrics.BlockedIntervalQueries
                     = spec.howMany spec.blockedQuery w.2)
         rows (spec.ledger now events).2.
Proof.
  intros Hlen. pose proof (work_ledger table now events Hlen) as H. cbv zeta in *.
  destruct H as (_ & Hlast & (rows & Hdb & Hrows) & _).
  exists rows. split; [exact Hdb|]. split.
  - rewrite Hlast. pose proof (ledger_tiles now events) as Htiles.
    replace (map (fun r => (metrics.colFromTime r, metrics.colAtTime r)) rows)
      with (map fst (spec.ledger now events).2); [exact Htiles|].
    clear -Hrows. induction Hrows as [|r [[wfrom wat] infos] rows' ws Hr Hrest IH];
      [reflexivity|].
    cbn in *. destruct Hr as (-> & -> & _). now rewrite IH.
  - eapply Forall2_impl; [exact Hrows|]. cbn.
    intros r w (-> & -> & -> & H1 & H2). now split_and!.
Qed.


End MetricsWorker.


Lemma worker_rows_tile_the_time_witness :
  Z.of_nat (length runs.workerRun) < 2 ^ 63
  /\ spec.ledger (fixtures.seconds 10) runs.workerRun
     = (fixtures.seconds 20, [fixtures.info],
        [(fixtures.seconds 10, fixtures.seconds 20,
          [fixtures.info; fixtures.blockedInfo])])
  /\ exists rows,
       metrics.db (spec.work (metrics.New (Some []) (fixtures.seconds 10))
                     runs.workerRun)
       = Some ([] ++ rows)
       /\ spec.tiles (fixtures.seconds 10)
            (map (fun r => (metrics.colFromTime r, metrics.colAtTime r)) rows)
            (metrics.lastInsert
               (spec.work (metrics.New (Some []) (fixtures.seconds 10))
                  runs.workerRun))
       /\ Forall2 (fun r w =>
                     metrics.colAtTime r = w.1.2
                     /\ metrics.colIntervalSeconds r
                        = metrics.roundSeconds
                            (metrics.colAtTime r - metrics.colFromTime r)
                     /\ spec.counter (metrics.colMetricsJson r)
                          metrics.TotalIntervalQueries
                        = Z.of_nat (length w.2)
                     /\ spec.counter (metrics.colMetricsJson r)
                          metrics.BlockedIntervalQueries
                        = spec.howMany spec.blockedQuery w.2)
            rows (spec.ledger (fixtures.seconds 10) runs.workerRun).2.
Proof.
  assert (H : Z.of_nat (length runs.workerRun) < 2 ^ 63) by reflexivity.
  assert (H' : spec.ledger (fixtures.seconds 10) runs.workerRun
               = (fixtures.seconds 20, [fixtures.info],
                  [(fixtures.seconds 10, fixtures.seconds 20,
                    [fixtures.info; fixtures.blockedInfo])])) by reflexivity.
  exact (conj H (conj H'
           (worker_rows_tile_the_time [] (fixtures.seconds 10) runs.workerRun H))).
Defined.

(** ** The query log: the statements of a query *)

Section QueryLogStatements.

Lemma placeholders_append a b :
  spec.placeholders (a +:+ b) = (spec.placeholders a + spec.placeholders b)%nat.
Proof.
  induction a as [|ch a IH]; [reflexivity|].
  change (((if Ascii.eqb ch "?" then 1 else 0) + spec.placeholders (a +:+ b))%nat
          = ((if Ascii.eqb ch "?" then 1 else 0) + spec.placeholders a
             + spec.placeholders b)%nat).
  rewrite IH. lia.
Qed.

Lemma placeholders_Join l sep :
  spec.placeholders sep = 0%nat ->
  spec.placeholders (Strings.Join l sep) = sum_list_with spec.placeholders l.
Proof.
  intros Hsep. induction l as [|s [|s' rest] IH]; [reflexivity|cbn; lia|].
  change (Strings.Join (s :: s' :: rest) sep)
    with (s +:+ sep +:+ Strings.Join (s' :: rest) sep).
  rewrite !placeholders_append, Hsep, IH. cbn. lia.
Qed.

Lemma lower_placeholder c : Ascii.eqb (Strings.lower c) "?" = Ascii.eqb c "?".
Proof. destruct c as [[] [] [] [] [] [] [] []]; reflexivity. Qed.

Lemma placeholders_ToLower s :
  spec.placeholders (Strings.ToLower s) = spec.placeholders s.
Proof.
  induction s as [|ch s IH]; [reflexivity|]. cbn [Strings.ToLower spec.placeholders].
  now rewrite lower_placeholder, IH.
Qed.

Lemma placeholders_validSort s :
  Strings.ToLower s ∈ qlog.validSorts -> spec.placeholders s = 0%nat.
Proof.
  intros H. rewrite <- placeholders_ToLower. unfold qlog.validSorts in H.
  repeat (apply elem_of_cons in H; destruct H as [->|H]; [reflexivity|]).
  inversion H.
Qed.

Lemma placeholders_digits fuel n acc :
  spec.placeholders (strconv.digits fuel n acc) = spec.placeholders acc.
Proof.
  revert n acc. induction fuel as [|fuel IH]; intros n acc; [reflexivity|].
  cbn [strconv.digits].
  assert (Hdigit : Ascii.eqb (strconv.digit (n mod 10)) "?" = false).
  { pose proof (Z.mod_pos_bound n 10 ltac:(lia)) as Hb.
    assert (Hd : n mod 10 = 0 \/ n mod 10 = 1 \/ n mod 10 = 2 \/ n mod 10 = 3
                 \/ n mod 10 = 4 \/ n mod 10 = 5 \/ n mod 10 = 6 \/ n mod 10 = 7
                 \/ n mod 10 = 8 \/ n mod 10 = 9) by lia.
    repeat (destruct Hd as [->|Hd]; [reflexivity|]). now rewrite Hd. }
  destruct (n / 10 =? 0); [|rewrite IH]; cbn [spec.placeholders];
    now rewrite Hdigit.
Qed.

Lemma placeholders_Itoa n : spec.placeholders (strconv.Itoa n) = 0%nat.
Proof.
  unfold strconv.Itoa. destruct (n <? 0).
  - rewrite placeholders_append, placeholders_digits. reflexivity.
  - now rewrite placeholders_digits.
Qed.

Lemma placeholders_paging query : spec.placeholders (spec.paging query) = 0%nat.
Proof.
  unfold spec.paging.
  destruct (0 <? qlog.Limit query), (0 <? qlog.Skip query);
    rewrite ?placeholders_append, ?placeholders_Itoa; reflexivity.
Qed.

(** The clauses gathered begin with [1 = 1] and hold one placeholder
    for each value. *)
#[local] Abbreviation gathered acc :=
  (exists rest, fst acc = "1 = 1" :: rest
                /\ sum_list_with spec.placeholders rest = length (snd acc)).

Lemma addWhen_gathered cond clause value (acc : qlog.Clauses) :
  spec.placeholders clause = 1%nat ->
  gathered acc -> gathered (qlog.addWhen cond clause value acc).
Proof.
  intros Hclause (rest & Hfirst & Hsum). unfold qlog.addWhen.
  destruct cond; [|now exists rest]. cbn [fst snd]. rewrite Hfirst.
  exists (rest ++ [clause]). split; [reflexivity|].
  rewrite sum_list_with_app, length_app, Hsum. cbn. lia.
Qed.

Lemma gathered_joined (acc : qlog.Clauses) sep :
  spec.placeholders sep = 0%nat ->
  gathered acc ->
  spec.placeholders
    (Strings.Join (if (1 <? length acc.1)%nat then tail acc.1 else acc.1) sep)
  = length acc.2.
Proof.
  intros Hsep (rest & Hfirst & Hsum). rewrite Hfirst, <- Hsum.
  destruct rest as [|clause rest]; [reflexivity|].
  cbn [length Nat.ltb Nat.leb tail]. now apply placeholders_Join.
Qed.

Lemma append_assoc (a b c : string) : (a +:+ b) +:+ c = a +:+ b +:+ c.
Proof.
  induction a as [|ch a IH]; [reflexivity|].
  change (String ch ((a +:+ b) +:+ c) = String ch (a +:+ b +:+ c)). now rewrite IH.
Qed.

Lemma append_empty (a : string) : a +:+ "" = a.
Proof.
  induction a as [|ch a IH]; [reflexivity|].
  change (String ch (a +:+ "") = String ch a). now rewrite IH.
Qed.

(** The shape of the two statements. *)
Lemma statements_shape query :
  exists conditions sortBy direction,
    qlog.statements query
    = (qlog.selectFrom +:+ " WHERE " +:+ conditions +:+ " ORDER BY " +:+ sortBy
         +:+ " " +:+ direction +:+ spec.paging query,
       qlog.countFrom +:+ " WHERE " +:+ conditions,
       (qlog.statements query).2)
    /\ spec.placeholders conditions = length (qlog.statements query).2
    /\ ((qlog.SortBy query <> ""
         /\ Strings.ToLower (qlog.SortBy query) ∈ qlog.validSorts
         /\ sortBy = qlog.SortBy query)
        \/ ((qlog.SortBy query = ""
             \/ Strings.ToLower (qlog.SortBy query) ∉ qlog.validSorts)
            /\ sortBy = "created"))
    /\ ((Strings.ToUpper (qlog.Direction query) ∈ ["DESC"; "ASC"]
         /\ direction = Strings.ToUpper (qlog.Direction query))
        \/ ((Strings.ToUpper (qlog.Direction query) ∉ ["DESC"; "ASC"])
            /\ direction = if String.eqb "created" (Strings.ToLower sortBy)
                           then "DESC" else "ASC")).
Proof.
  unfold qlog.statements. cbv zeta.
  set (ors := qlog.addWhen (negb (String.eqb "" (qlog.ResponseText query))) _ _
                (qlog.addWhen _ _ _ (qlog.addWhen _ _ _
                   (qlog.addWhen _ _ _ (["1 = 1"], []))))).
  set (wheres := qlog.addWhen (qlog.isSet (qlog.Before query)) _ _
                   (qlog.addWhen _ _ _ (qlog.addWhen _ _ _
                      (qlog.addWhen _ _ _ (qlog.addWhen _ _ _ (["1 = 1"], [])))))).
  assert (Hstart : gathered ((["1 = 1"], []) : qlog.Clauses)) by now exists [].
  assert (Hors : gathered ors) by (repeat apply addWhen_gathered; easy).
  assert (Hwheres : gathered wheres) by (repeat apply addWhen_gathered; easy).
  pose proof (gathered_joined ors " OR " eq_refl Hors) as Hor.
  pose proof (gathered_joined wheres " AND " eq_refl Hwheres) as Hwhere.
  assert (Hsome : ((0 <? length wheres.1)%nat || (0 <? length ors.1)%nat) = true).
  { destruct Hwheres as (rest & -> & _). reflexivity. }
  rewrite Hsome.
  set (orText := Strings.Join (if (1 <? length ors.1)%nat then tail ors.1 else ors.1)
                   " OR ") in *.
  set (whereText := Strings.Join (if (1 <? length wheres.1)%nat
                                  then tail wheres.1 else wheres.1) " AND ") in *.
  set (sortBy := if negb (String.eqb "" (qlog.SortBy query))
                    && util.StringIn (Strings.ToLower (qlog.SortBy query))
                         qlog.validSorts
                 then qlog.SortBy query else "created").
  set (upper := Strings.ToUpper (qlog.Direction query)).
  set (direction := if String.eqb "created" (Strings.ToLower sortBy)
                       && String.eqb ""
                            (if negb (util.StringIn upper ["DESC"; "ASC"])
                             then "" else upper)
                    then "DESC"
                    else if String.eqb ""
                              (if negb (util.StringIn upper ["DESC"; "ASC"])
                               then "" else upper)
                         then "ASC"
                         else if negb (util.StringIn upper ["DESC"; "ASC"])
                              then "" else upper).
  exists (Strings.Join ["(" +:+ orText +:+ ")"; whereText] " AND "), sortBy, direction.
  split_and!.
  - f_equal. f_equal. unfold spec.paging.
    destruct (0 <? qlog.Limit query), (0 <? qlog.Skip query);
      rewrite ?append_assoc, ?append_empty; reflexivity.
  - cbn [snd]. rewrite placeholders_Join by reflexivity. cbn [sum_list_with].
    rewrite !placeholders_append, Hor, Hwhere, length_app. cbn. lia.
  - subst sortBy. destruct (String.eqb_spec "" (qlog.SortBy query)) as [Hempty|Hset];
      cbn [negb andb]; [right; split; [now left|reflexivity]|].
    destruct (util.StringIn (Strings.ToLower (qlog.SortBy query)) qlog.validSorts)
      eqn:Hin.
    + left. apply StringIn_elem_of in Hin. split_and!; [congruence|exact Hin|reflexivity].
    + right. split; [|reflexivity]. right. intros Hin'.
      apply StringIn_elem_of in Hin'. congruence.
  - subst direction. destruct (util.StringIn upper ["DESC"; "ASC"]) eqn:Hin;
      cbn [negb].
    + left. apply StringIn_elem_of in Hin. split; [exact Hin|].
      apply elem_of_cons in Hin as [->|Hin];
        [|apply elem_of_cons in Hin as [->|Hin]; [|inversion Hin]];
        cbn; now rewrite andb_false_r.
    + right. split.
      * intros Hin'. apply StringIn_elem_of in Hin'. congruence.
      * cbn. now rewrite andb_true_r.
Qed.

(** The two statements of a query hold one placeholder for each of
    the values bound to them, whatever the query: the texts that are
    searched for go to the values, and what goes to the statement (the
    column to sort by, the direction, the limits) holds no
    placeholder. *)
Theorem statements_bind_every_placeholder query :
  spec.placeholders (qlog.statements query).1.1 = length (qlog.statements query).2
  /\ spec.placeholders (qlog.statements query).1.2 = length (qlog.statements query).2.
Proof.
  destruct (statements_shape query)
    as (conditions & sortBy & direction & Heq & Hcount & Hsort & Hdirection).
  assert (Hs : spec.placeholders sortBy = 0%nat).
  { destruct Hsort as [(_ & Hin & ->)|(_ & ->)];
      [now apply placeholders_validSort|reflexivity]. }
  assert (Hd : spec.placeholders direction = 0%nat).
  { destruct Hdirection as [(Hin & Heqd)|(_ & ->)].
    - rewrite Heqd.
      apply elem_of_cons in Hin as [->|Hin];
        [|apply elem_of_cons in Hin as [->|Hin]; [|inversion Hin]]; reflexivity.
    - now destruct (String.eqb "created" (Strings.ToLower sortBy)). }
  rewrite Heq. cbn [fst snd].
  rewrite !placeholders_append, Hcount, Hs, Hd, placeholders_paging. cbn. lia.
Qed.

(** Both statements are made under the same conditions, and nothing
    of the query reaches the ordering unchecked: the entries are
    counted under the conditions under which they are selected; the
    column to sort by is the one asked for when, in lower case, it is
    one of the valid sorts, and [created] otherwise; the direction is
    the one asked for when, in upper case, it is DESC or ASC, and
    otherwise DESC for a sort by creation and ASC for any other; the
    limit and the offset follow, each when it is above 0. *)
Theorem statements_share_conditions_and_check_order query :
  exists conditions sortBy direction,
    (qlog.statements query).1.1
    = qlog.selectFrom +:+ " WHERE " +:+ conditions +:+ " ORDER BY " +:+ sortBy
        +:+ " " +:+ direction +:+ spec.paging query
    /\ (qlog.statements query).1.2 = qlog.countFrom +:+ " WHERE " +:+ conditions
    /\ Strings.ToLower sortBy ∈ qlog.validSorts
    /\ (sortBy = qlog.SortBy query \/ sortBy = "created")
    /\ direction ∈ ["DESC"; "ASC"]
    /\ (Strings.ToUpper (qlog.Direction query) ∈ ["DESC"; "ASC"] ->
        direction = Strings.ToUpper (qlog.Direction query))
    /\ (Strings.ToUpper (qlog.Direction query) ∉ ["DESC"; "ASC"] ->
        direction = if String.eqb "created" (Strings.ToLower sortBy)
                    then "DESC" else "ASC").
Proof.
  destruct (statements_shape query)
    as (conditions & sortBy & direction & Heq & Hcount & Hsort & Hdirection).
  exists conditions, sortBy, direction. rewrite Heq. cbn [fst snd].
  split_and!; try reflexivity.
  - destruct Hsort as [(_ & Hin & ->)|(_ & ->)]; [exact Hin|].
    unfold qlog.validSorts. rewrite !elem_of_cons. auto 10.
  - destruct Hsort as [(_ & _ & ->)|(_ & ->)]; auto.
  - destruct Hdirection as [(Hin & ->)|(_ & ->)]; [exact Hin|].
    destruct (String.eqb "created" (Strings.ToLower sortBy));
      rewrite !elem_of_cons; auto.
  - intros Hin. destruct Hdirection as [(_ & ->)|(Hout & _)]; [reflexivity|easy].
  - intros Hout. destruct Hdirection as [(Hin & _)|(_ & ->)]; [easy|reflexivity].
Qed.

End QueryLogStatements.
